(** * DAT-H: the scoring engine and the page that drives it

    A shallow embedding of [src/scorer.js] and of the second revision of the
    same module (which differs in the clarity weight and in the stack
    position weights), together with the properties its specification
    states, and of [src/app.js], the page that collects the answers and
    calls the engine.

    Numbers.  JavaScript numbers are IEEE doubles.  Every finite double is a
    real number, and this development reads the arithmetic of the engine
    over the reals: [+ - * /] are exact, [Math.exp] and [Math.log] are the
    real exponential and logarithm.  What is kept of the IEEE domain is its
    shape: [NaN] (which the engine produces from [undefined] operands) and
    the two infinities (the engine starts its running maximum at
    [-Infinity]).  Rounding error and overflow are outside the model.  A
    statement about the value of an estimate is therefore made for item
    parameters of moderate magnitude (at most [1e100], far from the
    [1.3e154] at which [a * a] overflows), and it bounds or orders the
    computed values with non-strict inequalities, which rounding keeps; a
    statement that describes a comparison the code makes describes it over
    the reals.

    Objects.  An object used as a map is a finite map of its own
    properties.  What a plain object inherits from [Object.prototype] is
    modelled where it decides what the engine does: in
    [questionData.options[answer.choice]], where a choice such as
    [toString] reads an inherited function instead of [undefined].  The
    other lookups of the engine behave on an inherited value as on a missing
    one (an inherited function has no [choice], is no number, and is stored
    under no attitude the loop reads).  The page indexes [userAnswers] with
    the ids of the questions; its statements that depend on it are made for
    ids that name no property of [Object.prototype].  Question numbers and
    item indices are natural numbers, an answer is present or absent, and an
    integer used as a property key is printed in decimal.

    Exceptions.  Neither module has a [throw] statement: what they can raise
    is the [TypeError] of reading a property of [undefined], which is kept
    as an explicit outcome. *)

From Stdlib Require Import Reals Lra Lia ZArith.
From stdpp Require Import base option list strings pretty gmap.

Local Open Scope R_scope.

(** ** JavaScript numbers *)

Module Js.

Inductive number : Type :=
| Num (x : R)
| NaN
| PosInf
| NegInf.

Definition Rltb (x y : R) : bool := if Rlt_dec x y then true else false.
Definition Reqb (x y : R) : bool := if Req_dec_T x y then true else false.

(** [x < y]; every comparison with [NaN] is false. *)
Definition lt (p q : number) : bool :=
  match p, q with
  | NaN, _ | _, NaN => false
  | Num x, Num y => Rltb x y
  | NegInf, NegInf => false
  | NegInf, _ => true
  | _, PosInf => match p with PosInf => false | _ => true end
  | _, _ => false
  end.

Definition gt (p q : number) : bool := lt q p.

(** [x === y] on numbers. *)
Definition eq (p q : number) : bool :=
  match p, q with
  | Num x, Num y => Reqb x y
  | PosInf, PosInf | NegInf, NegInf => true
  | _, _ => false
  end.

Definition le (p q : number) : bool := lt p q || eq p q.
Definition ge (p q : number) : bool := le q p.

Definition neg (p : number) : number :=
  match p with
  | Num x => Num (- x)
  | NaN => NaN
  | PosInf => NegInf
  | NegInf => PosInf
  end.

Definition add (p q : number) : number :=
  match p, q with
  | NaN, _ | _, NaN => NaN
  | Num x, Num y => Num (x + y)
  | PosInf, NegInf | NegInf, PosInf => NaN
  | PosInf, _ | _, PosInf => PosInf
  | NegInf, _ | _, NegInf => NegInf
  end.

Definition sub (p q : number) : number := add p (neg q).

(** The infinity whose sign is the sign of [s * t]; [NaN] when [s * t = 0]. *)
Definition signed_inf (s t : R) : number :=
  if Rltb 0 (s * t) then PosInf
  else if Rltb (s * t) 0 then NegInf
  else NaN.

Definition sign_of (p : number) : R :=
  match p with
  | Num x => x
  | PosInf => 1
  | NegInf => -1
  | NaN => 0
  end.

Definition mul (p q : number) : number :=
  match p, q with
  | NaN, _ | _, NaN => NaN
  | Num x, Num y => Num (x * y)
  | _, _ => signed_inf (sign_of p) (sign_of q)
  end.

(** Division.  The reals have one zero, so a finite non-zero number divided
    by zero is given the sign of the numerator; the engine never divides by
    zero (its denominators are [3.0], [1 + exp _] and a second derivative of
    magnitude at least [1e-9]). *)
Definition div (p q : number) : number :=
  match p, q with
  | NaN, _ | _, NaN => NaN
  | Num x, Num y => if Reqb y 0 then signed_inf x 1 else Num (x / y)
  | Num x, _ => Num 0
  | _, Num y => if Reqb y 0 then p else signed_inf (sign_of p) y
  | _, _ => NaN
  end.

Definition abs (p : number) : number :=
  match p with
  | Num x => Num (Rabs x)
  | NaN => NaN
  | _ => PosInf
  end.

(** [Math.max] and [Math.min] of two arguments. *)
Definition max (p q : number) : number :=
  match p, q with
  | NaN, _ | _, NaN => NaN
  | _, _ => if lt p q then q else p
  end.

Definition min (p q : number) : number :=
  match p, q with
  | NaN, _ | _, NaN => NaN
  | _, _ => if lt q p then q else p
  end.

(** [Math.round]: the nearest integer, ties towards [+Infinity]. *)
Definition round (p : number) : number :=
  match p with
  | Num x => Num (IZR (Zfloor (x + / 2)))
  | _ => p
  end.

Definition exp (p : number) : number :=
  match p with
  | Num x => Num (Rtrigo_def.exp x)
  | NaN => NaN
  | PosInf => PosInf
  | NegInf => Num 0
  end.

(** [Math.log]. *)
Definition log (p : number) : number :=
  match p with
  | Num x => if Rltb x 0 then NaN else if Reqb x 0 then NegInf else Num (ln x)
  | NaN => NaN
  | PosInf => PosInf
  | NegInf => NaN
  end.

(** A value that is a number or [undefined]; [ToNumber undefined] is [NaN]. *)
Definition to_number (v : option R) : number :=
  match v with
  | Some x => Num x
  | None => NaN
  end.

End Js.

(** ** Inputs of the engine *)

(** The value of a [choice] property: the UI stores the [value] attribute of
    a radio button (a string); the specification also allows an integer. *)
Inductive value : Type :=
| VNum (n : Z)
| VStr (s : string).

(** Truthiness, as tested by [answer && answer.choice]. *)
Definition truthy (v : value) : bool :=
  match v with
  | VNum n => negb (Z.eqb n 0)
  | VStr s => negb (String.eqb s "")
  end.

(** The property key a value denotes in [obj[v]]. *)
Definition to_key (v : value) : string :=
  match v with
  | VNum n => pretty n
  | VStr s => s
  end.

(** An answer object [{ choice }]. *)
Record Answer : Type := { choice : value }.

(** The names of the properties a plain object inherits from
    [Object.prototype]. *)
Definition OBJECT_PROTOTYPE : list string :=
  [ "constructor"; "toString"; "toLocaleString"; "valueOf"; "hasOwnProperty";
    "isPrototypeOf"; "propertyIsEnumerable"; "__proto__"; "__defineGetter__";
    "__defineSetter__"; "__lookupGetter__"; "__lookupSetter__" ]%string.

Definition inherited (key : string) : bool := bool_decide (key ∈ OBJECT_PROTOTYPE).

(** An entry of the item parameter table: [{ dichotomy, params: { a, b } }]. *)
Module ItemParameter.
Record t : Type := { dichotomy : string; a : R; b : R }.
End ItemParameter.

(** A forced-choice question: [{ number, options: { A: {scoreKey}, ... } }].
    An option without a [scoreKey] property has [scoreKey = None]. *)
Module MbtiQuestion.
Record option_entry : Type := { scoreKey : option R }.
Record t : Type := { number : nat; options : gmap string option_entry }.
End MbtiQuestion.

(** A Likert question: [{ id, construct1: { pole }, construct2: { pole } }]. *)
Module AttitudeQuestion.
Record construct : Type := { pole : string }.
Record t : Type := { id : string; construct1 : construct; construct2 : construct }.
End AttitudeQuestion.

(** ** Exceptions

    The module has no [throw] statement.  The only exception it can raise is
    the engine's [TypeError] for reading a property of [undefined]; what that
    error carries is the name of the property being read. *)
Inductive error : Type :=
| TypeError (reading : string).

Inductive outcome (A : Type) : Type :=
| Ok (x : A)
| Throw (e : error).
Arguments Ok {A} x.
Arguments Throw {A} e.

Global Instance outcome_ret : MRet outcome := fun A x => Ok x.

Global Instance outcome_bind : MBind outcome := fun A B k m =>
  match m with
  | Ok x => k x
  | Throw e => Throw e
  end.

(** [xs.map(f)] where [f] may throw: the first exception escapes. *)
Fixpoint map_outcome {A B : Type} (f : A -> outcome B) (xs : list A) : outcome (list B) :=
  match xs with
  | [] => Ok []
  | x :: rest =>
      y ← f x;
      ys ← map_outcome f rest;
      Ok (y :: ys)
  end.

(** ** Static data *)

Definition TYPE_FUNCTION_STACKS : list (string * (string * string * string * string)) :=
  [ ("INTP", ("Ti", "Ne", "Si", "Fe")); ("ENTP", ("Ne", "Ti", "Fe", "Si"));
    ("ISTP", ("Ti", "Se", "Ni", "Fe")); ("ESTP", ("Se", "Ti", "Fe", "Ni"));
    ("INFJ", ("Ni", "Fe", "Ti", "Se")); ("ENFJ", ("Fe", "Ni", "Se", "Ti"));
    ("INTJ", ("Ni", "Te", "Fi", "Se")); ("ENTJ", ("Te", "Ni", "Se", "Fi"));
    ("ISFP", ("Fi", "Se", "Ni", "Te")); ("ESFP", ("Se", "Fi", "Te", "Ni"));
    ("INFP", ("Fi", "Ne", "Si", "Te")); ("ENFP", ("Ne", "Fi", "Te", "Si"));
    ("ISTJ", ("Si", "Te", "Fi", "Ne")); ("ESTJ", ("Te", "Si", "Ne", "Fi"));
    ("ISFJ", ("Si", "Fe", "Ti", "Ne")); ("ESFJ", ("Fe", "Si", "Ne", "Ti")) ]%string.

Record DichotomyConfig : Type := { poles : string * string; tieBreaker : string }.

Definition DICHOTOMY_CONFIG : list (string * DichotomyConfig) :=
  [ ("E-I", {| poles := ("E", "I"); tieBreaker := "I" |});
    ("S-N", {| poles := ("S", "N"); tieBreaker := "N" |});
    ("T-F", {| poles := ("T", "F"); tieBreaker := "F" |}) ]%string.

(** [obj[key]] on a literal object given by its entries. *)
Fixpoint get {A : Type} (entries : list (string * A)) (key : string) : option A :=
  match entries with
  | [] => None
  | (k, v) :: rest => if String.eqb k key then Some v else get rest key
  end.

Definition IRT_CLARITY_WEIGHT : list (string * R) :=
  [ ("Slight", 2.0); ("Moderate", 4.0); ("Clear", 6.0); ("Very Clear", 8.0) ]%string.

Definition ATTITUDE_SCORE_WEIGHT : R := 1.0.

Record PositionWeight : Type := { dom : R; aux : R; ter : R; inf : R }.

(** [src/scorer.js] *)
Definition ATTITUDE_STACK_POSITION_WEIGHT : PositionWeight :=
  {| dom := 4; aux := 3; ter := 1.5; inf := 1 |}.

(** The logarithmic-weight revision. *)
Definition ATTITUDE_STACK_POSITION_WEIGHT_log : PositionWeight :=
  {| dom := 5; aux := 3; ter := 1; inf := 0.5 |}.

(** Arithmetic on numbers, written as in the source. *)
Declare Scope js_scope.
Delimit Scope js_scope with js.
Bind Scope js_scope with Js.number.
Infix "+" := Js.add : js_scope.
Infix "-" := Js.sub : js_scope.
Infix "*" := Js.mul : js_scope.
Infix "/" := Js.div : js_scope.
Notation "- x" := (Js.neg x) : js_scope.
Infix "<" := Js.lt : js_scope.
Infix ">" := Js.gt : js_scope.
Infix ">=" := Js.ge : js_scope.
Infix "<=" := Js.le : js_scope.
Infix "===" := Js.eq (at level 70, no associativity) : js_scope.
Coercion Js.Num : R >-> Js.number.

(** [s.startsWith(t)] and [s.includes(t)]. *)
Definition startsWith (s t : string) : bool := String.prefix t s.

Fixpoint includes (s t : string) : bool :=
  String.prefix t s ||
  match s with
  | EmptyString => false
  | String _ rest => includes rest t
  end.

(** ** The engine *)

(** What the estimator keeps of an answered question: [{ a, b, u }]; [u] is
    [undefined] when the chosen option has no [scoreKey]. *)
Record Item : Type := { a : R; b : R; u : option R }.

(** An entry of [coreResults].  [src/scorer.js] stores [{ pcc, theta }]; the
    logarithmic-weight revision stores [{ pcc, theta, pci }]. *)
Record CoreResult : Type := { pcc : string; theta : Js.number; pci : Js.number }.

(** The object returned by [calculateHybridResults].  The [rationale] field,
    a display string made with [toFixed(2)] (which cannot throw), is left
    out. *)
Record Result : Type := {
  finalType : string;
  dominant : string;
  auxiliary : string;
  tertiary : string;
  inferior : string;
  score : Js.number;
  allTypeScores : gmap string Js.number
}.

Definition probability (theta a b : Js.number) : Js.number :=
  (1 / (1 + Js.exp (- a * (theta - b))))%js.

Definition getPccCategory (pci : Js.number) : string :=
  if (pci >= 26)%js then "Very Clear"
  else if (pci >= 16)%js then "Clear"
  else if (pci >= 6)%js then "Moderate"
  else "Slight".

(** [getIrtClarityWeight] of the logarithmic-weight revision. *)
Definition getIrtClarityWeight (pci : Js.number) : Js.number :=
  if (pci <= 0)%js then 1
  else (2.15 * Js.log pci + 1)%js.

(** One pass of [for (const item of items)]: the two accumulated
    derivatives at [theta]. *)
Definition derivatives (theta : Js.number) (items : list Item) : Js.number * Js.number :=
  fold_left
    (fun (acc : Js.number * Js.number) (item : Item) =>
       let '(firstDerivative, secondDerivative) := acc in
       let P := probability theta (a item) (b item) in
       ((firstDerivative + a item * (Js.to_number (u item) - P))%js,
        (secondDerivative + - (a item) * a item * (1 - P) * P)%js))
    items ((0 : Js.number), (0 : Js.number)).

(** The loop [for (let iter = 0; iter < 20; iter++)], with [remaining]
    iterations left; the result is the value of [theta] after the loop. *)
Fixpoint newton (remaining : nat) (theta : Js.number) (items : list Item) : Js.number :=
  match remaining with
  | O => theta
  | S remaining' =>
      let '(firstDerivative, secondDerivative) := derivatives theta items in
      if (Js.abs secondDerivative < 1e-9)%js then theta
      else
        let newTheta := (theta - firstDerivative / secondDerivative)%js in
        let clampedTheta := Js.max (-3) (Js.min 3 newTheta) in
        if (Js.abs (clampedTheta - theta) < 0.0001)%js then clampedTheta
        else newton remaining' clampedTheta items
  end.

Section Engine.

(** [itemParameters], imported from [./itemParameterMatrix.js]: an array
    indexed by question index. *)
Variable itemParameters : list ItemParameter.t.

(** The [Map] built at load time: for each configured dichotomy, the
    indices of its items in the order of [Object.entries(itemParameters)]. *)
Definition dichotomyToQuestionMap : gmap string (list nat) :=
  fold_left
    (fun (m : gmap string (list nat)) (entry : nat * ItemParameter.t) =>
       let '(index, params) := entry in
       let dichotomyName := ItemParameter.dichotomy params in
       match get DICHOTOMY_CONFIG dichotomyName with
       | Some _ =>
           let m' := match m !! dichotomyName with
                     | None => <[dichotomyName := []]> m
                     | Some _ => m
                     end in
           <[dichotomyName := default [] (m' !! dichotomyName) ++ [index]]> m'
       | None => m
       end)
    (imap (fun index params => (index, params)) itemParameters) ∅.

(** [options[key].scoreKey], where it can be read: of the own property
    [key], or else of the function (for [__proto__], the object) that
    [options] inherits under that name, which has no [scoreKey]; [None]
    when [options[key]] is [undefined] and the read throws. *)
Definition optionOf (options : gmap string MbtiQuestion.option_entry) (key : string) :
    option (option R) :=
  match options !! key with
  | Some option => Some (MbtiQuestion.scoreKey option)
  | None => if inherited key then Some None else None
  end.

(** The callback of [answeredQuestionIndices.map]. *)
Definition resolveItem (answers : gmap nat Answer) (allQuestions : list MbtiQuestion.t)
    (qIndex : nat) : outcome Item :=
  let params := itemParameters !! qIndex in
  let answer := answers !! (qIndex + 1)%nat in
  match List.find (fun q => Nat.eqb (MbtiQuestion.number q) (qIndex + 1)) allQuestions with
  | None => Throw (TypeError "options")
  | Some questionData =>
      match answer with
      | None => Throw (TypeError "choice")
      | Some answer =>
          match optionOf (MbtiQuestion.options questionData) (to_key (choice answer)) with
          | None => Throw (TypeError "scoreKey")
          | Some userScoreKey =>
              match params with
              | None => Throw (TypeError "params")
              | Some params =>
                  Ok {| a := ItemParameter.a params;
                        b := ItemParameter.b params;
                        u := userScoreKey |}
              end
          end
      end
  end.

Definition answeredQuestionIndices (dichotomyName : string) (answers : gmap nat Answer) : list nat :=
  let allDichotomyIndices := default [] (dichotomyToQuestionMap !! dichotomyName) in
  List.filter (fun qIndex => bool_decide (is_Some (answers !! (qIndex + 1)%nat))) allDichotomyIndices.

Definition findBestThetaForDichotomy (dichotomyName : string) (answers : gmap nat Answer)
    (allQuestions : list MbtiQuestion.t) : outcome Js.number :=
  let answered := answeredQuestionIndices dichotomyName answers in
  if Nat.eqb (length answered) 0 then Ok (0 : Js.number)
  else
    items ← map_outcome (resolveItem answers allQuestions) answered;
    Ok (newton 20 (0 : Js.number) items).

(** The expression computing [pci] from [theta] in step 1. *)
Definition clarityIndex (theta : Js.number) : Js.number :=
  if (theta === 0)%js then 1
  else Js.max 1 (Js.round ((Js.abs theta / 3.0) * 30)%js).

(** Step 1: the body of the loop over [Object.entries(DICHOTOMY_CONFIG)]. *)
Definition coreResult (mbtiAnswers : gmap nat Answer) (allMbtiQuestions : list MbtiQuestion.t)
    (entry : string * DichotomyConfig) : outcome (string * CoreResult) :=
  let '(dichotomy, config) := entry in
  theta ← findBestThetaForDichotomy dichotomy mbtiAnswers allMbtiQuestions;
  let pci := clarityIndex theta in
  Ok (dichotomy, {| pcc := getPccCategory pci; theta := theta; pci := pci |}).

(** Step 2. *)
Definition initialStrengths : gmap string Js.number :=
  list_to_map
    [ ("Ti", (0 : Js.number)); ("Te", (0 : Js.number)); ("Fi", (0 : Js.number));
      ("Fe", (0 : Js.number)); ("Si", (0 : Js.number)); ("Se", (0 : Js.number));
      ("Ni", (0 : Js.number)); ("Ne", (0 : Js.number)) ]%string.

Definition likertWeights : list (string * R) :=
  [ ("1", 2); ("2", 1); ("3", 0); ("4", -1); ("5", -2) ]%string.

(** [obj[key]] read as a number: an absent property is [undefined]. *)
Definition strength (attitudeStrengths : gmap string Js.number) (key : string) : Js.number :=
  match attitudeStrengths !! key with
  | Some x => x
  | None => Js.NaN
  end.

(** [obj[key] += x]. *)
Definition plusAssign (attitudeStrengths : gmap string Js.number) (key : string)
    (x : Js.number) : gmap string Js.number :=
  <[key := (strength attitudeStrengths key + x)%js]> attitudeStrengths.

(** The callback of [allAttitudeQuestions.forEach]. *)
Definition addAnswer (attitudeAnswers : gmap string Answer)
    (attitudeStrengths : gmap string Js.number) (q : AttitudeQuestion.t) : gmap string Js.number :=
  match attitudeAnswers !! AttitudeQuestion.id q with
  | Some answer =>
      if truthy (choice answer) then
        let score := Js.to_number (get likertWeights (to_key (choice answer))) in
        if (score > 0)%js then
          plusAssign attitudeStrengths (AttitudeQuestion.pole (AttitudeQuestion.construct1 q)) score
        else if (score < 0)%js then
          plusAssign attitudeStrengths (AttitudeQuestion.pole (AttitudeQuestion.construct2 q))
            (Js.abs score)
        else attitudeStrengths
      else attitudeStrengths
  | None => attitudeStrengths
  end.

Definition attitudeStrengthsOf (attitudeAnswers : gmap string Answer)
    (allAttitudeQuestions : list AttitudeQuestion.t) : gmap string Js.number :=
  fold_left (addAnswer attitudeAnswers) allAttitudeQuestions initialStrengths.

(** Step 3.  The two revisions differ in the weight given to a dichotomy
    ([IRT_CLARITY_WEIGHT[r.pcc]] or [getIrtClarityWeight(r.pci)]) and in the
    position weights; both are arguments here. *)
Variable clarityWeight : CoreResult -> Js.number.
Variable positionWeight : PositionWeight.

(** The value of [currentScore] at the end of the loop body. *)
Definition scoreOf (eiResult snResult tfResult : CoreResult)
    (attitudeStrengths : gmap string Js.number)
    (type : string) (stack : string * string * string * string) : Js.number :=
  let '(dom', aux', ter', inf') := stack in
  let currentScore : Js.number := 0 in
  let eiMatch := if startsWith type "E" then theta eiResult else (- theta eiResult)%js in
  let snMatch := if includes type "S" then theta snResult else (- theta snResult)%js in
  let tfMatch := if includes type "T" then theta tfResult else (- theta tfResult)%js in
  let currentScore := (currentScore + eiMatch * clarityWeight eiResult)%js in
  let currentScore := (currentScore + snMatch * clarityWeight snResult)%js in
  let currentScore := (currentScore + tfMatch * clarityWeight tfResult)%js in
  let attitudeScore :=
    (strength attitudeStrengths dom' * dom positionWeight
     + strength attitudeStrengths aux' * aux positionWeight
     + strength attitudeStrengths ter' * ter positionWeight
     + strength attitudeStrengths inf' * inf positionWeight)%js in
  (currentScore + attitudeScore * ATTITUDE_SCORE_WEIGHT)%js.

(** The variables the loop over the 16 types updates. *)
Record Best : Type := {
  bestFitType : option string;
  maxScore : Js.number;
  typeScores : gmap string Js.number
}.

Definition initialBest : Best :=
  {| bestFitType := None; maxScore := Js.NegInf; typeScores := ∅ |}.

Definition considerType (eiResult snResult tfResult : CoreResult)
    (attitudeStrengths : gmap string Js.number)
    (best : Best) (entry : string * (string * string * string * string)) : Best :=
  let '(type, stack) := entry in
  let currentScore := scoreOf eiResult snResult tfResult attitudeStrengths type stack in
  let typeScores' := <[type := currentScore]> (typeScores best) in
  if (currentScore > maxScore best)%js then
    {| bestFitType := Some type; maxScore := currentScore; typeScores := typeScores' |}
  else
    {| bestFitType := bestFitType best; maxScore := maxScore best; typeScores := typeScores' |}.

(** Step 4: [TYPE_FUNCTION_STACKS[bestFitType]] is [undefined] when
    [bestFitType] is still [null], and [finalStack[0]] then throws. *)
Definition finalize (best : Best) : outcome Result :=
  match bestFitType best with
  | None => Throw (TypeError "0")
  | Some type =>
      match get TYPE_FUNCTION_STACKS type with
      | None => Throw (TypeError "0")
      | Some (dom', aux', ter', inf') =>
          Ok {| finalType := type;
                dominant := dom'; auxiliary := aux'; tertiary := ter'; inferior := inf';
                score := maxScore best;
                allTypeScores := typeScores best |}
      end
  end.

Definition calculateHybridResultsWith (mbtiAnswers : gmap nat Answer)
    (attitudeAnswers : gmap string Answer) (allMbtiQuestions : list MbtiQuestion.t)
    (allAttitudeQuestions : list AttitudeQuestion.t) : outcome Result :=
  coreResults ← map_outcome (coreResult mbtiAnswers allMbtiQuestions) DICHOTOMY_CONFIG;
  match get coreResults "E-I", get coreResults "S-N", get coreResults "T-F" with
  | Some eiResult, Some snResult, Some tfResult =>
      let attitudeStrengths := attitudeStrengthsOf attitudeAnswers allAttitudeQuestions in
      finalize
        (fold_left (considerType eiResult snResult tfResult attitudeStrengths)
           TYPE_FUNCTION_STACKS initialBest)
  | _, _, _ => Throw (TypeError "theta")
  end.

End Engine.

(** [calculateHybridResults] of [src/scorer.js]. *)
Definition tableWeight (r : CoreResult) : Js.number :=
  Js.to_number (get IRT_CLARITY_WEIGHT (pcc r)).

Definition calculateHybridResults (itemParameters : list ItemParameter.t) :=
  calculateHybridResultsWith itemParameters tableWeight ATTITUDE_STACK_POSITION_WEIGHT.

(** [calculateHybridResults] of the logarithmic-weight revision. *)
Definition logWeight (r : CoreResult) : Js.number :=
  getIrtClarityWeight (pci r).

Definition calculateHybridResults_log (itemParameters : list ItemParameter.t) :=
  calculateHybridResultsWith itemParameters logWeight ATTITUDE_STACK_POSITION_WEIGHT_log.

(** * The specification's side

    The quantities of the specification, written from its words over the
    reals and the integers, with which the statements below compare what
    the engine computes. *)

(** ** Clarity: [pci = 1] at [theta = 0], else [max(1, round(|theta| / 3.0 * 30))];
    categories by the thresholds 26, 16 and 6. *)
Definition round_half_up (x : R) : Z := Zfloor (x + / 2).

Definition pci_spec (t : R) : Z :=
  if Req_dec_T t 0 then 1%Z else Z.max 1 (round_half_up (Rabs t / 3.0 * 30)).

Definition pcc_spec (n : Z) : string :=
  if (26 <=? n)%Z then "Very Clear"
  else if (16 <=? n)%Z then "Clear"
  else if (6 <=? n)%Z then "Moderate"
  else "Slight".

(** ** The estimator

    An answered item is a triple [(a, b, u)] of reals.  [P] is the
    two-parameter logistic curve; the first derivative is [Σ a·(u − P)] and
    the second [Σ −a²·(1−P)·P]; an iteration stops when the second
    derivative is below [1e-9] in magnitude, and otherwise adopts the Newton
    step clamped to [[-3, 3]], stopping when that moved [theta] by less than
    [1e-4]. *)
Definition P_spec (theta a b : R) : R := 1 / (1 + Rtrigo_def.exp (- a * (theta - b))).

Definition sum (xs : list R) : R := fold_right Rplus 0 xs.

Definition first_derivative_spec (theta : R) (items : list (R * R * R)) : R :=
  sum (List.map (fun '(a, b, u) => a * (u - P_spec theta a b)) items).

Definition second_derivative_spec (theta : R) (items : list (R * R * R)) : R :=
  sum (List.map (fun '(a, b, u) => - a ^ 2 * (1 - P_spec theta a b) * P_spec theta a b) items).

Definition clamp_spec (x : R) : R := Rmax (-3) (Rmin 3 x).

Fixpoint theta_spec (iterations : nat) (theta : R) (items : list (R * R * R)) : R :=
  match iterations with
  | O => theta
  | S iterations' =>
      if Rlt_dec (Rabs (second_derivative_spec theta items)) 1e-9 then theta
      else
        let step := first_derivative_spec theta items / second_derivative_spec theta items in
        let theta' := clamp_spec (theta - step) in
        if Rlt_dec (Rabs (theta' - theta)) 1e-4 then theta'
        else theta_spec iterations' theta' items
  end.

(** The item of the engine that a triple stands for, and back; the
    response code does not enter the second derivative, so an item without
    one is given 0 there. *)
Definition item_of (t : R * R * R) : Item :=
  let '(a, b, u) := t in {| a := a; b := b; u := Some u |}.

Definition triple_of (item : Item) : R * R * R := (a item, b item, default 0 (u item)).

(** Every option of every question carries a numeric response code, as
    the data model of the specification has it. *)
Definition scored (allQuestions : list MbtiQuestion.t) : Prop :=
  forall q key (o : MbtiQuestion.option_entry),
    q ∈ allQuestions -> MbtiQuestion.options q !! key = Some o ->
    is_Some (MbtiQuestion.scoreKey o).

(** The response codes are the binary codes of the data model. *)
Definition binary_codes (allQuestions : list MbtiQuestion.t) : Prop :=
  forall q key (o : MbtiQuestion.option_entry),
    q ∈ allQuestions -> MbtiQuestion.options q !! key = Some o ->
    MbtiQuestion.scoreKey o = Some 0 \/ MbtiQuestion.scoreKey o = Some 1.

(** No recorded choice names a property of [Object.prototype]: what
    [options[choice]] reads is an option of the question or [undefined]. *)
Definition own_choices (answers : gmap nat Answer) : Prop :=
  forall n answer, answers !! n = Some answer -> inherited (to_key (choice answer)) = false.

(** Magnitudes far from those at which the arithmetic of the estimator
    overflows ([a * a] does from [1.3e154] on). *)
Definition moderate (x : R) : Prop := -1e100 <= x <= 1e100.

Definition moderate_items (itemParameters : list ItemParameter.t) : Prop :=
  Forall (fun params => moderate (ItemParameter.a params) /\ moderate (ItemParameter.b params))
    itemParameters.

(** What the estimator returns is a real or [NaN], never an infinity. *)
Definition real_or_NaN (x : Js.number) : Prop := x = Js.NaN \/ exists t : R, x = Js.Num t.

(** ** The question map

    The entries of the table that measure a dichotomy, by index, and the
    body of the loop that builds [dichotomyToQuestionMap], named. *)
Definition indicesOf (entries : list (nat * ItemParameter.t)) (d : string) : list nat :=
  (filter (fun e : nat * ItemParameter.t => ItemParameter.dichotomy e.2 = d) entries).*1.

Definition collect (m : gmap string (list nat)) (entry : nat * ItemParameter.t) :
    gmap string (list nat) :=
  let '(index, params) := entry in
  let dichotomyName := ItemParameter.dichotomy params in
  match get DICHOTOMY_CONFIG dichotomyName with
  | Some _ =>
      let m' := match m !! dichotomyName with
                | None => <[dichotomyName := []]> m
                | Some _ => m
                end in
      <[dichotomyName := default [] (m' !! dichotomyName) ++ [index]]> m'
  | None => m
  end.

(** ** The attitude aggregator

    The eight function labels; the weight table 1:+2, 2:+1, 3:0, 4:-1,
    5:-2 on the integer response an answer denotes (anything else weighs
    nothing); what one question adds to the strength of a function; and
    the strength of a function as the sum over the questions. *)
Definition FUNCTIONS : list string :=
  [ "Ti"; "Te"; "Fi"; "Fe"; "Si"; "Se"; "Ni"; "Ne" ]%string.

Definition response (v : value) : option Z :=
  match v with
  | VNum n => Some n
  | VStr s =>
      if String.eqb "1" s then Some 1%Z
      else if String.eqb "2" s then Some 2%Z
      else if String.eqb "3" s then Some 3%Z
      else if String.eqb "4" s then Some 4%Z
      else if String.eqb "5" s then Some 5%Z
      else None
  end.

Definition weight_spec (v : value) : Z :=
  match response v with
  | Some 1%Z => 2
  | Some 2%Z => 1
  | Some 3%Z => 0
  | Some 4%Z => -1
  | Some 5%Z => -2
  | _ => 0
  end.

Definition contribution (attitudeAnswers : gmap string Answer) (q : AttitudeQuestion.t)
    (f : string) : Z :=
  match attitudeAnswers !! AttitudeQuestion.id q with
  | None => 0
  | Some answer =>
      let w := weight_spec (choice answer) in
      if (0 <? w)%Z then
        if String.eqb (AttitudeQuestion.pole (AttitudeQuestion.construct1 q)) f then w else 0
      else if (w <? 0)%Z then
        if String.eqb (AttitudeQuestion.pole (AttitudeQuestion.construct2 q)) f then (- w) else 0
      else 0
  end%Z.

Definition strength_spec (attitudeAnswers : gmap string Answer)
    (allAttitudeQuestions : list AttitudeQuestion.t) (f : string) : Z :=
  fold_right Z.add 0%Z (List.map (fun q => contribution attitudeAnswers q f) allAttitudeQuestions).

(** ** The loop over the sixteen types

    What one iteration does to the loop variables, given the score of the
    type; the entry of [coreResults] made from a value of [theta]; and the
    sixteen types with their scores, in the order of the loop. *)
Definition track (best : Best) (scored_type : string * Js.number) : Best :=
  let '(type, currentScore) := scored_type in
  let typeScores' := <[type := currentScore]> (typeScores best) in
  if (currentScore > maxScore best)%js then
    {| bestFitType := Some type; maxScore := currentScore; typeScores := typeScores' |}
  else
    {| bestFitType := bestFitType best; maxScore := maxScore best; typeScores := typeScores' |}.

Definition coreOf (theta : Js.number) : CoreResult :=
  {| pcc := getPccCategory (clarityIndex theta); theta := theta; pci := clarityIndex theta |}.

Definition scoresFor (clarityWeight : CoreResult -> Js.number) (positionWeight : PositionWeight)
    (attitudeAnswers : gmap string Answer) (allAttitudeQuestions : list AttitudeQuestion.t)
    (ei sn tf : Js.number) : list (string * Js.number) :=
  List.map (fun entry : string * (string * string * string * string) =>
              (entry.1,
               scoreOf clarityWeight positionWeight (coreOf ei) (coreOf sn) (coreOf tf)
                 (attitudeStrengthsOf attitudeAnswers allAttitudeQuestions)
                 entry.1 entry.2))
    TYPE_FUNCTION_STACKS.

(** The loop variables before the first type, and once a type with a real
    score has been seen: the lead has the greatest recorded score. *)
Definition not_started (best : Best) : Prop :=
  bestFitType best = None /\ maxScore best = Js.NegInf /\ typeScores best = ∅.

Definition is_maximum (best : Best) : Prop :=
  exists (t : string) (m : R),
    bestFitType best = Some t
    /\ maxScore best = Js.Num m
    /\ typeScores best !! t = Some (Js.Num m)
    /\ forall t' s, typeScores best !! t' = Some s -> exists x, s = Js.Num x /\ x <= m.

(** The same of a result: its score is the maximum of the recorded scores,
    reached at the final type, and the record has exactly the sixteen
    types. *)
Definition score_is_maximum (r : Result) : Prop :=
  exists m : R,
    score r = Js.Num m
    /\ allTypeScores r !! finalType r = Some (Js.Num m)
    /\ (forall t, is_Some (allTypeScores r !! t) <-> t ∈ TYPE_FUNCTION_STACKS.*1)
    /\ (forall t s, allTypeScores r !! t = Some s -> exists x, s = Js.Num x /\ x <= m).

(** ** Worked inputs

    One E-I item with [a = 1], [b = 0], answered with option A, whose
    response code is 1; the same metadata with the response code of option A
    removed; the same table with a weakly discriminating item; and a Likert
    question between Ti and Ne. *)
Definition example_items : list ItemParameter.t :=
  [ {| ItemParameter.dichotomy := "E-I"; ItemParameter.a := 1; ItemParameter.b := 0 |} ].

Definition example_answers : gmap nat Answer := {[ 1%nat := {| choice := VStr "A" |} ]}.

Definition example_questions : list MbtiQuestion.t :=
  [ {| MbtiQuestion.number := 1;
       MbtiQuestion.options :=
         <[ "A"%string := {| MbtiQuestion.scoreKey := Some 1 |} ]>
           {[ "B"%string := {| MbtiQuestion.scoreKey := Some 0 |} ]} |} ].

Definition unscored_questions : list MbtiQuestion.t :=
  [ {| MbtiQuestion.number := 1;
       MbtiQuestion.options := {[ "A"%string := {| MbtiQuestion.scoreKey := None |} ]} |} ].

Definition faint_items : list ItemParameter.t :=
  [ {| ItemParameter.dichotomy := "E-I"; ItemParameter.a := 1e-5; ItemParameter.b := 0 |} ].

Definition example_attitude_question : AttitudeQuestion.t :=
  {| AttitudeQuestion.id := "att1";
     AttitudeQuestion.construct1 := {| AttitudeQuestion.pole := "Ti" |};
     AttitudeQuestion.construct2 := {| AttitudeQuestion.pole := "Ne" |} |}.

(** An answer set whose choice names a property the options inherit from
    [Object.prototype]. *)
Definition inherited_answers : gmap nat Answer :=
  {[ 1%nat := {| choice := VStr "toString" |} ]}.

(** A table whose only item measures a dichotomy that is not configured. *)
Definition unconfigured_items : list ItemParameter.t :=
  [ {| ItemParameter.dichotomy := "J-P"; ItemParameter.a := 1; ItemParameter.b := 0 |} ].

(** The two lookups of [resolveItem] succeed: there is metadata for the
    question, and [options[choice]] is not [undefined], because the chosen
    option is there or because its name is one the options inherit from
    [Object.prototype]. *)
Definition option_readable (allQuestions : list MbtiQuestion.t) (qIndex : nat)
    (answer : Answer) : Prop :=
  exists questionData,
    List.find (fun q => Nat.eqb (MbtiQuestion.number q) (qIndex + 1)) allQuestions
      = Some questionData
    /\ (is_Some (MbtiQuestion.options questionData !! to_key (choice answer))
        \/ inherited (to_key (choice answer)) = true).

(** The metadata has the option an answer chose. *)
Definition option_present (allQuestions : list MbtiQuestion.t) (qIndex : nat)
    (answer : Answer) : Prop :=
  exists questionData,
    List.find (fun q => Nat.eqb (MbtiQuestion.number q) (qIndex + 1)) allQuestions
      = Some questionData
    /\ is_Some (MbtiQuestion.options questionData !! to_key (choice answer)).

(** ** The winner of the loop

    The result is the first type of the table, in the order of its
    declaration, whose recorded score is the greatest: the types before it
    score strictly less and the types after it at most as much. *)
Definition first_maximum (r : Result) : Prop :=
  exists (pre post : list string) (m : R),
    TYPE_FUNCTION_STACKS.*1 = pre ++ finalType r :: post
    /\ score r = Js.Num m
    /\ (forall t, t ∈ pre -> exists x : R, allTypeScores r !! t = Some (Js.Num x) /\ x < m)
    /\ (forall t, t ∈ post -> exists x : R, allTypeScores r !! t = Some (Js.Num x) /\ x <= m).

(** The three letters a type is scored by in part A of the loop. *)
Definition letters (type : string) : bool * bool * bool :=
  (startsWith type "E", includes type "S", includes type "T").

(** An answer set that chooses an option the metadata does not have. *)
Definition absent_answers : gmap nat Answer := {[ 1%nat := {| choice := VStr "C" |} ]}.

(** The eight types that are the first of the table with their three
    letters; the other eight are their J/P counterparts, declared later. *)
Definition FIRST_WITH_LETTERS : list string :=
  [ "INTP"; "ENTP"; "ISTP"; "ESTP"; "INFJ"; "ENFJ"; "ISFP"; "ESFP" ]%string.

(** * The page: app.js

    [src/app.js] keeps three module variables ([allQuestions],
    [currentQuestionIndex], [userAnswers]) and writes to the document.  Its
    functions are read as programs over a state made of the three variables
    and of the properties of the document they assign; an exception leaves
    the state as it was at the point of the throw, as it does for the
    handler of a DOM event.

    Of the document, what is kept is what the functions assign: which
    screens carry the class [active], which question's markup is in the
    question container, the [disabled] flag and the text of the next button,
    the visibility of the back button, the number in the width of the
    progress bar, the error message and the text of the final type.  The
    markup itself, the [selected] class of the labels and the rationale text
    are display only and left out.

    The document is the page of the application: the elements looked up by
    id at load time exist, and its only [input] elements are the radio
    buttons [renderQuestion] writes into the question container, each inside
    its label.  A [change] event heard on the container therefore comes from
    one of these buttons, and the value it carries is one of [A], [B],
    [1] ... [5]; with such values the selector of [updateSelection] is well
    formed and what it selects, if anything, has a label.

    [userAnswers] is read as the map of its own properties.  The object
    also inherits from [Object.prototype]: under a Likert id such as
    [constructor] the page reads a truthy value where nothing was saved.
    The statements about saved answers are therefore made for Likert ids
    that name no such property ([plain_ids] below); the keys of the
    forced-choice questions are decimal numbers. *)

Module App.

(** The keys of [screens]. *)
Inductive Screen : Type := welcome | quiz | results.

Definition Screen_eqb (x y : Screen) : bool :=
  match x, y with
  | welcome, welcome | quiz, quiz | results, results => true
  | _, _ => false
  end.

(** An element of [allQuestions]: [{...q, type: 'mbti'}] or
    [{...q, type: 'attitude'}], as [init] builds them. *)
Inductive Question : Type :=
| mbti (q : MbtiQuestion.t)
| attitude (q : AttitudeQuestion.t).

(** The [value] attribute of a radio button of the markup: [A] and [B] for a
    forced-choice question, [1] ... [5] for a Likert question. *)
Inductive RadioValue : Type :=
| value_A | value_B
| value_1 | value_2 | value_3 | value_4 | value_5.

Definition value_of (v : RadioValue) : string :=
  match v with
  | value_A => "A" | value_B => "B"
  | value_1 => "1" | value_2 => "2" | value_3 => "3" | value_4 => "4" | value_5 => "5"
  end.

(** [q.type === 'mbti' ? q.number : q.id], as the property key it is used
    for. *)
Definition qId (q : Question) : string :=
  match q with
  | mbti q => pretty (MbtiQuestion.number q)
  | attitude q => AttitudeQuestion.id q
  end.

(** What the page assigns in the document: [classList.contains('active')]
    of each screen, the question whose markup is the [innerHTML] of the
    container, [nextBtn.disabled], [nextBtn.textContent], whether
    [backBtn.style.visibility] is ['visible'], the number in
    [progressBar.style.width], and the [textContent] of the error message
    and of the final type. *)
Record Document : Type := {
  active : Screen -> bool;
  questionContainer : option Question;
  nextDisabled : bool;
  nextText : string;
  backVisible : bool;
  progress : Js.number;
  errorMessage : string;
  finalTypeText : string
}.

Record state : Type := {
  allQuestions : list Question;
  currentQuestionIndex : Z;
  userAnswers : gmap string RadioValue;
  document : Document
}.

(** The state once the module is evaluated, over any document. *)
Definition loaded (d : Document) : state :=
  {| allQuestions := []; currentQuestionIndex := 0; userAnswers := ∅; document := d |}.

(** *** Assignments *)

Definition set_allQuestions (qs : list Question) (s : state) : state :=
  {| allQuestions := qs; currentQuestionIndex := currentQuestionIndex s;
     userAnswers := userAnswers s; document := document s |}.

Definition set_currentQuestionIndex (i : Z) (s : state) : state :=
  {| allQuestions := allQuestions s; currentQuestionIndex := i;
     userAnswers := userAnswers s; document := document s |}.

Definition set_userAnswers (m : gmap string RadioValue) (s : state) : state :=
  {| allQuestions := allQuestions s; currentQuestionIndex := currentQuestionIndex s;
     userAnswers := m; document := document s |}.

Definition set_document (f : Document -> Document) (s : state) : state :=
  {| allQuestions := allQuestions s; currentQuestionIndex := currentQuestionIndex s;
     userAnswers := userAnswers s; document := f (document s) |}.

Definition set_active (f : Screen -> bool) (d : Document) : Document :=
  {| active := f; questionContainer := questionContainer d;
     nextDisabled := nextDisabled d; nextText := nextText d; backVisible := backVisible d;
     progress := progress d; errorMessage := errorMessage d;
     finalTypeText := finalTypeText d |}.

Definition set_questionContainer (q : option Question) (d : Document) : Document :=
  {| active := active d; questionContainer := q;
     nextDisabled := nextDisabled d; nextText := nextText d; backVisible := backVisible d;
     progress := progress d; errorMessage := errorMessage d;
     finalTypeText := finalTypeText d |}.

Definition set_nextDisabled (b : bool) (d : Document) : Document :=
  {| active := active d; questionContainer := questionContainer d;
     nextDisabled := b; nextText := nextText d; backVisible := backVisible d;
     progress := progress d; errorMessage := errorMessage d;
     finalTypeText := finalTypeText d |}.

Definition set_nextText (t : string) (d : Document) : Document :=
  {| active := active d; questionContainer := questionContainer d;
     nextDisabled := nextDisabled d; nextText := t; backVisible := backVisible d;
     progress := progress d; errorMessage := errorMessage d;
     finalTypeText := finalTypeText d |}.

Definition set_backVisible (b : bool) (d : Document) : Document :=
  {| active := active d; questionContainer := questionContainer d;
     nextDisabled := nextDisabled d; nextText := nextText d; backVisible := b;
     progress := progress d; errorMessage := errorMessage d;
     finalTypeText := finalTypeText d |}.

Definition set_progress (p : Js.number) (d : Document) : Document :=
  {| active := active d; questionContainer := questionContainer d;
     nextDisabled := nextDisabled d; nextText := nextText d; backVisible := backVisible d;
     progress := p; errorMessage := errorMessage d;
     finalTypeText := finalTypeText d |}.

Definition set_errorMessage (t : string) (d : Document) : Document :=
  {| active := active d; questionContainer := questionContainer d;
     nextDisabled := nextDisabled d; nextText := nextText d; backVisible := backVisible d;
     progress := progress d; errorMessage := t;
     finalTypeText := finalTypeText d |}.

Definition set_finalTypeText (t : string) (d : Document) : Document :=
  {| active := active d; questionContainer := questionContainer d;
     nextDisabled := nextDisabled d; nextText := nextText d; backVisible := backVisible d;
     progress := progress d; errorMessage := errorMessage d;
     finalTypeText := t |}.

(** *** Programs over the state *)

Definition M (A : Type) : Type := state -> outcome A * state.

Global Instance M_ret : MRet M := fun A x s => (Ok x, s).

Global Instance M_bind : MBind M := fun A B k m s =>
  match m s with
  | (Ok x, s') => k x s'
  | (Throw e, s') => (Throw e, s')
  end.

Definition read : M state := fun s => (Ok s, s).

Definition assign (f : state -> state) : M unit := fun s => (Ok tt, f s).

Definition throw {A : Type} (e : error) : M A := fun s => (Throw e, s).

(** *** Reading the state *)

(** [allQuestions[currentQuestionIndex]]. *)
Definition currentQuestion (s : state) : option Question :=
  if (currentQuestionIndex s <? 0)%Z then None
  else allQuestions s !! Z.to_nat (currentQuestionIndex s).

(** Truthiness of [userAnswers[qId]]: the empty string is falsy. *)
Definition answered (userAnswers : gmap string RadioValue) (q : Question) : bool :=
  match userAnswers !! qId q with
  | Some savedAnswer => negb (String.eqb (value_of savedAnswer) "")
  | None => false
  end.

(** [const q = allQuestions[currentQuestionIndex]] followed by the read of
    [q.type], which throws when [q] is [undefined]. *)
Definition theQuestion : M Question := fun s =>
  match currentQuestion s with
  | Some q => (Ok q, s)
  | None => (Throw (TypeError "type"), s)
  end.

(** *** The functions of the page *)

Definition showScreen (screenName : Screen) : M unit :=
  assign (set_document (set_active (fun screen => Screen_eqb screen screenName))).

Definition updateSelection : M unit :=
  q ← theQuestion;
  assign (fun s => set_document (set_nextDisabled (negb (answered (userAnswers s) q))) s).

Definition updateNavigation : M unit :=
  assign (fun s =>
    set_document
      (fun d =>
         set_nextText
           (if (currentQuestionIndex s =? Z.of_nat (length (allQuestions s)) - 1)%Z
            then "Get My Result" else "Next")
           (set_backVisible (0 <? currentQuestionIndex s)%Z d)) s).

Definition updateProgressBar : M unit :=
  assign (fun s =>
    let progress :=
      ((Js.Num (IZR (currentQuestionIndex s))
        / Js.Num (IZR (Z.of_nat (length (allQuestions s))))) * 100)%js in
    set_document (set_progress progress) s).

(** The markup of a question: what can throw in building it is the read of
    [text] of [q.options.A] or [q.options.B]. *)
Definition markup (q : Question) : M unit :=
  match q with
  | mbti q =>
      match MbtiQuestion.options q !! "A"%string, MbtiQuestion.options q !! "B"%string with
      | Some _, Some _ => mret tt
      | _, _ => throw (TypeError "text")
      end
  | attitude q => mret tt
  end.

Definition renderQuestion : M unit :=
  s ← read;
  if ((currentQuestionIndex s <? 0)
      || (Z.of_nat (length (allQuestions s)) <=? currentQuestionIndex s))%Z
  then mret tt
  else
    q ← theQuestion;
    markup q;;
    assign (set_document (set_questionContainer (Some q)));;
    updateSelection;;
    updateNavigation;;
    updateProgressBar.

(** The callback of [allQuestions.forEach] in [submitQuiz]. *)
Definition gather (userAnswers : gmap string RadioValue)
    (acc : gmap nat Answer * gmap string Answer) (q : Question) :
    gmap nat Answer * gmap string Answer :=
  let '(mbtiAnswers, attitudeAnswers) := acc in
  match q with
  | mbti q =>
      match userAnswers !! pretty (MbtiQuestion.number q) with
      | Some v =>
          if negb (String.eqb (value_of v) "")
          then (<[MbtiQuestion.number q := {| choice := VStr (value_of v) |}]> mbtiAnswers,
                attitudeAnswers)
          else acc
      | None => acc
      end
  | attitude q =>
      match userAnswers !! AttitudeQuestion.id q with
      | Some v =>
          if negb (String.eqb (value_of v) "")
          then (mbtiAnswers,
                <[AttitudeQuestion.id q := {| choice := VStr (value_of v) |}]> attitudeAnswers)
          else acc
      | None => acc
      end
  end.

(** [mbtiAnswers] and [attitudeAnswers] at the end of the [forEach]. *)
Definition submitted (s : state) : gmap nat Answer * gmap string Answer :=
  fold_left (gather (userAnswers s)) (allQuestions s) (∅, ∅).

Definition mbtiQuestionsOf (qs : list Question) : list MbtiQuestion.t :=
  omap (fun q => match q with mbti q => Some q | attitude _ => None end) qs.

Definition attitudeQuestionsOf (qs : list Question) : list AttitudeQuestion.t :=
  omap (fun q => match q with attitude q => Some q | mbti _ => None end) qs.

(** The events [init] listens to. *)
Inductive Event : Type :=
| click_start
| click_next
| click_back
| click_restart
| change (name : string) (value : RadioValue).

Section Page.

(** The item parameter table of the scorer imported from [./scorer.js]. *)
Variable itemParameters : list ItemParameter.t.

(** The call of [calculateHybridResults] in [submitQuiz]. *)
Definition result (s : state) : outcome Result :=
  let '(mbtiAnswers, attitudeAnswers) := submitted s in
  calculateHybridResults itemParameters mbtiAnswers attitudeAnswers
    (mbtiQuestionsOf (allQuestions s)) (attitudeQuestionsOf (allQuestions s)).

Definition submitQuiz : M unit :=
  s ← read;
  match result s with
  | Ok result =>
      assign (set_document (set_finalTypeText (finalType result)));;
      showScreen results
  | Throw e => throw e
  end.

Definition handleNext : M unit :=
  q ← theQuestion;
  s ← read;
  if negb (answered (userAnswers s) q)
  then assign (set_document (set_errorMessage "Please select an option."))
  else
    assign (set_document (set_errorMessage ""));;
    if (currentQuestionIndex s <? Z.of_nat (length (allQuestions s)) - 1)%Z
    then
      assign (set_currentQuestionIndex (currentQuestionIndex s + 1));;
      renderQuestion
    else submitQuiz.

Definition handleBack : M unit :=
  s ← read;
  if (0 <? currentQuestionIndex s)%Z
  then
    assign (set_currentQuestionIndex (currentQuestionIndex s - 1));;
    renderQuestion
  else mret tt.

(** [handleAnswerSelect(e)], with [name = e.target.name] and
    [value = e.target.value]. *)
Definition handleAnswerSelect (name : string) (value : RadioValue) : M unit :=
  if negb (String.eqb name "")
  then
    q ← theQuestion;
    assign (fun s => set_userAnswers (<[qId q := value]> (userAnswers s)) s);;
    updateSelection;;
    assign (set_document (set_errorMessage ""))
  else mret tt.

Definition restartQuiz : M unit :=
  assign (set_currentQuestionIndex 0);;
  assign (set_userAnswers ∅);;
  renderQuestion;;
  showScreen welcome.

(** [init], once [questions.json] is fetched and parsed: the listeners it
    registers are the cases of [handle] below.  (When the fetch fails no
    listener is registered and no event reaches the page.) *)
Definition init (mbtiQuestions : list MbtiQuestion.t)
    (attitudeQuestions : list AttitudeQuestion.t) : M unit :=
  assign (set_allQuestions (List.map mbti mbtiQuestions ++ List.map attitude attitudeQuestions));;
  showScreen welcome.

Definition handle (e : Event) : M unit :=
  match e with
  | click_start => showScreen quiz;; renderQuestion
  | click_next => handleNext
  | click_back => handleBack
  | click_restart => restartQuiz
  | change name value => handleAnswerSelect name value
  end.

(** The state after a sequence of events, each handled to its end or to its
    exception. *)
Definition after (events : list Event) (s : state) : state :=
  fold_left (fun s e => (handle e s).2) events s.

End Page.

End App.

(** ** The page: what its statements speak of *)

(** The markup of a question can be built. *)
Definition has_markup (q : App.Question) : bool :=
  match q with
  | App.mbti q =>
      bool_decide (is_Some (MbtiQuestion.options q !! "A"%string))
      && bool_decide (is_Some (MbtiQuestion.options q !! "B"%string))
  | App.attitude _ => true
  end.

(** The state in which [renderQuestion] leaves the page when it draws [q]. *)
Definition drawn (s : App.state) (q : App.Question) : App.state :=
  let length := Z.of_nat (length (App.allQuestions s)) in
  let index := App.currentQuestionIndex s in
  App.set_document
    (fun d =>
       App.set_progress ((Js.Num (IZR index) / Js.Num (IZR length)) * 100)%js
         (App.set_nextText (if (index =? length - 1)%Z then "Get My Result" else "Next")
            (App.set_backVisible (0 <? index)%Z
               (App.set_nextDisabled (negb (App.answered (App.userAnswers s) q))
                  (App.set_questionContainer (Some q) d))))) s.

(** The state [init] leaves, over a document [d]. *)
Definition opened (mbtiQuestions : list MbtiQuestion.t)
    (attitudeQuestions : list AttitudeQuestion.t) (d : App.Document) : App.state :=
  (App.init mbtiQuestions attitudeQuestions (App.loaded d)).2.

(** The index is inside the question list, or [0] when the list is empty. *)
Definition in_range (s : App.state) : Prop :=
  (0 <= App.currentQuestionIndex s < Z.max 1 (Z.of_nat (length (App.allQuestions s))))%Z.

(** No Likert id names a property [userAnswers] inherits from
    [Object.prototype]: what [userAnswers[q.id]] reads is a saved answer or
    [undefined]. *)
Definition plain_ids (attitudeQuestions : list AttitudeQuestion.t) : Prop :=
  forall q, q ∈ attitudeQuestions -> inherited (AttitudeQuestion.id q) = false.

(** Every forced-choice question has the two options its markup reads. *)
Definition complete_options (mbtiQuestions : list MbtiQuestion.t) : Prop :=
  forall q, q ∈ mbtiQuestions ->
    is_Some (MbtiQuestion.options q !! "A"%string)
    /\ is_Some (MbtiQuestion.options q !! "B"%string).

(** Every question before the current one has a saved answer, and when the
    results screen is shown every question has one. *)
Definition none_skipped (s : App.state) : Prop :=
  (forall (i : nat) q,
     (Z.of_nat i < App.currentQuestionIndex s)%Z ->
     App.allQuestions s !! i = Some q ->
     App.answered (App.userAnswers s) q = true)
  /\ (App.active (App.document s) App.results = true ->
      forall q, q ∈ App.allQuestions s -> App.answered (App.userAnswers s) q = true).

(** A document in which nothing is shown yet, for the worked inputs. *)
Definition blank : App.Document :=
  {| App.active := fun _ => false; App.questionContainer := None;
     App.nextDisabled := false; App.nextText := ""; App.backVisible := false;
     App.progress := Js.Num 0; App.errorMessage := ""; App.finalTypeText := "" |}.

(** The document shows the current question: its markup is in the
    container, the next button is disabled exactly when it has no saved
    answer, the back button is hidden exactly on the first question, the next
    button reads [Get My Result] exactly on the last one, and the progress
    bar is at [index / length * 100] percent. *)
Definition in_sync (s : App.state) : Prop :=
  forall q, App.currentQuestion s = Some q ->
    let index := App.currentQuestionIndex s in
    let length := Z.of_nat (length (App.allQuestions s)) in
    App.questionContainer (App.document s) = Some q
    /\ App.nextDisabled (App.document s) = negb (App.answered (App.userAnswers s) q)
    /\ App.backVisible (App.document s) = (0 <? index)%Z
    /\ App.nextText (App.document s)
       = (if (index =? length - 1)%Z then "Get My Result" else "Next")%string
    /\ App.progress (App.document s) = Js.Num (IZR index / IZR length * 100).

(** The [name] attribute of the radio buttons in the markup of a question:
    [q${q.number}] or [${q.id}]. *)
Definition radio_name (q : App.Question) : string :=
  match q with
  | App.mbti q => "q" +:+ pretty (MbtiQuestion.number q)
  | App.attitude q => AttitudeQuestion.id q
  end.

(** The radio buttons the markup of a question offers: [A] and [B] for a
    forced-choice question, [1] ... [5] for a Likert question. *)
Definition offered (q : App.Question) (v : App.RadioValue) : Prop :=
  match q, v with
  | App.mbti _, (App.value_A | App.value_B) => True
  | App.attitude _,
    (App.value_1 | App.value_2 | App.value_3 | App.value_4 | App.value_5) => True
  | _, _ => False
  end.

(** The saved answer of a question is one of the buttons its markup
    offers. *)
Definition saved_offered (userAnswers : gmap string App.RadioValue) (q : App.Question) : Prop :=
  exists v, userAnswers !! App.qId q = Some v /\ offered q v.

(** A run through the quiz, once started: for each question in turn, a
    choice on one of its radio buttons followed by the next button. *)
Definition run_through (qs : list App.Question) (choices : list App.RadioValue) :
    list App.Event :=
  flat_map (fun '(q, v) => [App.change (radio_name q) v; App.click_next]) (zip qs choices).

(** * Properties *)

(** ** Comparisons of real operands *)

Lemma Rltb_true (x y : R) : x < y -> Js.Rltb x y = true.
Proof. intros H. unfold Js.Rltb. destruct (Rlt_dec x y); [reflexivity | contradiction]. Qed.

Lemma Rltb_false (x y : R) : y <= x -> Js.Rltb x y = false.
Proof. intros H. unfold Js.Rltb. destruct (Rlt_dec x y); [lra | reflexivity]. Qed.

Lemma Reqb_true (x y : R) : x = y -> Js.Reqb x y = true.
Proof. intros H. unfold Js.Reqb. destruct (Req_dec_T x y); [reflexivity | contradiction]. Qed.

Lemma Reqb_false (x y : R) : x <> y -> Js.Reqb x y = false.
Proof. intros H. unfold Js.Reqb. destruct (Req_dec_T x y); [contradiction | reflexivity]. Qed.

Lemma ge_Num (x y : R) : Js.ge (Js.Num x) (Js.Num y) = true <-> y <= x.
Proof.
  unfold Js.ge, Js.le; simpl. unfold Js.Rltb, Js.Reqb.
  destruct (Rlt_dec y x), (Req_dec_T y x); simpl; split; intros; try lra; try reflexivity;
    discriminate.
Qed.

Lemma ge_Num_true (x y : R) : y <= x -> Js.ge (Js.Num x) (Js.Num y) = true.
Proof. apply ge_Num. Qed.

Lemma ge_Num_false (x y : R) : x < y -> Js.ge (Js.Num x) (Js.Num y) = false.
Proof.
  intros H. destruct (Js.ge (Js.Num x) (Js.Num y)) eqn:E; [| reflexivity].
  apply ge_Num in E. lra.
Qed.

Lemma le_Num (x y : R) : Js.le (Js.Num x) (Js.Num y) = true <-> x <= y.
Proof. apply (ge_Num y x). Qed.

Lemma le_Num_false (x y : R) : y < x -> Js.le (Js.Num x) (Js.Num y) = false.
Proof. apply (ge_Num_false y x). Qed.

Lemma log_Num (x : R) : 0 < x -> Js.log (Js.Num x) = Js.Num (ln x).
Proof.
  intros H. unfold Js.log. rewrite Rltb_false by lra.
  rewrite Reqb_false by (intros ?; lra). reflexivity.
Qed.

Lemma div_Num (x y : R) : y <> 0 -> Js.div (Js.Num x) (Js.Num y) = Js.Num (x / y).
Proof. intros H. simpl. rewrite Reqb_false by exact H. reflexivity. Qed.

(** ** Preference clarity index and category *)

Lemma clarityIndex_Num (t : R) : clarityIndex (Js.Num t) = Js.Num (IZR (pci_spec t)).
Proof.
  unfold clarityIndex, pci_spec, round_half_up, Js.eq.
  destruct (Req_dec_T t 0) as [E | E].
  { rewrite Reqb_true by exact E. reflexivity. }
  rewrite Reqb_false by exact E. unfold Js.abs. rewrite div_Num by lra. simpl.
  set (k := Zfloor (Rabs t / 3.0 * 30 + / 2)).
  unfold Js.Rltb. destruct (Rlt_dec 1 (IZR k)) as [L | L].
  - apply lt_IZR in L. f_equal. f_equal. lia.
  - f_equal. f_equal. assert (k <= 1)%Z by (apply le_IZR; lra). lia.
Qed.

Lemma round_half_up_le (x y : R) : x <= y -> (round_half_up x <= round_half_up y)%Z.
Proof. intros H. apply Zfloor_le. lra. Qed.

Lemma round_half_up_IZR (n : Z) : round_half_up (IZR n) = n.
Proof. apply Zfloor_eq. lra. Qed.

Lemma pci_spec_range (t : R) : -3 <= t <= 3 -> (1 <= pci_spec t <= 30)%Z.
Proof.
  intros H. unfold pci_spec. destruct (Req_dec_T t 0); [lia |].
  split; [lia |].
  apply Z.max_lub; [lia |].
  assert (Rabs t <= 3) as Habs by (apply Rabs_le; lra).
  assert (round_half_up (Rabs t / 3.0 * 30) <= round_half_up (IZR 30))%Z as Hle
    by (apply round_half_up_le; lra).
  rewrite round_half_up_IZR in Hle. exact Hle.
Qed.

Lemma pci_spec_monotone (t1 t2 : R) : Rabs t1 <= Rabs t2 -> (pci_spec t1 <= pci_spec t2)%Z.
Proof.
  intros H. unfold pci_spec.
  destruct (Req_dec_T t1 0), (Req_dec_T t2 0); try lia.
  - subst t2. rewrite Rabs_R0 in H. pose proof (Rabs_pos_lt t1 n). lra.
  - apply Z.max_le_compat_l. apply round_half_up_le. lra.
Qed.

Lemma getPccCategory_IZR (n : Z) : getPccCategory (Js.Num (IZR n)) = pcc_spec n.
Proof.
  unfold getPccCategory, pcc_spec.
  destruct (Z.leb_spec 26 n) as [H26 | H26].
  { rewrite ge_Num_true by (apply IZR_le; exact H26). reflexivity. }
  rewrite ge_Num_false by (apply IZR_lt; exact H26).
  destruct (Z.leb_spec 16 n) as [H16 | H16].
  { rewrite ge_Num_true by (apply IZR_le; exact H16). reflexivity. }
  rewrite ge_Num_false by (apply IZR_lt; exact H16).
  destruct (Z.leb_spec 6 n) as [H6 | H6].
  { rewrite ge_Num_true by (apply IZR_le; exact H6). reflexivity. }
  rewrite ge_Num_false by (apply IZR_lt; exact H6). reflexivity.
Qed.

(** C5.  The preference clarity index is 1 at [theta = 0] and
    [max(1, round(|theta| / 3.0 * 30))] elsewhere, hence an integer of
    [1..30] for [theta] in [-3, 3], and it does not decrease when [|theta|]
    grows; the category is decided by the thresholds 26, 16 and 6, with the
    six boundary values 5, 6, 15, 16, 25 and 26 falling as listed. *)
Theorem C5_clarity_index_and_category :
  clarityIndex (Js.Num 0) = Js.Num 1
  /\ (forall t : R, t <> 0 ->
        clarityIndex (Js.Num t)
        = Js.Num (IZR (Z.max 1 (round_half_up (Rabs t / 3.0 * 30)))))
  /\ (forall t : R, clarityIndex (Js.Num t) = Js.Num (IZR (pci_spec t)))
  /\ (forall t : R, -3 <= t <= 3 -> (1 <= pci_spec t <= 30)%Z)
  /\ (forall t1 t2 : R, Rabs t1 <= Rabs t2 -> (pci_spec t1 <= pci_spec t2)%Z)
  /\ (forall n : Z,
        getPccCategory (Js.Num (IZR n))
        = if (26 <=? n)%Z then "Very Clear"
          else if (16 <=? n)%Z then "Clear"
          else if (6 <=? n)%Z then "Moderate"
          else "Slight")
  /\ getPccCategory (Js.Num 5) = "Slight"
  /\ getPccCategory (Js.Num 6) = "Moderate"
  /\ getPccCategory (Js.Num 15) = "Moderate"
  /\ getPccCategory (Js.Num 16) = "Clear"
  /\ getPccCategory (Js.Num 25) = "Clear"
  /\ getPccCategory (Js.Num 26) = "Very Clear".
Proof.
  split; [| split; [| split; [| split; [| split; [| split]]]]].
  - rewrite clarityIndex_Num. unfold pci_spec.
    destruct (Req_dec_T 0 0); [reflexivity | contradiction].
  - intros t Ht. rewrite clarityIndex_Num. unfold pci_spec.
    destruct (Req_dec_T t 0); [contradiction | reflexivity].
  - apply clarityIndex_Num.
  - apply pci_spec_range.
  - apply pci_spec_monotone.
  - apply getPccCategory_IZR.
  - repeat split.
    + apply (getPccCategory_IZR 5).
    + apply (getPccCategory_IZR 6).
    + apply (getPccCategory_IZR 15).
    + apply (getPccCategory_IZR 16).
    + apply (getPccCategory_IZR 25).
    + apply (getPccCategory_IZR 26).
Qed.

Lemma C5_clarity_index_and_category_witness :
  clarityIndex (Js.Num 3) = Js.Num 30
  /\ (1 <= pci_spec 3 <= 30)%Z
  /\ (pci_spec 0 <= pci_spec 3)%Z.
Proof.
  destruct C5_clarity_index_and_category as (_ & Hval & _ & Hrange & Hmono & _).
  split; [| split].
  - rewrite (Hval 3) by lra. do 2 f_equal.
    replace (Rabs 3 / 3.0 * 30) with (IZR 30) by (rewrite Rabs_pos_eq by lra; lra).
    rewrite round_half_up_IZR. reflexivity.
  - apply Hrange. lra.
  - apply Hmono. rewrite Rabs_R0. apply Rabs_pos.
Defined.

(** ** Clarity weight *)

Lemma get_weight_of_category (n : Z) :
  get IRT_CLARITY_WEIGHT (getPccCategory (Js.Num (IZR n)))
  = Some (if (26 <=? n)%Z then 8.0
          else if (16 <=? n)%Z then 6.0
          else if (6 <=? n)%Z then 4.0
          else 2.0).
Proof.
  rewrite getPccCategory_IZR. unfold pcc_spec.
  destruct (26 <=? n)%Z; [reflexivity |].
  destruct (16 <=? n)%Z; [reflexivity |].
  destruct (6 <=? n)%Z; reflexivity.
Qed.

Lemma getIrtClarityWeight_pos (p : R) :
  0 < p -> getIrtClarityWeight (Js.Num p) = Js.Num (2.15 * ln p + 1).
Proof.
  intros Hp. unfold getIrtClarityWeight.
  rewrite le_Num_false by exact Hp. rewrite log_Num by exact Hp. reflexivity.
Qed.

Lemma getIrtClarityWeight_guard (p : R) :
  p <= 0 -> getIrtClarityWeight (Js.Num p) = Js.Num 1.
Proof.
  intros Hp. unfold getIrtClarityWeight.
  assert (Js.le (Js.Num p) (Js.Num 0) = true) as -> by (apply le_Num; exact Hp).
  reflexivity.
Qed.

Lemma ln_le_mono (x y : R) : 0 < x -> x <= y -> ln x <= ln y.
Proof.
  intros Hx [Hlt | ->]; [| lra].
  left. apply ln_increasing; assumption.
Qed.

(** C9.  Both clarity weights are monotone in the index.  The table gives
    Slight 2.0, Moderate 4.0, Clear 6.0 and Very Clear 8.0;
    [getIrtClarityWeight] is 1 for [pci <= 0] and [2.15 * ln pci + 1] above;
    and for integers [p1 <= p2] of [1..30] the weight of [p1] is at most the
    weight of [p2], both for the table weight of the category of the index
    and for [getIrtClarityWeight]. *)
Theorem C9_clarity_weight_monotone :
  (get IRT_CLARITY_WEIGHT "Slight" = Some 2.0
   /\ get IRT_CLARITY_WEIGHT "Moderate" = Some 4.0
   /\ get IRT_CLARITY_WEIGHT "Clear" = Some 6.0
   /\ get IRT_CLARITY_WEIGHT "Very Clear" = Some 8.0)
  /\ (forall p : R, p <= 0 -> getIrtClarityWeight (Js.Num p) = Js.Num 1)
  /\ (forall p : R, 0 < p -> getIrtClarityWeight (Js.Num p) = Js.Num (2.15 * ln p + 1))
  /\ (forall (p1 p2 : Z) (th1 th2 : Js.number),
        (1 <= p1)%Z -> (p1 <= p2)%Z -> (p2 <= 30)%Z ->
        exists w1 w2 v1 v2 : R,
          tableWeight {| pcc := getPccCategory (Js.Num (IZR p1)); theta := th1;
                         pci := Js.Num (IZR p1) |} = Js.Num w1
          /\ tableWeight {| pcc := getPccCategory (Js.Num (IZR p2)); theta := th2;
                            pci := Js.Num (IZR p2) |} = Js.Num w2
          /\ w1 <= w2
          /\ logWeight {| pcc := getPccCategory (Js.Num (IZR p1)); theta := th1;
                          pci := Js.Num (IZR p1) |} = Js.Num v1
          /\ logWeight {| pcc := getPccCategory (Js.Num (IZR p2)); theta := th2;
                          pci := Js.Num (IZR p2) |} = Js.Num v2
          /\ v1 <= v2).
Proof.
  split; [repeat split; reflexivity |].
  split; [apply getIrtClarityWeight_guard |].
  split; [apply getIrtClarityWeight_pos |].
  intros p1 p2 th1 th2 H1 H12 H2.
  assert (0 < IZR p1) as Hp1 by (apply (IZR_lt 0); lia).
  assert (IZR p1 <= IZR p2) as Hle by (apply IZR_le; exact H12).
  eexists _, _, _, _.
  unfold tableWeight, logWeight; simpl pcc; simpl pci.
  rewrite !get_weight_of_category.
  rewrite !getIrtClarityWeight_pos by lra.
  repeat split.
  - destruct (Z.leb_spec 26 p1), (Z.leb_spec 26 p2),
      (Z.leb_spec 16 p1), (Z.leb_spec 16 p2),
      (Z.leb_spec 6 p1), (Z.leb_spec 6 p2); try lia; lra.
  - pose proof (ln_le_mono (IZR p1) (IZR p2) Hp1 Hle). lra.
Qed.

Lemma C9_clarity_weight_monotone_witness :
  exists w1 w2 v1 v2 : R,
    tableWeight {| pcc := getPccCategory (Js.Num (IZR 5)); theta := Js.Num 0;
                   pci := Js.Num (IZR 5) |} = Js.Num w1
    /\ tableWeight {| pcc := getPccCategory (Js.Num (IZR 26)); theta := Js.Num 0;
                      pci := Js.Num (IZR 26) |} = Js.Num w2
    /\ w1 <= w2
    /\ logWeight {| pcc := getPccCategory (Js.Num (IZR 5)); theta := Js.Num 0;
                    pci := Js.Num (IZR 5) |} = Js.Num v1
    /\ logWeight {| pcc := getPccCategory (Js.Num (IZR 26)); theta := Js.Num 0;
                    pci := Js.Num (IZR 26) |} = Js.Num v2
    /\ v1 <= v2.
Proof.
  apply (proj2 (proj2 (proj2 C9_clarity_weight_monotone)) 5%Z 26%Z); lia.
Defined.

(** ** The estimator *)

(** *** Arithmetic of real operands *)

Lemma probability_Num (t a b : R) :
  probability (Js.Num t) (Js.Num a) (Js.Num b)
  = Js.Num (1 / (1 + Rtrigo_def.exp (- a * (t - b)))).
Proof.
  unfold probability. simpl Js.exp.
  change (Js.add (Js.Num 1) (Js.Num ?e)) with (Js.Num (1 + e)).
  rewrite div_Num; [reflexivity |].
  pose proof (exp_pos (- a * (t + - b))). lra.
Qed.

Lemma sub_Num (x y : R) : Js.sub (Js.Num x) (Js.Num y) = Js.Num (x - y).
Proof. reflexivity. Qed.

Lemma lt_Num (x y : R) : Js.lt (Js.Num x) (Js.Num y) = Js.Rltb x y.
Proof. reflexivity. Qed.

Lemma max_Num (x y : R) : Js.max (Js.Num x) (Js.Num y) = Js.Num (Rmax x y).
Proof.
  unfold Js.max, Rmax. rewrite lt_Num. unfold Js.Rltb.
  destruct (Rlt_dec x y), (Rle_dec x y); try reflexivity; f_equal; lra.
Qed.

Lemma min_Num (x y : R) : Js.min (Js.Num x) (Js.Num y) = Js.Num (Rmin x y).
Proof.
  unfold Js.min, Rmin. rewrite lt_Num. unfold Js.Rltb.
  destruct (Rlt_dec y x), (Rle_dec x y); try reflexivity; f_equal; lra.
Qed.

Lemma derivatives_from (theta f0 s0 : R) (items : list (R * R * R)) :
  fold_left
    (fun (acc : Js.number * Js.number) (item : Item) =>
       let '(firstDerivative, secondDerivative) := acc in
       let P := probability (Js.Num theta) (a item) (b item) in
       ((firstDerivative + a item * (Js.to_number (u item) - P))%js,
        (secondDerivative + - (a item) * a item * (1 - P) * P)%js))
    (List.map item_of items) (Js.Num f0, Js.Num s0)
  = (Js.Num (f0 + first_derivative_spec theta items),
     Js.Num (s0 + second_derivative_spec theta items)).
Proof.
  revert f0 s0. induction items as [| [[a0 b0] u0] items IH]; intros f0 s0.
  - simpl. unfold first_derivative_spec, second_derivative_spec. simpl.
    rewrite !Rplus_0_r. reflexivity.
  - cbn [List.map fold_left item_of a b u Js.to_number].
    rewrite probability_Num. cbn [Js.add Js.sub Js.mul Js.neg].
    rewrite IH. unfold first_derivative_spec, second_derivative_spec, P_spec.
    cbn [List.map]. unfold sum. cbn [fold_right].
    apply pair_equal_spec; split; apply (f_equal Js.Num); ring.
Qed.

Lemma derivatives_Num (theta : R) (items : list (R * R * R)) :
  derivatives (Js.Num theta) (List.map item_of items)
  = (Js.Num (first_derivative_spec theta items),
     Js.Num (second_derivative_spec theta items)).
Proof.
  unfold derivatives. rewrite derivatives_from.
  apply pair_equal_spec; split; apply (f_equal Js.Num); ring.
Qed.

Lemma clamp_Num (x : R) :
  Js.max (Js.Num (-3)) (Js.min (Js.Num 3) (Js.Num x)) = Js.Num (clamp_spec x).
Proof. rewrite min_Num, max_Num. reflexivity. Qed.

Lemma clamp_spec_range (x : R) : -3 <= clamp_spec x <= 3.
Proof.
  unfold clamp_spec, Rmax, Rmin.
  destruct (Rle_dec 3 x); destruct (Rle_dec (-3) _); lra.
Qed.

(** On items whose response codes are numbers the loop of the source
    computes the iteration of the specification. *)
Lemma newton_Num (n : nat) (theta : R) (items : list (R * R * R)) :
  newton n (Js.Num theta) (List.map item_of items) = Js.Num (theta_spec n theta items).
Proof.
  revert theta. induction n as [| n IH]; intros theta; [reflexivity |].
  cbn [newton theta_spec]. rewrite derivatives_Num.
  cbn [Js.abs]. rewrite lt_Num. unfold Js.Rltb at 1.
  destruct (Rlt_dec (Rabs (second_derivative_spec theta items)) 1e-9) as [Hflat | Hflat];
    [reflexivity |].
  rewrite div_Num.
  2:{ intros Hz. apply Hflat. rewrite Hz, Rabs_R0. lra. }
  rewrite sub_Num, clamp_Num, sub_Num. cbn [Js.abs]. rewrite lt_Num.
  set (theta' := clamp_spec _).
  unfold Js.Rltb.
  destruct (Rlt_dec (Rabs (theta' - theta)) 0.0001) as [Hconv | Hconv].
  - destruct (Rlt_dec (Rabs (theta' - theta)) 1e-4); [reflexivity | lra].
  - destruct (Rlt_dec (Rabs (theta' - theta)) 1e-4); [lra | apply IH].
Qed.

Lemma theta_spec_range (n : nat) (theta : R) (items : list (R * R * R)) :
  -3 <= theta <= 3 -> -3 <= theta_spec n theta items <= 3.
Proof.
  revert theta. induction n as [| n IH]; intros theta Hrange; [exact Hrange |].
  cbn [theta_spec].
  destruct (Rlt_dec _ _); [exact Hrange |].
  destruct (Rlt_dec _ _); [apply clamp_spec_range |].
  apply IH. apply clamp_spec_range.
Qed.

(** *** Which questions the estimator sees *)

Lemma collect_lookup (m : gmap string (list nat)) (entry : nat * ItemParameter.t) (d : string) :
  default [] (collect m entry !! d)
  = match get DICHOTOMY_CONFIG d with
    | Some _ => default [] (m !! d) ++ indicesOf [entry] d
    | None => default [] (m !! d)
    end.
Proof.
  destruct entry as [index params]. unfold collect, indicesOf.
  rewrite filter_cons, filter_nil. cbn [snd].
  destruct (decide (ItemParameter.dichotomy params = d)) as [-> | Hne].
  - destruct (get DICHOTOMY_CONFIG d); [| reflexivity].
    rewrite lookup_insert_eq. cbn [default fmap list_fmap fst].
    destruct (m !! d) eqn:E; [rewrite E | rewrite lookup_insert_eq]; reflexivity.
  - cbn [fmap list_fmap]. rewrite app_nil_r.
    destruct (get DICHOTOMY_CONFIG (ItemParameter.dichotomy params)).
    + rewrite lookup_insert_ne by exact Hne.
      destruct (m !! ItemParameter.dichotomy params);
        [| rewrite lookup_insert_ne by exact Hne];
        destruct (get DICHOTOMY_CONFIG d); reflexivity.
    + destruct (get DICHOTOMY_CONFIG d); reflexivity.
Qed.

Lemma collect_all_lookup (entries : list (nat * ItemParameter.t)) (d : string) :
  default [] (fold_left collect entries ∅ !! d)
  = match get DICHOTOMY_CONFIG d with
    | Some _ => indicesOf entries d
    | None => []
    end.
Proof.
  induction entries as [| entry entries IH] using rev_ind.
  - cbn [fold_left]. rewrite lookup_empty. destruct (get DICHOTOMY_CONFIG d); reflexivity.
  - rewrite fold_left_app. cbn [fold_left]. rewrite collect_lookup, IH.
    destruct (get DICHOTOMY_CONFIG d); [| reflexivity].
    unfold indicesOf. rewrite filter_app, fmap_app. reflexivity.
Qed.

Lemma dichotomyToQuestionMap_lookup (itemParameters : list ItemParameter.t) (d : string) :
  default [] (dichotomyToQuestionMap itemParameters !! d)
  = match get DICHOTOMY_CONFIG d with
    | Some _ => indicesOf (imap (fun index params => (index, params)) itemParameters) d
    | None => []
    end.
Proof. apply collect_all_lookup. Qed.

Lemma indicesOf_imap_elem (itemParameters : list ItemParameter.t) (d : string) (i : nat) :
  i ∈ indicesOf (imap (fun index params => (index, params)) itemParameters) d
  <-> exists params, itemParameters !! i = Some params /\ ItemParameter.dichotomy params = d.
Proof.
  unfold indicesOf. rewrite list_elem_of_fmap. split.
  - intros ([j params] & -> & Hin). apply list_elem_of_filter in Hin as [Hd Hin].
    apply elem_of_lookup_imap in Hin as (k & params' & Heq & Hk).
    injection Heq as -> ->. exists params'. split; assumption.
  - intros (params & Hi & Hd). exists (i, params). split; [reflexivity |].
    apply list_elem_of_filter. split; [exact Hd |].
    apply elem_of_lookup_imap. exists i, params. split; [reflexivity | exact Hi].
Qed.

Lemma answered_elem (itemParameters : list ItemParameter.t) (d : string)
    (answers : gmap nat Answer) (i : nat) :
  i ∈ answeredQuestionIndices itemParameters d answers
  <-> is_Some (get DICHOTOMY_CONFIG d)
      /\ (exists params, itemParameters !! i = Some params /\ ItemParameter.dichotomy params = d)
      /\ is_Some (answers !! (i + 1)%nat).
Proof.
  unfold answeredQuestionIndices. rewrite dichotomyToQuestionMap_lookup.
  rewrite list_elem_of_In, filter_In, <- list_elem_of_In, bool_decide_eq_true.
  destruct (get DICHOTOMY_CONFIG d) eqn:E.
  - rewrite indicesOf_imap_elem. split.
    + intros [H1 H2]. split; [eexists; reflexivity | split; assumption].
    + intros (_ & H1 & H2). split; assumption.
  - split.
    + intros [H _]. inversion H.
    + intros ([? H] & _). discriminate H.
Qed.

(** No configured item of the dichotomy has an answer: nothing is selected. *)
Lemma answered_nil (itemParameters : list ItemParameter.t) (d : string)
    (answers : gmap nat Answer) :
  (forall i params,
      itemParameters !! i = Some params -> ItemParameter.dichotomy params = d ->
      answers !! (i + 1)%nat = None) ->
  answeredQuestionIndices itemParameters d answers = [].
Proof.
  intros Hnone.
  destruct (answeredQuestionIndices itemParameters d answers) as [| i rest] eqn:E;
    [reflexivity | exfalso].
  assert (i ∈ answeredQuestionIndices itemParameters d answers) as Hin
    by (rewrite E; apply list_elem_of_here).
  apply answered_elem in Hin as (_ & (params & Hp & Hd) & [ans Hans]).
  rewrite (Hnone i params Hp Hd) in Hans. discriminate Hans.
Qed.

(** *** Resolving the answered items *)

Lemma Ok_inj {A : Type} (x y : A) : Ok x = Ok y -> x = y.
Proof. intros [= H]. exact H. Qed.

Lemma map_outcome_Ok {A B : Type} (f : A -> outcome B) (xs : list A) (ys : list B) :
  map_outcome f xs = Ok ys <-> Forall2 (fun x y => f x = Ok y) xs ys.
Proof.
  revert ys. induction xs as [| x xs IH]; intros ys; cbn [map_outcome].
  - split.
    + intros [= <-]. constructor.
    + intros H. inversion H. reflexivity.
  - unfold mbind, outcome_bind. destruct (f x) as [y | e] eqn:Ef.
    + destruct (map_outcome f xs) as [ys' | e] eqn:Em.
      * split.
        -- intros [= <-]. constructor; [exact Ef | apply IH; reflexivity].
        -- intros H. inversion H as [| ? y0 ? ys0 Hy Hys]; subst.
           apply IH in Hys. congruence.
      * split; [intros H; discriminate H |].
        intros H. inversion H as [| ? y0 ? ys0 Hy Hys]; subst.
        apply IH in Hys. discriminate Hys.
    + split; [intros H; discriminate H |].
      intros H. inversion H as [| ? y0 ? ys0 Hy Hys]; subst. congruence.
Qed.

Lemma map_outcome_Throw {A B : Type} (f : A -> outcome B) (xs : list A) (x : A) (e : error) :
  x ∈ xs -> f x = Throw e -> exists e', map_outcome f xs = Throw e'.
Proof.
  intros Hin Hx. induction Hin as [x xs | x x' xs Hin IH]; cbn [map_outcome];
    unfold mbind, outcome_bind.
  - rewrite Hx. eexists; reflexivity.
  - destruct (f x') as [y | e0]; [| eexists; reflexivity].
    destruct (IH Hx) as [e' ->]. eexists; reflexivity.
Qed.

Lemma resolveItem_Ok (itemParameters : list ItemParameter.t) (answers : gmap nat Answer)
    (allQuestions : list MbtiQuestion.t) (qIndex : nat) (item : Item) :
  resolveItem itemParameters answers allQuestions qIndex = Ok item ->
  exists q answer code params,
    q ∈ allQuestions
    /\ MbtiQuestion.number q = (qIndex + 1)%nat
    /\ answers !! (qIndex + 1)%nat = Some answer
    /\ optionOf (MbtiQuestion.options q) (to_key (choice answer)) = Some code
    /\ itemParameters !! qIndex = Some params
    /\ item = {| a := ItemParameter.a params; b := ItemParameter.b params; u := code |}.
Proof.
  unfold resolveItem.
  destruct (List.find _ allQuestions) as [q |] eqn:Efind; [| discriminate].
  destruct (answers !! (qIndex + 1)%nat) as [answer |] eqn:Eans; [| discriminate].
  destruct (optionOf (MbtiQuestion.options q) (to_key (choice answer))) as [code |] eqn:Eopt;
    [| discriminate].
  destruct (itemParameters !! qIndex) as [params |] eqn:Epar; [| discriminate].
  intros [= <-]. apply find_some in Efind as [Hin Hnum].
  exists q, answer, code, params. repeat split; try assumption.
  - apply list_elem_of_In. exact Hin.
  - apply Nat.eqb_eq. exact Hnum.
Qed.

(** The lookup of an own option, and of a key that is no inherited name. *)
Lemma optionOf_own (options : gmap string MbtiQuestion.option_entry) (key : string)
    (o : MbtiQuestion.option_entry) :
  options !! key = Some o -> optionOf options key = Some (MbtiQuestion.scoreKey o).
Proof. intros H. unfold optionOf. rewrite H. reflexivity. Qed.

Lemma optionOf_plain (options : gmap string MbtiQuestion.option_entry) (key : string) :
  inherited key = false ->
  optionOf options key = MbtiQuestion.scoreKey <$> options !! key.
Proof.
  intros H. unfold optionOf. rewrite H. destruct (options !! key); reflexivity.
Qed.

Lemma numeric_items (items : list Item) :
  Forall (fun item => is_Some (u item)) items ->
  exists triples, items = List.map item_of triples.
Proof.
  induction 1 as [| [a0 b0 u0] items [x Hx] _ [triples ->]].
  - exists []. reflexivity.
  - cbn in Hx. subst u0. exists ((a0, b0, x) :: triples). reflexivity.
Qed.

Lemma resolved_numeric (itemParameters : list ItemParameter.t) (answers : gmap nat Answer)
    (allQuestions : list MbtiQuestion.t) (indices : list nat) (items : list Item) :
  scored allQuestions ->
  own_choices answers ->
  map_outcome (resolveItem itemParameters answers allQuestions) indices = Ok items ->
  exists triples, items = List.map item_of triples.
Proof.
  intros Hscored Hown Hmap. apply numeric_items.
  apply map_outcome_Ok in Hmap.
  induction Hmap as [| i item indices items Hi _ IH]; constructor; [| exact IH].
  apply resolveItem_Ok in Hi as (q & answer & code & params & Hq & _ & Ha & Ho & _ & ->).
  cbn [u]. rewrite optionOf_plain in Ho by exact (Hown _ _ Ha).
  destruct (MbtiQuestion.options q !! to_key (choice answer)) as [o |] eqn:Eo;
    [| discriminate Ho].
  injection Ho as <-. exact (Hscored q _ o Hq Eo).
Qed.

(** What [findBestThetaForDichotomy] returns once the answered items have
    been resolved. *)
Lemma findBestTheta_resolved (itemParameters : list ItemParameter.t) (d : string)
    (answers : gmap nat Answer) (allQuestions : list MbtiQuestion.t) (items : list Item) :
  answeredQuestionIndices itemParameters d answers <> [] ->
  map_outcome (resolveItem itemParameters answers allQuestions)
    (answeredQuestionIndices itemParameters d answers) = Ok items ->
  findBestThetaForDichotomy itemParameters d answers allQuestions
  = Ok (newton 20 (Js.Num 0) items).
Proof.
  intros Hne Hmap. unfold findBestThetaForDichotomy.
  destruct (answeredQuestionIndices itemParameters d answers) as [| i rest] eqn:E;
    [contradiction |].
  cbn [length Nat.eqb]. rewrite Hmap. reflexivity.
Qed.

Lemma findBestTheta_unanswered (itemParameters : list ItemParameter.t) (d : string)
    (answers : gmap nat Answer) (allQuestions : list MbtiQuestion.t) :
  answeredQuestionIndices itemParameters d answers = [] ->
  findBestThetaForDichotomy itemParameters d answers allQuestions = Ok (Js.Num 0).
Proof. intros E. unfold findBestThetaForDichotomy. rewrite E. reflexivity. Qed.

(** C2.  For a dichotomy with at least one answered question, whose answered
    items resolve to the triples [(a, b, u)], the estimator returns the value
    of the procedure of the specification: twenty iterations at most from
    [theta = 0], each one accumulating [Σ a·(u − P)] and [Σ −a²·(1−P)·P],
    stopping when the latter is below [1e-9] in magnitude, and otherwise
    adopting the Newton step clamped to [[-3, 3]] and stopping when that
    differs from the previous [theta] by less than [1e-4]. *)
Theorem C2_newton_procedure (itemParameters : list ItemParameter.t) (d : string)
    (answers : gmap nat Answer) (allQuestions : list MbtiQuestion.t)
    (triples : list (R * R * R)) :
  answeredQuestionIndices itemParameters d answers <> [] ->
  map_outcome (resolveItem itemParameters answers allQuestions)
    (answeredQuestionIndices itemParameters d answers) = Ok (List.map item_of triples) ->
  findBestThetaForDichotomy itemParameters d answers allQuestions
  = Ok (Js.Num (theta_spec 20 0 triples)).
Proof.
  intros Hne Hmap.
  rewrite (findBestTheta_resolved _ _ _ _ _ Hne Hmap), newton_Num. reflexivity.
Qed.

Lemma binary_scored (allQuestions : list MbtiQuestion.t) :
  binary_codes allQuestions -> scored allQuestions.
Proof.
  intros H q key o Hq Ho. destruct (H q key o Hq Ho) as [-> | ->]; eexists; reflexivity.
Qed.

(** What the estimator returns when every answered item resolves to a
    number. *)
Lemma findBestTheta_in_range (itemParameters : list ItemParameter.t) (d : string)
    (answers : gmap nat Answer) (allQuestions : list MbtiQuestion.t) (theta : Js.number) :
  scored allQuestions ->
  own_choices answers ->
  findBestThetaForDichotomy itemParameters d answers allQuestions = Ok theta ->
  exists t : R, theta = Js.Num t /\ -3 <= t <= 3.
Proof.
  intros Hscored Hown Hret.
  destruct (answeredQuestionIndices itemParameters d answers) as [| i rest] eqn:E.
  - rewrite findBestTheta_unanswered in Hret by exact E.
    injection Hret as <-. exists 0. split; [reflexivity | lra].
  - unfold findBestThetaForDichotomy in Hret. rewrite E in Hret.
    cbn [length Nat.eqb] in Hret. unfold mbind, outcome_bind in Hret.
    destruct (map_outcome _ (i :: rest)) as [items | e] eqn:Hmap; [| discriminate].
    apply Ok_inj in Hret. subst theta.
    destruct (resolved_numeric _ _ _ _ _ Hscored Hown Hmap) as [triples ->].
    rewrite newton_Num. eexists. split; [reflexivity |].
    apply theta_spec_range. lra.
Qed.

(** C4, as the code has it.  The value the estimator returns lies in
    [[-3, 3]] when the response codes of the question metadata are the
    binary codes 0 and 1, no recorded choice names a property the options
    inherit from [Object.prototype], and the item parameters are of
    moderate magnitude.  (Without a numeric response code the estimate can
    be [NaN]; beyond these magnitudes the arithmetic of the code
    overflows.) *)
Theorem C4_theta_in_range (itemParameters : list ItemParameter.t) (d : string)
    (answers : gmap nat Answer) (allQuestions : list MbtiQuestion.t) (theta : Js.number) :
  binary_codes allQuestions ->
  own_choices answers ->
  moderate_items itemParameters ->
  findBestThetaForDichotomy itemParameters d answers allQuestions = Ok theta ->
  exists t : R, theta = Js.Num t /\ -3 <= t <= 3.
Proof.
  intros Hbinary Hown _ Hret.
  exact (findBestTheta_in_range _ _ _ _ _ (binary_scored _ Hbinary) Hown Hret).
Qed.

(** ** The attitude strength map *)

Lemma pretty_not (n k : Z) : n <> k -> String.eqb (pretty k) (pretty n) = false.
Proof.
  intros Hne. apply String.eqb_neq. intros Heq. apply Hne.
  symmetry. exact (inj pretty _ _ Heq).
Qed.

(** The score the source reads from [likertWeights] for a truthy choice. *)
Lemma likert_score (v : value) :
  Js.to_number (get likertWeights (to_key v))
  = match response v with
    | Some n => if ((1 <=? n) && (n <=? 5))%Z then Js.Num (IZR (weight_spec v)) else Js.NaN
    | None => Js.NaN
    end.
Proof.
  destruct v as [n | s]; unfold weight_spec; cbn [response to_key].
  - destruct (decide (n = 1%Z)) as [-> | H1]; [reflexivity |].
    destruct (decide (n = 2%Z)) as [-> | H2]; [reflexivity |].
    destruct (decide (n = 3%Z)) as [-> | H3]; [reflexivity |].
    destruct (decide (n = 4%Z)) as [-> | H4]; [reflexivity |].
    destruct (decide (n = 5%Z)) as [-> | H5]; [reflexivity |].
    assert (((1 <=? n) && (n <=? 5))%Z = false) as -> by lia.
    unfold likertWeights. cbn [get].
    change "1"%string with (pretty 1%Z). rewrite (pretty_not n 1) by exact H1.
    change "2"%string with (pretty 2%Z). rewrite (pretty_not n 2) by exact H2.
    change "3"%string with (pretty 3%Z). rewrite (pretty_not n 3) by exact H3.
    change "4"%string with (pretty 4%Z). rewrite (pretty_not n 4) by exact H4.
    change "5"%string with (pretty 5%Z). rewrite (pretty_not n 5) by exact H5.
    reflexivity.
  - unfold likertWeights. cbn [get].
    destruct (String.eqb "1" s); [reflexivity |].
    destruct (String.eqb "2" s); [reflexivity |].
    destruct (String.eqb "3" s); [reflexivity |].
    destruct (String.eqb "4" s); [reflexivity |].
    destruct (String.eqb "5" s); reflexivity.
Qed.

Lemma weight_spec_range (v : value) : (-2 <= weight_spec v <= 2)%Z.
Proof.
  unfold weight_spec. destruct (response v) as [[| p | p] |]; try lia.
  destruct p as [[[? | ? |] | [? | ? |] |] | [[? | ? |] | [? | ? |] |] |]; lia.
Qed.

(** The callback of [forEach] adds the weight of the specification. *)
Lemma addAnswer_spec (attitudeAnswers : gmap string Answer)
    (attitudeStrengths : gmap string Js.number) (q : AttitudeQuestion.t) :
  addAnswer attitudeAnswers attitudeStrengths q
  = match attitudeAnswers !! AttitudeQuestion.id q with
    | None => attitudeStrengths
    | Some answer =>
        let w := weight_spec (choice answer) in
        if (0 <? w)%Z then
          plusAssign attitudeStrengths (AttitudeQuestion.pole (AttitudeQuestion.construct1 q))
            (Js.Num (IZR w))
        else if (w <? 0)%Z then
          plusAssign attitudeStrengths (AttitudeQuestion.pole (AttitudeQuestion.construct2 q))
            (Js.Num (IZR (- w)))
        else attitudeStrengths
    end.
Proof.
  unfold addAnswer. destruct (attitudeAnswers !! AttitudeQuestion.id q) as [answer |];
    [| reflexivity].
  cbn zeta. destruct (truthy (choice answer)) eqn:Etruthy.
  - rewrite likert_score.
    pose proof (weight_spec_range (choice answer)) as Hrange.
    destruct (response (choice answer)) as [n |] eqn:Eresp.
    + destruct ((1 <=? n) && (n <=? 5))%Z eqn:Edom.
      * unfold Js.gt. rewrite !lt_Num. cbn [Js.abs].
        destruct (Z.ltb_spec 0 (weight_spec (choice answer))) as [Hpos | Hnpos].
        { rewrite Rltb_true by (apply (IZR_lt 0); exact Hpos). reflexivity. }
        rewrite Rltb_false by (apply (IZR_le _ 0); exact Hnpos).
        destruct (Z.ltb_spec (weight_spec (choice answer)) 0) as [Hneg | Hnneg].
        { rewrite Rltb_true by (apply (IZR_lt _ 0); exact Hneg).
          rewrite opp_IZR, Rabs_left by (apply (IZR_lt _ 0); exact Hneg). reflexivity. }
        rewrite Rltb_false by (apply (IZR_le 0); exact Hnneg). reflexivity.
      * assert (weight_spec (choice answer) = 0%Z) as ->.
        { unfold weight_spec. rewrite Eresp.
          destruct n as [| p | p]; try reflexivity.
          destruct p as [[[? | ? |] | [? | ? |] |] | [[? | ? |] | [? | ? |] |] |];
            try reflexivity; cbn in Edom; discriminate Edom. }
        reflexivity.
    + assert (weight_spec (choice answer) = 0%Z) as ->
        by (unfold weight_spec; rewrite Eresp; reflexivity).
      reflexivity.
  - assert (weight_spec (choice answer) = 0%Z) as ->; [| reflexivity].
    destruct (choice answer) as [n | s]; cbn in Etruthy.
    + apply negb_false_iff, Z.eqb_eq in Etruthy. subst n. reflexivity.
    + apply negb_false_iff, String.eqb_eq in Etruthy. subst s. reflexivity.
Qed.

Lemma plusAssign_lookup (m : gmap string Js.number) (key f : string) (z w : Z) :
  m !! f = Some (Js.Num (IZR z)) ->
  plusAssign m key (Js.Num (IZR w)) !! f
  = Some (Js.Num (IZR (z + (if String.eqb key f then w else 0)))).
Proof.
  intros Hf. unfold plusAssign, strength.
  destruct (String.eqb_spec key f) as [-> | Hne].
  - rewrite lookup_insert_eq, Hf. cbn [Js.add]. rewrite plus_IZR. reflexivity.
  - rewrite lookup_insert_ne by exact Hne. rewrite Hf, Z.add_0_r. reflexivity.
Qed.

Lemma addAnswer_lookup (attitudeAnswers : gmap string Answer) (m : gmap string Js.number)
    (q : AttitudeQuestion.t) (f : string) (z : Z) :
  m !! f = Some (Js.Num (IZR z)) ->
  addAnswer attitudeAnswers m q !! f
  = Some (Js.Num (IZR (z + contribution attitudeAnswers q f))).
Proof.
  intros Hf. rewrite addAnswer_spec. unfold contribution.
  destruct (attitudeAnswers !! AttitudeQuestion.id q) as [answer |];
    [| rewrite Z.add_0_r; exact Hf].
  cbn zeta. destruct (0 <? weight_spec (choice answer))%Z.
  - apply plusAssign_lookup. exact Hf.
  - destruct (weight_spec (choice answer) <? 0)%Z.
    + apply plusAssign_lookup. exact Hf.
    + rewrite Z.add_0_r. exact Hf.
Qed.

Lemma strengths_from (attitudeAnswers : gmap string Answer)
    (allAttitudeQuestions : list AttitudeQuestion.t) (m : gmap string Js.number)
    (f : string) (z : Z) :
  m !! f = Some (Js.Num (IZR z)) ->
  fold_left (addAnswer attitudeAnswers) allAttitudeQuestions m !! f
  = Some (Js.Num (IZR (z + strength_spec attitudeAnswers allAttitudeQuestions f))).
Proof.
  revert m z. induction allAttitudeQuestions as [| q qs IH]; intros m z Hf.
  - cbn. rewrite Z.add_0_r. exact Hf.
  - cbn [fold_left].
    rewrite (IH _ _ (addAnswer_lookup attitudeAnswers m q f z Hf)).
    unfold strength_spec. cbn [List.map fold_right].
    do 3 f_equal. lia.
Qed.

Lemma contribution_nonneg (attitudeAnswers : gmap string Answer) (q : AttitudeQuestion.t)
    (f : string) :
  (0 <= contribution attitudeAnswers q f)%Z.
Proof.
  unfold contribution. destruct (attitudeAnswers !! AttitudeQuestion.id q); [| lia].
  cbn zeta. destruct (Z.ltb_spec 0 (weight_spec (choice a0))).
  - destruct (String.eqb _ f); lia.
  - destruct (Z.ltb_spec (weight_spec (choice a0)) 0); [| lia].
    destruct (String.eqb _ f); lia.
Qed.

Lemma strength_spec_nonneg (attitudeAnswers : gmap string Answer)
    (allAttitudeQuestions : list AttitudeQuestion.t) (f : string) :
  (0 <= strength_spec attitudeAnswers allAttitudeQuestions f)%Z.
Proof.
  unfold strength_spec. induction allAttitudeQuestions as [| q qs IH]; cbn; [lia |].
  pose proof (contribution_nonneg attitudeAnswers q f). lia.
Qed.

Lemma initialStrengths_lookup (f : string) :
  f ∈ FUNCTIONS -> initialStrengths !! f = Some (Js.Num (IZR 0)).
Proof.
  unfold FUNCTIONS. rewrite !elem_of_cons, elem_of_nil.
  intros [-> | [-> | [-> | [-> | [-> | [-> | [-> | [-> | []]]]]]]]]; reflexivity.
Qed.

Lemma attitudeStrengthsOf_lookup (attitudeAnswers : gmap string Answer)
    (allAttitudeQuestions : list AttitudeQuestion.t) (f : string) :
  f ∈ FUNCTIONS ->
  attitudeStrengthsOf attitudeAnswers allAttitudeQuestions !! f
  = Some (Js.Num (IZR (strength_spec attitudeAnswers allAttitudeQuestions f))).
Proof.
  intros Hf. unfold attitudeStrengthsOf.
  rewrite (strengths_from _ _ _ f 0%Z (initialStrengths_lookup f Hf)).
  reflexivity.
Qed.

(** C6.  The attitude strength map is the fold of the Likert answers with
    the weight table 1:+2, 2:+1, 3:0, 4:-1, 5:-2.  Each question adds a
    positive weight to the strength of its first pole and the magnitude of a
    negative weight to the strength of its second pole; a zero weight and an
    unanswered question add nothing; and each of the eight function
    strengths is the sum of what the questions add to it, which is never
    negative. *)
Theorem C6_attitude_strengths (attitudeAnswers : gmap string Answer)
    (allAttitudeQuestions : list AttitudeQuestion.t) :
  (weight_spec (VNum 1) = 2 /\ weight_spec (VNum 2) = 1 /\ weight_spec (VNum 3) = 0
   /\ weight_spec (VNum 4) = -1 /\ weight_spec (VNum 5) = -2)%Z
  /\ (forall (m : gmap string Js.number) (q : AttitudeQuestion.t),
        addAnswer attitudeAnswers m q
        = match attitudeAnswers !! AttitudeQuestion.id q with
          | None => m
          | Some answer =>
              let w := weight_spec (choice answer) in
              if (0 <? w)%Z then
                plusAssign m (AttitudeQuestion.pole (AttitudeQuestion.construct1 q))
                  (Js.Num (IZR w))
              else if (w <? 0)%Z then
                plusAssign m (AttitudeQuestion.pole (AttitudeQuestion.construct2 q))
                  (Js.Num (IZR (- w)))
              else m
          end)
  /\ (forall f : string, f ∈ FUNCTIONS ->
        attitudeStrengthsOf attitudeAnswers allAttitudeQuestions !! f
        = Some (Js.Num (IZR (strength_spec attitudeAnswers allAttitudeQuestions f)))
        /\ (0 <= strength_spec attitudeAnswers allAttitudeQuestions f)%Z).
Proof.
  split; [repeat split; reflexivity |].
  split; [intros m q; apply addAnswer_spec |].
  intros f Hf. split.
  - apply attitudeStrengthsOf_lookup. exact Hf.
  - apply strength_spec_nonneg.
Qed.

Lemma C6_attitude_strengths_witness :
  attitudeStrengthsOf {[ "att1"%string := {| choice := VStr "1" |} ]} [example_attitude_question]
    !! "Ti"%string
  = Some (Js.Num (IZR 2)).
Proof.
  destruct (C6_attitude_strengths
              {[ "att1"%string := {| choice := VStr "1" |} ]} [example_attitude_question])
    as (_ & _ & Hsum).
  destruct (Hsum "Ti"%string) as [-> _].
  - unfold FUNCTIONS. apply list_elem_of_here.
  - reflexivity.
Defined.

(** ** Choices outside the weight table *)

Lemma addAnswer_out_of_domain (attitudeAnswers : gmap string Answer)
    (m : gmap string Js.number) (q : AttitudeQuestion.t) (answer : Answer) :
  attitudeAnswers !! AttitudeQuestion.id q = Some answer ->
  get likertWeights (to_key (choice answer)) = None ->
  addAnswer attitudeAnswers m q = m.
Proof.
  intros Hans Hout. unfold addAnswer. rewrite Hans, Hout.
  destruct (truthy (choice answer)); reflexivity.
Qed.

Lemma addAnswer_delete (attitudeAnswers : gmap string Answer) (key : string) (answer : Answer)
    (m : gmap string Js.number) (q : AttitudeQuestion.t) :
  attitudeAnswers !! key = Some answer ->
  get likertWeights (to_key (choice answer)) = None ->
  addAnswer (delete key attitudeAnswers) m q = addAnswer attitudeAnswers m q.
Proof.
  intros Hans Hout. destruct (decide (AttitudeQuestion.id q = key)) as [Heq | Hne].
  - rewrite (addAnswer_out_of_domain attitudeAnswers m q answer) by (rewrite ?Heq; assumption).
    unfold addAnswer. rewrite Heq, lookup_delete_eq. reflexivity.
  - unfold addAnswer. rewrite lookup_delete_ne by (intros E; apply Hne; symmetry; exact E).
    reflexivity.
Qed.

Lemma attitudeStrengthsOf_delete (attitudeAnswers : gmap string Answer) (key : string)
    (answer : Answer) (allAttitudeQuestions : list AttitudeQuestion.t) :
  attitudeAnswers !! key = Some answer ->
  get likertWeights (to_key (choice answer)) = None ->
  attitudeStrengthsOf (delete key attitudeAnswers) allAttitudeQuestions
  = attitudeStrengthsOf attitudeAnswers allAttitudeQuestions.
Proof.
  intros Hans Hout. unfold attitudeStrengthsOf. generalize initialStrengths.
  induction allAttitudeQuestions as [| q qs IH]; intros m; [reflexivity |].
  cbn [fold_left]. rewrite (addAnswer_delete _ _ _ _ _ Hans Hout). apply IH.
Qed.

Lemma calculateHybridResultsWith_delete (itemParameters : list ItemParameter.t)
    (clarityWeight : CoreResult -> Js.number) (positionWeight : PositionWeight)
    (mbtiAnswers : gmap nat Answer) (attitudeAnswers : gmap string Answer)
    (allMbtiQuestions : list MbtiQuestion.t) (allAttitudeQuestions : list AttitudeQuestion.t)
    (key : string) (answer : Answer) :
  attitudeAnswers !! key = Some answer ->
  get likertWeights (to_key (choice answer)) = None ->
  calculateHybridResultsWith itemParameters clarityWeight positionWeight
    mbtiAnswers (delete key attitudeAnswers) allMbtiQuestions allAttitudeQuestions
  = calculateHybridResultsWith itemParameters clarityWeight positionWeight
      mbtiAnswers attitudeAnswers allMbtiQuestions allAttitudeQuestions.
Proof.
  intros Hans Hout. unfold calculateHybridResultsWith.
  rewrite (attitudeStrengthsOf_delete _ _ _ _ Hans Hout). reflexivity.
Qed.

(** C10.  A Likert answer whose choice is not a key of the weight table
    (0, 6 or a non-numeric string, for instance) adds nothing to the
    attitude strength map and raises nothing: the step of the fold leaves
    the map as it was, and the result of the whole invocation, in both
    revisions, is the result obtained without that answer. *)
Theorem C10_out_of_domain_choice_ignored :
  (get likertWeights (to_key (VNum 0)) = None
   /\ get likertWeights (to_key (VStr "0")) = None
   /\ get likertWeights (to_key (VNum 6)) = None
   /\ get likertWeights (to_key (VStr "abc")) = None)
  /\ (forall (attitudeAnswers : gmap string Answer) (m : gmap string Js.number)
        (q : AttitudeQuestion.t) (answer : Answer),
        attitudeAnswers !! AttitudeQuestion.id q = Some answer ->
        get likertWeights (to_key (choice answer)) = None ->
        addAnswer attitudeAnswers m q = m)
  /\ (forall (itemParameters : list ItemParameter.t)
        (mbtiAnswers : gmap nat Answer) (attitudeAnswers : gmap string Answer)
        (allMbtiQuestions : list MbtiQuestion.t)
        (allAttitudeQuestions : list AttitudeQuestion.t) (key : string) (answer : Answer),
        attitudeAnswers !! key = Some answer ->
        get likertWeights (to_key (choice answer)) = None ->
        calculateHybridResults itemParameters mbtiAnswers attitudeAnswers
          allMbtiQuestions allAttitudeQuestions
        = calculateHybridResults itemParameters mbtiAnswers (delete key attitudeAnswers)
            allMbtiQuestions allAttitudeQuestions
        /\ calculateHybridResults_log itemParameters mbtiAnswers attitudeAnswers
             allMbtiQuestions allAttitudeQuestions
           = calculateHybridResults_log itemParameters mbtiAnswers (delete key attitudeAnswers)
               allMbtiQuestions allAttitudeQuestions).
Proof.
  split; [repeat split; reflexivity |].
  split; [apply addAnswer_out_of_domain |].
  intros itemParameters mbtiAnswers attitudeAnswers allMbtiQuestions allAttitudeQuestions
    key answer Hans Hout.
  unfold calculateHybridResults, calculateHybridResults_log.
  rewrite !(calculateHybridResultsWith_delete _ _ _ _ _ _ _ _ _ Hans Hout).
  split; reflexivity.
Qed.

Lemma C10_out_of_domain_choice_ignored_witness :
  addAnswer {[ "att1"%string := {| choice := VNum 6 |} ]} initialStrengths example_attitude_question
  = initialStrengths.
Proof.
  apply (proj1 (proj2 C10_out_of_domain_choice_ignored)
           {[ "att1"%string := {| choice := VNum 6 |} ]} initialStrengths
           example_attitude_question {| choice := VNum 6 |}); reflexivity.
Defined.

(** ** The loop over the sixteen types *)

Lemma considerType_track (clarityWeight : CoreResult -> Js.number) (positionWeight : PositionWeight)
    (eiResult snResult tfResult : CoreResult) (m : gmap string Js.number)
    (entries : list (string * (string * string * string * string))) (best : Best) :
  fold_left (considerType clarityWeight positionWeight eiResult snResult tfResult m) entries best
  = fold_left track
      (List.map (fun entry : string * (string * string * string * string) =>
                   (entry.1,
                    scoreOf clarityWeight positionWeight eiResult snResult tfResult m
                      entry.1 entry.2))
         entries)
      best.
Proof.
  revert best. induction entries as [| [type stack] entries IH]; intros best; [reflexivity |].
  cbn [fold_left List.map]. rewrite <- IH. reflexivity.
Qed.

Lemma track_typeScores (l : list (string * Js.number)) (best : Best) (t : string) :
  t ∉ l.*1 -> typeScores (fold_left track l best) !! t = typeScores best !! t.
Proof.
  revert best. induction l as [| [type s] l IH]; intros best Hnot; [reflexivity |].
  cbn [fold_left]. rewrite IH by (intros H; apply Hnot; cbn; right; exact H).
  unfold track. destruct (Js.gt s (maxScore best)); cbn [typeScores];
    apply lookup_insert_ne; intros ->; apply Hnot; cbn; left.
Qed.

Lemma track_keys (l : list (string * Js.number)) (best : Best) (t : string) :
  is_Some (typeScores (fold_left track l best) !! t)
  <-> t ∈ l.*1 \/ is_Some (typeScores best !! t).
Proof.
  revert best. induction l as [| [type s] l IH]; intros best.
  - cbn [fold_left fmap list_fmap]. rewrite elem_of_nil.
    split; [intros H; right; exact H | intros [[] | H]; exact H].
  - cbn [fold_left]. rewrite IH. cbn [fmap list_fmap fst]. rewrite elem_of_cons.
    assert (typeScores (track best (type, s)) = <[type := s]> (typeScores best)) as ->
      by (unfold track; destruct (Js.gt s (maxScore best)); reflexivity).
    rewrite lookup_insert_is_Some. destruct (decide (type = t)) as [-> | Hne].
    + split; intros _; [left; left; reflexivity | right; left; reflexivity].
    + split.
      * intros [H | [H | [_ H]]]; [left; right; exact H | contradiction | right; exact H].
      * intros [[H | H] | H];
          [symmetry in H; contradiction | left; exact H | right; right; split; assumption].
Qed.

(** When no score is a number the loop leaves [bestFitType] and [maxScore]
    alone. *)
Lemma track_all_NaN (l : list (string * Js.number)) (best : Best) :
  Forall (fun e => e.2 = Js.NaN) l ->
  bestFitType (fold_left track l best) = bestFitType best.
Proof.
  intros Hall. revert best. induction Hall as [| [type s] l Hs _ IH]; intros best;
    [reflexivity |].
  cbn [fold_left]. rewrite IH. cbn in Hs. subst s. unfold track, Js.gt.
  destruct (maxScore best); reflexivity.
Qed.

Lemma track_step (best : Best) (type : string) (c : R) :
  not_started best \/ is_maximum best ->
  typeScores best !! type = None ->
  is_maximum (track best (type, Js.Num c)).
Proof.
  intros [(Hb & Hm & Hs) | (t & m & Hb & Hm & Ht & Hmax)] Hfresh; unfold track.
  - rewrite Hm, Hs. cbn. exists type, c. cbn. repeat split.
    + apply lookup_insert_eq.
    + intros t' s. rewrite lookup_insert. destruct (decide (type = t')).
      * intros [= <-]. exists c. split; [reflexivity | lra].
      * rewrite lookup_empty. discriminate.
  - rewrite Hm. unfold Js.gt. rewrite lt_Num. unfold Js.Rltb.
    destruct (Rlt_dec m c) as [Hlt | Hge].
    + exists type, c. cbn. repeat split.
      * apply lookup_insert_eq.
      * intros t' s. rewrite lookup_insert. destruct (decide (type = t')).
        -- intros [= <-]. exists c. split; [reflexivity | lra].
        -- intros Hs. destruct (Hmax t' s Hs) as (x & -> & Hx).
           exists x. split; [reflexivity | lra].
    + exists t, m. cbn. repeat split; try assumption.
      * rewrite lookup_insert_ne; [exact Ht |].
        intros ->. rewrite Hfresh in Ht. discriminate Ht.
      * intros t' s. rewrite lookup_insert. destruct (decide (type = t')).
        -- intros [= <-]. exists c. split; [reflexivity | lra].
        -- apply Hmax.
Qed.

Lemma track_all_real (l : list (string * Js.number)) (best : Best) :
  NoDup l.*1 ->
  Forall (fun e => exists x, e.2 = Js.Num x) l ->
  (forall t, t ∈ l.*1 -> typeScores best !! t = None) ->
  not_started best \/ is_maximum best ->
  l <> [] ->
  is_maximum (fold_left track l best).
Proof.
  revert best. induction l as [| [type s] l IH]; intros best Hnodup Hreal Hfresh Hinv Hne;
    [contradiction |].
  cbn [fmap list_fmap fst] in Hnodup, Hfresh.
  apply NoDup_cons in Hnodup as [Hnotin Hnodup].
  apply Forall_cons in Hreal as [[c Hc] Hreal]. cbn in Hc. subst s.
  cbn [fold_left].
  assert (is_maximum (track best (type, Js.Num c))) as Hstep.
  { apply track_step; [exact Hinv |]. apply Hfresh. left. }
  destruct l as [| e l']; [exact Hstep |].
  apply IH; try assumption; [| right; exact Hstep | discriminate].
  intros t Ht.
  assert (typeScores (track best (type, Js.Num c)) = <[type := Js.Num c]> (typeScores best))
    as -> by (unfold track; destruct (Js.gt (Js.Num c) (maxScore best)); reflexivity).
  rewrite lookup_insert_ne; [apply Hfresh; right; exact Ht |].
  intros ->. apply Hnotin. exact Ht.
Qed.

(** ** The shape of what the estimator returns *)

Lemma clamp_shape (x : Js.number) : real_or_NaN (Js.max (Js.Num (-3)) (Js.min (Js.Num 3) x)).
Proof.
  destruct x as [x | | |].
  - rewrite clamp_Num. right. eexists; reflexivity.
  - left. reflexivity.
  - right. cbn. rewrite Rltb_true by lra. eexists; reflexivity.
  - right. cbn. eexists; reflexivity.
Qed.

Lemma newton_shape (n : nat) (theta : Js.number) (items : list Item) :
  real_or_NaN theta -> real_or_NaN (newton n theta items).
Proof.
  revert theta. induction n as [| n IH]; intros theta Htheta; [exact Htheta |].
  cbn [newton]. destruct (derivatives theta items) as [firstDerivative secondDerivative].
  destruct (Js.lt (Js.abs secondDerivative) _); [exact Htheta |].
  destruct (Js.lt _ _); [apply clamp_shape |].
  apply IH, clamp_shape.
Qed.

Lemma findBestTheta_shape (itemParameters : list ItemParameter.t) (d : string)
    (answers : gmap nat Answer) (allQuestions : list MbtiQuestion.t) (theta : Js.number) :
  findBestThetaForDichotomy itemParameters d answers allQuestions = Ok theta ->
  real_or_NaN theta.
Proof.
  unfold findBestThetaForDichotomy.
  destruct (Nat.eqb _ 0).
  - intros H. apply Ok_inj in H. subst theta. right. eexists; reflexivity.
  - unfold mbind, outcome_bind. destruct (map_outcome _ _) as [items | e]; [| discriminate].
    intros H. apply Ok_inj in H. subst theta.
    apply newton_shape. right. eexists; reflexivity.
Qed.

(** ** Scores *)

Lemma add_NaN_r (x : Js.number) : Js.add x Js.NaN = Js.NaN.
Proof. destruct x; reflexivity. Qed.

Lemma calculate_unfold (itemParameters : list ItemParameter.t)
    (clarityWeight : CoreResult -> Js.number) (positionWeight : PositionWeight)
    (mbtiAnswers : gmap nat Answer) (attitudeAnswers : gmap string Answer)
    (allMbtiQuestions : list MbtiQuestion.t) (allAttitudeQuestions : list AttitudeQuestion.t) :
  calculateHybridResultsWith itemParameters clarityWeight positionWeight
    mbtiAnswers attitudeAnswers allMbtiQuestions allAttitudeQuestions
  = match findBestThetaForDichotomy itemParameters "E-I" mbtiAnswers allMbtiQuestions with
    | Throw e => Throw e
    | Ok ei =>
        match findBestThetaForDichotomy itemParameters "S-N" mbtiAnswers allMbtiQuestions with
        | Throw e => Throw e
        | Ok sn =>
            match findBestThetaForDichotomy itemParameters "T-F" mbtiAnswers allMbtiQuestions with
            | Throw e => Throw e
            | Ok tf =>
                finalize
                  (fold_left
                     (considerType clarityWeight positionWeight
                        (coreOf ei) (coreOf sn) (coreOf tf)
                        (attitudeStrengthsOf attitudeAnswers allAttitudeQuestions))
                     TYPE_FUNCTION_STACKS initialBest)
            end
        end
    end.
Proof.
  unfold calculateHybridResultsWith, DICHOTOMY_CONFIG. cbn [map_outcome].
  unfold coreResult, mbind, outcome_bind.
  generalize (findBestThetaForDichotomy itemParameters "E-I" mbtiAnswers allMbtiQuestions).
  generalize (findBestThetaForDichotomy itemParameters "S-N" mbtiAnswers allMbtiQuestions).
  generalize (findBestThetaForDichotomy itemParameters "T-F" mbtiAnswers allMbtiQuestions).
  intros [tf | e3] [sn | e2] [ei | e1]; reflexivity.
Qed.

Section Scores.

Variable clarityWeight : CoreResult -> Js.number.
Variable positionWeight : PositionWeight.
Variables eiResult snResult tfResult : CoreResult.
Variable attitudeStrengths : gmap string Js.number.

Lemma scoreOf_NaN (type : string) (stack : string * string * string * string) :
  theta eiResult = Js.NaN \/ theta snResult = Js.NaN \/ theta tfResult = Js.NaN ->
  scoreOf clarityWeight positionWeight eiResult snResult tfResult attitudeStrengths type stack
  = Js.NaN.
Proof.
  destruct stack as [[[d a0] t] i]. unfold scoreOf.
  intros [H | [H | H]]; rewrite H; cbn [Js.neg];
    repeat match goal with
           | |- context [if ?c then Js.NaN else Js.NaN] =>
               replace (if c then Js.NaN else Js.NaN) with Js.NaN by (destruct c; reflexivity)
           end;
    cbn [Js.mul Js.add]; rewrite ?add_NaN_r; cbn [Js.mul Js.add]; rewrite ?add_NaN_r;
    reflexivity.
Qed.

Lemma scoreOf_real (type d a0 t i : string) (t1 t2 t3 w1 w2 w3 zd za zt zi : R) :
  theta eiResult = Js.Num t1 -> theta snResult = Js.Num t2 -> theta tfResult = Js.Num t3 ->
  clarityWeight eiResult = Js.Num w1 -> clarityWeight snResult = Js.Num w2 ->
  clarityWeight tfResult = Js.Num w3 ->
  attitudeStrengths !! d = Some (Js.Num zd) -> attitudeStrengths !! a0 = Some (Js.Num za) ->
  attitudeStrengths !! t = Some (Js.Num zt) -> attitudeStrengths !! i = Some (Js.Num zi) ->
  scoreOf clarityWeight positionWeight eiResult snResult tfResult attitudeStrengths
    type (d, a0, t, i)
  = Js.Num
      (0 + (if startsWith type "E" then t1 else - t1) * w1
       + (if includes type "S" then t2 else - t2) * w2
       + (if includes type "T" then t3 else - t3) * w3
       + (zd * dom positionWeight + za * aux positionWeight
          + zt * ter positionWeight + zi * inf positionWeight) * ATTITUDE_SCORE_WEIGHT).
Proof.
  intros H1 H2 H3 Hw1 Hw2 Hw3 Hd Ha Ht Hi. unfold scoreOf, strength.
  rewrite H1, H2, H3, Hw1, Hw2, Hw3, Hd, Ha, Ht, Hi.
  destruct (startsWith type "E"), (includes type "S"), (includes type "T"); reflexivity.
Qed.

End Scores.

(** ** The result of an invocation *)

Lemma stacks_use_functions :
  Forall (fun entry : string * (string * string * string * string) =>
            entry.2.1.1.1 ∈ FUNCTIONS /\ entry.2.1.1.2 ∈ FUNCTIONS
            /\ entry.2.1.2 ∈ FUNCTIONS /\ entry.2.2 ∈ FUNCTIONS)
    TYPE_FUNCTION_STACKS.
Proof. apply (bool_decide_unpack _). vm_compute. exact I. Qed.

Lemma types_distinct : NoDup TYPE_FUNCTION_STACKS.*1.
Proof. apply (bool_decide_unpack _). vm_compute. exact I. Qed.

Lemma get_elem {A : Type} (entries : list (string * A)) (key : string) :
  key ∈ entries.*1 -> is_Some (get entries key).
Proof.
  induction entries as [| [k v] entries IH]; cbn [fmap list_fmap fst get].
  - intros H. apply elem_of_nil in H. contradiction.
  - intros H. apply elem_of_cons in H as [-> | H].
    + rewrite String.eqb_refl. eexists; reflexivity.
    + destruct (String.eqb k key); [eexists; reflexivity | apply IH; exact H].
Qed.

Section Invocation.

Variable clarityWeight : CoreResult -> Js.number.
Variable positionWeight : PositionWeight.
Hypothesis clarityWeight_real :
  forall t : R, exists w : R, clarityWeight (coreOf (Js.Num t)) = Js.Num w.

Variable attitudeAnswers : gmap string Answer.
Variable allAttitudeQuestions : list AttitudeQuestion.t.

Local Abbreviation scoresOf := (scoresFor clarityWeight positionWeight attitudeAnswers allAttitudeQuestions).

Lemma scoresOf_keys (ei sn tf : Js.number) : (scoresOf ei sn tf).*1 = TYPE_FUNCTION_STACKS.*1.
Proof.
  unfold scoresFor. generalize TYPE_FUNCTION_STACKS.
  induction l as [| [type stack] l IH]; [reflexivity |].
  cbn [List.map fmap list_fmap fst]. f_equal. exact IH.
Qed.

Lemma scoresOf_real (t1 t2 t3 : R) :
  Forall (fun e => exists x, e.2 = Js.Num x) (scoresOf (Js.Num t1) (Js.Num t2) (Js.Num t3)).
Proof.
  unfold scoresFor. apply Forall_forall. intros e He.
  apply list_elem_of_In, in_map_iff in He as ([type [[[d a0] t] i]] & <- & Hin).
  pose proof stacks_use_functions as Hall.
  rewrite Forall_forall in Hall. apply list_elem_of_In in Hin. specialize (Hall _ Hin).
  cbn [fst snd] in Hall. destruct Hall as (Hd & Ha & Ht & Hi).
  destruct (clarityWeight_real t1) as [w1 Hw1].
  destruct (clarityWeight_real t2) as [w2 Hw2].
  destruct (clarityWeight_real t3) as [w3 Hw3].
  cbn [fst snd]. eexists.
  apply (scoreOf_real _ _ _ _ _ _ type d a0 t i t1 t2 t3 w1 w2 w3);
    try reflexivity; try assumption;
    apply attitudeStrengthsOf_lookup; assumption.
Qed.

Lemma scoresOf_NaN (ei sn tf : Js.number) :
  ei = Js.NaN \/ sn = Js.NaN \/ tf = Js.NaN ->
  Forall (fun e => e.2 = Js.NaN) (scoresOf ei sn tf).
Proof.
  intros H. unfold scoresFor. apply Forall_forall. intros e He.
  apply list_elem_of_In, in_map_iff in He as ([type stack] & <- & _). cbn [fst snd].
  apply scoreOf_NaN. exact H.
Qed.

(** With three real estimates the loop ends on a maximum and the invocation
    returns. *)
Lemma finalize_real (t1 t2 t3 : R) :
  exists r,
    finalize
      (fold_left
         (considerType clarityWeight positionWeight
            (coreOf (Js.Num t1)) (coreOf (Js.Num t2)) (coreOf (Js.Num t3))
            (attitudeStrengthsOf attitudeAnswers allAttitudeQuestions))
         TYPE_FUNCTION_STACKS initialBest)
    = Ok r
    /\ score_is_maximum r.
Proof.
  rewrite considerType_track. fold (scoresOf (Js.Num t1) (Js.Num t2) (Js.Num t3)).
  set (l := scoresOf (Js.Num t1) (Js.Num t2) (Js.Num t3)).
  assert (is_maximum (fold_left track l initialBest)) as Hmax.
  { apply track_all_real.
    - unfold l. rewrite scoresOf_keys. apply types_distinct.
    - apply scoresOf_real.
    - intros t _. apply lookup_empty.
    - left. repeat split.
    - unfold l, scoresFor. discriminate. }
  assert (forall t, is_Some (typeScores (fold_left track l initialBest) !! t)
                    <-> t ∈ TYPE_FUNCTION_STACKS.*1) as Hkeys.
  { intros t. rewrite track_keys. unfold l. rewrite scoresOf_keys.
    cbn [initialBest typeScores]. rewrite lookup_empty. split.
    - intros [H | H]; [exact H | inversion H; discriminate].
    - intros H. left. exact H. }
  destruct Hmax as (t & m & Hb & Hm & Ht & Hle).
  assert (is_Some (get TYPE_FUNCTION_STACKS t)) as [[[[d a0] te] i] Hstack].
  { apply get_elem, Hkeys. rewrite Ht. eexists; reflexivity. }
  unfold finalize. rewrite Hb, Hstack. eexists. split; [reflexivity |].
  exists m. cbn [score allTypeScores finalType]. repeat split; try assumption; apply Hkeys.
Qed.

(** With an estimate that is [NaN] no score is a number: [bestFitType] stays
    [null] and reading [finalStack[0]] throws. *)
Lemma finalize_NaN (ei sn tf : Js.number) :
  ei = Js.NaN \/ sn = Js.NaN \/ tf = Js.NaN ->
  finalize
    (fold_left
       (considerType clarityWeight positionWeight (coreOf ei) (coreOf sn) (coreOf tf)
          (attitudeStrengthsOf attitudeAnswers allAttitudeQuestions))
       TYPE_FUNCTION_STACKS initialBest)
  = Throw (TypeError "0").
Proof.
  intros H. rewrite considerType_track. fold (scoresOf ei sn tf).
  unfold finalize. rewrite (track_all_NaN _ _ (scoresOf_NaN ei sn tf H)). reflexivity.
Qed.

End Invocation.

Lemma tableWeight_real (t : R) : exists w : R, tableWeight (coreOf (Js.Num t)) = Js.Num w.
Proof.
  unfold tableWeight, coreOf. cbn [pcc]. rewrite clarityIndex_Num, get_weight_of_category.
  eexists; reflexivity.
Qed.

Lemma pci_spec_pos (t : R) : (1 <= pci_spec t)%Z.
Proof. unfold pci_spec. destruct (Req_dec_T t 0); lia. Qed.

Lemma logWeight_real (t : R) : exists w : R, logWeight (coreOf (Js.Num t)) = Js.Num w.
Proof.
  unfold logWeight, coreOf. cbn [pci]. rewrite clarityIndex_Num.
  rewrite getIrtClarityWeight_pos by (apply (IZR_lt 0); pose proof (pci_spec_pos t); lia).
  eexists; reflexivity.
Qed.

Lemma calculate_maximum (itemParameters : list ItemParameter.t)
    (clarityWeight : CoreResult -> Js.number) (positionWeight : PositionWeight)
    (mbtiAnswers : gmap nat Answer) (attitudeAnswers : gmap string Answer)
    (allMbtiQuestions : list MbtiQuestion.t) (allAttitudeQuestions : list AttitudeQuestion.t)
    (r : Result) :
  (forall t : R, exists w : R, clarityWeight (coreOf (Js.Num t)) = Js.Num w) ->
  calculateHybridResultsWith itemParameters clarityWeight positionWeight
    mbtiAnswers attitudeAnswers allMbtiQuestions allAttitudeQuestions = Ok r ->
  score_is_maximum r.
Proof.
  intros Hweight. rewrite calculate_unfold.
  destruct (findBestThetaForDichotomy itemParameters "E-I" _ _) as [ei | e] eqn:Eei;
    [| discriminate].
  destruct (findBestThetaForDichotomy itemParameters "S-N" _ _) as [sn | e] eqn:Esn;
    [| discriminate].
  destruct (findBestThetaForDichotomy itemParameters "T-F" _ _) as [tf | e] eqn:Etf;
    [| discriminate].
  apply findBestTheta_shape in Eei, Esn, Etf.
  destruct Eei as [Hei | [t1 ->]].
  { rewrite finalize_NaN by (left; exact Hei). discriminate. }
  destruct Esn as [Hsn | [t2 ->]].
  { rewrite finalize_NaN by (right; left; exact Hsn). discriminate. }
  destruct Etf as [Htf | [t3 ->]].
  { rewrite finalize_NaN by (right; right; exact Htf). discriminate. }
  destruct (finalize_real clarityWeight positionWeight Hweight
              attitudeAnswers allAttitudeQuestions t1 t2 t3) as (r' & -> & Hmax).
  intros H. apply Ok_inj in H. subst r'. exact Hmax.
Qed.

(** The invocation returns as soon as the three estimates are numbers. *)
Lemma calculate_returns (itemParameters : list ItemParameter.t)
    (clarityWeight : CoreResult -> Js.number) (positionWeight : PositionWeight)
    (mbtiAnswers : gmap nat Answer) (attitudeAnswers : gmap string Answer)
    (allMbtiQuestions : list MbtiQuestion.t) (allAttitudeQuestions : list AttitudeQuestion.t) :
  (forall t : R, exists w : R, clarityWeight (coreOf (Js.Num t)) = Js.Num w) ->
  (forall d, d ∈ DICHOTOMY_CONFIG.*1 ->
     exists t : R,
       findBestThetaForDichotomy itemParameters d mbtiAnswers allMbtiQuestions = Ok (Js.Num t)) ->
  exists r,
    calculateHybridResultsWith itemParameters clarityWeight positionWeight
      mbtiAnswers attitudeAnswers allMbtiQuestions allAttitudeQuestions = Ok r.
Proof.
  intros Hweight Hreal. rewrite calculate_unfold.
  destruct (Hreal "E-I"%string) as [t1 ->]; [cbn; set_solver |].
  destruct (Hreal "S-N"%string) as [t2 ->]; [cbn; set_solver |].
  destruct (Hreal "T-F"%string) as [t3 ->]; [cbn; set_solver |].
  destruct (finalize_real clarityWeight positionWeight Hweight
              attitudeAnswers allAttitudeQuestions t1 t2 t3) as (r & -> & _).
  exists r. reflexivity.
Qed.

(** C1.  The score returned by [calculateHybridResults] is the maximum of
    the scores recorded in [allTypeScores], which holds exactly the sixteen
    types, and the recorded score of [finalType] is that maximum. *)
Theorem C1_score_is_maximum (itemParameters : list ItemParameter.t)
    (mbtiAnswers : gmap nat Answer) (attitudeAnswers : gmap string Answer)
    (allMbtiQuestions : list MbtiQuestion.t) (allAttitudeQuestions : list AttitudeQuestion.t)
    (r : Result) :
  calculateHybridResults itemParameters mbtiAnswers attitudeAnswers
    allMbtiQuestions allAttitudeQuestions = Ok r ->
  exists m : R,
    score r = Js.Num m
    /\ allTypeScores r !! finalType r = Some (Js.Num m)
    /\ (forall t, is_Some (allTypeScores r !! t) <-> t ∈ TYPE_FUNCTION_STACKS.*1)
    /\ (forall t s, allTypeScores r !! t = Some s -> exists x, s = Js.Num x /\ x <= m).
Proof.
  intros H. exact (calculate_maximum _ _ _ _ _ _ _ _ tableWeight_real H).
Qed.

(** The same holds of the logarithmic-weight revision. *)
Lemma score_is_maximum_log (itemParameters : list ItemParameter.t)
    (mbtiAnswers : gmap nat Answer) (attitudeAnswers : gmap string Answer)
    (allMbtiQuestions : list MbtiQuestion.t) (allAttitudeQuestions : list AttitudeQuestion.t)
    (r : Result) :
  calculateHybridResults_log itemParameters mbtiAnswers attitudeAnswers
    allMbtiQuestions allAttitudeQuestions = Ok r ->
  score_is_maximum r.
Proof.
  intros H. exact (calculate_maximum _ _ _ _ _ _ _ _ logWeight_real H).
Qed.

(** ** Unanswered dichotomies *)

Lemma clarityIndex_zero : clarityIndex (Js.Num 0) = Js.Num 1.
Proof.
  rewrite clarityIndex_Num. unfold pci_spec.
  destruct (Req_dec_T 0 0); [reflexivity | contradiction].
Qed.

Lemma coreOf_zero : coreOf (Js.Num 0) = {| pcc := "Slight"; theta := Js.Num 0; pci := Js.Num 1 |}.
Proof.
  unfold coreOf. rewrite clarityIndex_zero.
  rewrite (getPccCategory_IZR 1). reflexivity.
Qed.

(** C7.  When no item of a dichotomy has a recorded answer the estimator
    returns 0 without failing, the entry of [coreResults] for the dichotomy
    has category "Slight", and the invocation returns a result whenever
    the estimates of the other dichotomies are numbers. *)
Theorem C7_unanswered_dichotomy (itemParameters : list ItemParameter.t) (d : string)
    (config : DichotomyConfig) (mbtiAnswers : gmap nat Answer)
    (allMbtiQuestions : list MbtiQuestion.t) :
  (forall i params,
      itemParameters !! i = Some params -> ItemParameter.dichotomy params = d ->
      mbtiAnswers !! (i + 1)%nat = None) ->
  findBestThetaForDichotomy itemParameters d mbtiAnswers allMbtiQuestions = Ok (Js.Num 0)
  /\ coreResult itemParameters mbtiAnswers allMbtiQuestions (d, config)
     = Ok (d, {| pcc := "Slight"; theta := Js.Num 0; pci := Js.Num 1 |})
  /\ forall (attitudeAnswers : gmap string Answer)
       (allAttitudeQuestions : list AttitudeQuestion.t),
       (forall d', d' ∈ DICHOTOMY_CONFIG.*1 -> d' <> d ->
          exists t : R,
            findBestThetaForDichotomy itemParameters d' mbtiAnswers allMbtiQuestions
            = Ok (Js.Num t)) ->
       (exists r, calculateHybridResults itemParameters mbtiAnswers attitudeAnswers
                    allMbtiQuestions allAttitudeQuestions = Ok r)
       /\ (exists r, calculateHybridResults_log itemParameters mbtiAnswers attitudeAnswers
                       allMbtiQuestions allAttitudeQuestions = Ok r).
Proof.
  intros Hnone.
  assert (findBestThetaForDichotomy itemParameters d mbtiAnswers allMbtiQuestions
          = Ok (Js.Num 0)) as Hzero
    by (apply findBestTheta_unanswered, answered_nil; exact Hnone).
  split; [exact Hzero |]. split.
  - unfold coreResult. rewrite Hzero. unfold mbind, outcome_bind.
    rewrite clarityIndex_zero, (getPccCategory_IZR 1). reflexivity.
  - intros attitudeAnswers allAttitudeQuestions Hothers.
    assert (forall d', d' ∈ DICHOTOMY_CONFIG.*1 ->
              exists t : R,
                findBestThetaForDichotomy itemParameters d' mbtiAnswers allMbtiQuestions
                = Ok (Js.Num t)) as Hall.
    { intros d' Hd'. destruct (decide (d' = d)) as [-> | Hne].
      - exists 0. exact Hzero.
      - apply Hothers; assumption. }
    unfold calculateHybridResults, calculateHybridResults_log.
    split; apply calculate_returns; try assumption;
      [apply tableWeight_real | apply logWeight_real].
Qed.

(** ** No answers at all *)

Lemma attitudeStrengthsOf_unanswered (attitudeAnswers : gmap string Answer)
    (allAttitudeQuestions : list AttitudeQuestion.t) :
  (forall q, q ∈ allAttitudeQuestions -> attitudeAnswers !! AttitudeQuestion.id q = None) ->
  attitudeStrengthsOf attitudeAnswers allAttitudeQuestions = initialStrengths.
Proof.
  unfold attitudeStrengthsOf. generalize initialStrengths.
  induction allAttitudeQuestions as [| q qs IH]; intros m Hnone; [reflexivity |].
  cbn [fold_left]. unfold addAnswer at 2. rewrite (Hnone q) by apply list_elem_of_here.
  apply IH. intros q' Hq'. apply Hnone. apply list_elem_of_further. exact Hq'.
Qed.

Lemma scoreOf_zero (clarityWeight : CoreResult -> Js.number) (positionWeight : PositionWeight)
    (w : R) (entry : string * (string * string * string * string)) :
  clarityWeight (coreOf (Js.Num 0)) = Js.Num w ->
  entry ∈ TYPE_FUNCTION_STACKS ->
  scoreOf clarityWeight positionWeight (coreOf (Js.Num 0)) (coreOf (Js.Num 0))
    (coreOf (Js.Num 0)) initialStrengths entry.1 entry.2
  = Js.Num 0.
Proof.
  intros Hw Hin. pose proof stacks_use_functions as Hall.
  rewrite Forall_forall in Hall. specialize (Hall _ Hin).
  destruct entry as [type [[[d a0] t] i]]. cbn [fst snd] in Hall |- *.
  destruct Hall as (Hd & Ha & Ht & Hi).
  rewrite (scoreOf_real clarityWeight positionWeight _ _ _ _ type d a0 t i
             0 0 0 w w w 0 0 0 0);
    try reflexivity; try assumption; try (apply initialStrengths_lookup; assumption).
  apply (f_equal Js.Num).
  destruct (startsWith type "E"), (includes type "S"), (includes type "T"); ring.
Qed.

(** A type in the lead keeps it against every later type that does not
    score strictly more: the comparison [currentScore > maxScore] is
    strict. *)
Lemma track_lead (l : list (string * Js.number)) (best : Best) (t0 : string) (c : R) :
  bestFitType best = Some t0 -> maxScore best = Js.Num c ->
  Forall (fun e => exists x : R, e.2 = Js.Num x /\ x <= c) l ->
  bestFitType (fold_left track l best) = Some t0
  /\ maxScore (fold_left track l best) = Js.Num c.
Proof.
  intros Hb Hm Hall. revert best Hb Hm.
  induction Hall as [| [type s] l (x & Hs & Hx) _ IH]; intros best Hb Hm; [split; assumption |].
  cbn [fold_left]. cbn in Hs. subst s. apply IH.
  - unfold track. rewrite Hm. unfold Js.gt. rewrite lt_Num, Rltb_false by lra. exact Hb.
  - unfold track. rewrite Hm. unfold Js.gt. rewrite lt_Num, Rltb_false by lra. reflexivity.
Qed.

Lemma track_constant_scores (l : list (string * Js.number)) (best : Best) (v : Js.number)
    (t : string) :
  Forall (fun e => e.2 = v) l ->
  t ∈ l.*1 ->
  typeScores (fold_left track l best) !! t = Some v.
Proof.
  intros Hall. revert best. induction Hall as [| [type s] l Hs _ IH]; intros best Hin.
  - apply elem_of_nil in Hin. contradiction.
  - cbn [fold_left]. cbn in Hs. subst s.
    destruct (decide (t ∈ l.*1)) as [Hl | Hl]; [apply IH; exact Hl |].
    rewrite track_typeScores by exact Hl.
    cbn [fmap list_fmap fst] in Hin. apply elem_of_cons in Hin as [-> | Hin]; [| contradiction].
    unfold track. destruct (Js.gt v (maxScore best)); apply lookup_insert_eq.
Qed.

Section Unanswered.

Variable itemParameters : list ItemParameter.t.
Variable clarityWeight : CoreResult -> Js.number.
Variable positionWeight : PositionWeight.
Variable mbtiAnswers : gmap nat Answer.
Variable attitudeAnswers : gmap string Answer.
Variable allMbtiQuestions : list MbtiQuestion.t.
Variable allAttitudeQuestions : list AttitudeQuestion.t.

Hypothesis clarityWeight_zero : exists w : R, clarityWeight (coreOf (Js.Num 0)) = Js.Num w.
Hypothesis no_forced_choice :
  forall i params, itemParameters !! i = Some params -> mbtiAnswers !! (i + 1)%nat = None.
Hypothesis no_likert :
  forall q, q ∈ allAttitudeQuestions -> attitudeAnswers !! AttitudeQuestion.id q = None.

Lemma unanswered_theta (d : string) :
  findBestThetaForDichotomy itemParameters d mbtiAnswers allMbtiQuestions = Ok (Js.Num 0).
Proof.
  apply findBestTheta_unanswered, answered_nil.
  intros i params Hi _. exact (no_forced_choice i params Hi).
Qed.

Lemma unanswered_result :
  exists scores : gmap string Js.number,
    calculateHybridResultsWith itemParameters clarityWeight positionWeight
      mbtiAnswers attitudeAnswers allMbtiQuestions allAttitudeQuestions
    = Ok {| finalType := "INTP";
            dominant := "Ti"; auxiliary := "Ne"; tertiary := "Si"; inferior := "Fe";
            score := Js.Num 0;
            allTypeScores := scores |}
    /\ (forall t, t ∈ TYPE_FUNCTION_STACKS.*1 -> scores !! t = Some (Js.Num 0))
    /\ (forall t, t ∉ TYPE_FUNCTION_STACKS.*1 -> scores !! t = None).
Proof.
  destruct clarityWeight_zero as [w Hw].
  rewrite calculate_unfold, !unanswered_theta.
  rewrite (attitudeStrengthsOf_unanswered _ _ no_likert), considerType_track.
  set (l := List.map _ TYPE_FUNCTION_STACKS).
  assert (Forall (fun e => e.2 = Js.Num 0) l) as Hzero.
  { unfold l. apply Forall_forall. intros e He.
    apply list_elem_of_In, in_map_iff in He as (entry & <- & Hin). cbn [snd].
    apply (scoreOf_zero clarityWeight positionWeight w entry Hw).
    apply list_elem_of_In. exact Hin. }
  assert (l.*1 = TYPE_FUNCTION_STACKS.*1) as Hkeys.
  { unfold l. generalize TYPE_FUNCTION_STACKS.
    induction l0 as [| [type stack] l0 IH]; [reflexivity |].
    cbn [List.map fmap list_fmap fst]. f_equal. exact IH. }
  destruct l as [| [type s] rest] eqn:El; [discriminate Hkeys |].
  assert (type = "INTP"%string) as -> by (injection Hkeys as H _; exact H).
  apply Forall_cons in Hzero as [Hs Hrest]. cbn in Hs. subst s.
  cbn [fold_left].
  assert (track initialBest ("INTP"%string, Js.Num 0)
          = {| bestFitType := Some "INTP"%string; maxScore := Js.Num 0;
               typeScores := <["INTP"%string := Js.Num 0]> ∅ |}) as Hfirst by reflexivity.
  destruct (track_lead rest (track initialBest ("INTP"%string, Js.Num 0)) "INTP" 0)
    as [Hb Hm]; [rewrite Hfirst; reflexivity | rewrite Hfirst; reflexivity | |].
  { apply (Forall_impl _ _ _ Hrest). intros e He. exists 0. split; [exact He | lra]. }
  eexists. unfold finalize. rewrite Hb, Hm. cbn [get TYPE_FUNCTION_STACKS String.eqb Ascii.eqb Bool.eqb].
  split; [reflexivity |]. split.
  - intros t Ht. rewrite <- Hkeys in Ht.
    change (fold_left track rest (track initialBest ("INTP"%string, Js.Num 0)))
      with (fold_left track (("INTP"%string, Js.Num 0) :: rest) initialBest).
    apply track_constant_scores; [| exact Ht].
    constructor; [reflexivity | exact Hrest].
  - intros t Ht. rewrite <- Hkeys in Ht.
    change (fold_left track rest (track initialBest ("INTP"%string, Js.Num 0)))
      with (fold_left track (("INTP"%string, Js.Num 0) :: rest) initialBest).
    rewrite track_typeScores by exact Ht. apply lookup_empty.
Qed.

End Unanswered.

(** C8.  With no answered forced-choice question and no answered Likert
    question, every dichotomy has [theta = 0] and category "Slight", the
    attitude strength map is all zeros, the sixteen types all score 0, and
    the strict comparison leaves the lead to the first declared type: the
    result is INTP with its stack Ti, Ne, Si, Fe and score 0. *)
Theorem C8_no_answers (itemParameters : list ItemParameter.t)
    (mbtiAnswers : gmap nat Answer) (attitudeAnswers : gmap string Answer)
    (allMbtiQuestions : list MbtiQuestion.t) (allAttitudeQuestions : list AttitudeQuestion.t) :
  (forall i params, itemParameters !! i = Some params -> mbtiAnswers !! (i + 1)%nat = None) ->
  (forall q, q ∈ allAttitudeQuestions -> attitudeAnswers !! AttitudeQuestion.id q = None) ->
  (forall entry, entry ∈ DICHOTOMY_CONFIG ->
     coreResult itemParameters mbtiAnswers allMbtiQuestions entry
     = Ok (entry.1, {| pcc := "Slight"; theta := Js.Num 0; pci := Js.Num 1 |}))
  /\ (forall f, f ∈ FUNCTIONS ->
        attitudeStrengthsOf attitudeAnswers allAttitudeQuestions !! f = Some (Js.Num 0))
  /\ head TYPE_FUNCTION_STACKS.*1 = Some "INTP"%string
  /\ exists scores : gmap string Js.number,
       calculateHybridResults itemParameters mbtiAnswers attitudeAnswers
         allMbtiQuestions allAttitudeQuestions
       = Ok {| finalType := "INTP";
               dominant := "Ti"; auxiliary := "Ne"; tertiary := "Si"; inferior := "Fe";
               score := Js.Num 0;
               allTypeScores := scores |}
       /\ (forall t, t ∈ TYPE_FUNCTION_STACKS.*1 -> scores !! t = Some (Js.Num 0))
       /\ (forall t, t ∉ TYPE_FUNCTION_STACKS.*1 -> scores !! t = None).
Proof.
  intros Hforced Hlikert. split; [| split; [| split]].
  - intros [d config] _. unfold coreResult.
    rewrite (unanswered_theta itemParameters mbtiAnswers allMbtiQuestions Hforced d).
    unfold mbind, outcome_bind. rewrite clarityIndex_zero, (getPccCategory_IZR 1).
    reflexivity.
  - intros f Hf. rewrite (attitudeStrengthsOf_unanswered _ _ Hlikert).
    apply initialStrengths_lookup. exact Hf.
  - reflexivity.
  - unfold calculateHybridResults. apply unanswered_result; try assumption.
    apply tableWeight_real.
Qed.

Lemma C8_no_answers_witness :
  exists scores : gmap string Js.number,
    calculateHybridResults [] ∅ ∅ [] []
    = Ok {| finalType := "INTP";
            dominant := "Ti"; auxiliary := "Ne"; tertiary := "Si"; inferior := "Fe";
            score := Js.Num 0;
            allTypeScores := scores |}
    /\ (forall t, t ∈ TYPE_FUNCTION_STACKS.*1 -> scores !! t = Some (Js.Num 0))
    /\ (forall t, t ∉ TYPE_FUNCTION_STACKS.*1 -> scores !! t = None).
Proof.
  apply (C8_no_answers [] ∅ ∅ [] []).
  - intros i params H. apply lookup_empty.
  - intros q H. apply lookup_empty.
Defined.

(** ** Malformed option lookups *)

Lemma newton_NaN (n : nat) (items : list Item) : newton n Js.NaN items = Js.NaN.
Proof.
  induction n as [| n IH]; [reflexivity |].
  cbn [newton]. destruct (derivatives Js.NaN items) as [firstDerivative secondDerivative].
  destruct (Js.lt (Js.abs secondDerivative) _); [reflexivity |].
  cbn. exact IH.
Qed.

Lemma derivatives_undefined_from (theta s0 : R) (f0 : Js.number) (items : list Item) :
  f0 = Js.NaN \/ Exists (fun item => u item = None) items ->
  fold_left
    (fun (acc : Js.number * Js.number) (item : Item) =>
       let '(firstDerivative, secondDerivative) := acc in
       let P := probability (Js.Num theta) (a item) (b item) in
       ((firstDerivative + a item * (Js.to_number (u item) - P))%js,
        (secondDerivative + - (a item) * a item * (1 - P) * P)%js))
    items (f0, Js.Num s0)
  = (Js.NaN, Js.Num (s0 + second_derivative_spec theta (List.map triple_of items))).
Proof.
  revert f0 s0. induction items as [| [a0 b0 u0] items IH]; intros f0 s0 H.
  - destruct H as [-> | H]; [| inversion H].
    cbn. unfold second_derivative_spec. cbn. rewrite Rplus_0_r. reflexivity.
  - cbn [fold_left a b u]. rewrite probability_Num.
    cbn [Js.mul Js.neg Js.sub Js.add].
    rewrite IH.
    + unfold second_derivative_spec, P_spec, sum. cbn [List.map triple_of fold_right a b].
      apply pair_equal_spec; split; [reflexivity |]. apply (f_equal Js.Num). ring.
    + destruct H as [-> | H]; [left; reflexivity |].
      apply Exists_cons in H as [H | H]; [| right; exact H].
      cbn in H. subst u0. left. cbn. apply add_NaN_r.
Qed.

Lemma derivatives_undefined (theta : R) (items : list Item) :
  Exists (fun item => u item = None) items ->
  derivatives (Js.Num theta) items
  = (Js.NaN, Js.Num (second_derivative_spec theta (List.map triple_of items))).
Proof.
  intros H. unfold derivatives. rewrite derivatives_undefined_from by (right; exact H).
  rewrite Rplus_0_l. reflexivity.
Qed.

(** With a response code that is [undefined] the first derivative is [NaN]:
    the loop stops at once on a flat second derivative and otherwise
    carries [NaN] to the end. *)
Lemma newton_undefined (n : nat) (items : list Item) :
  Exists (fun item => u item = None) items ->
  newton (S n) (Js.Num 0) items
  = if Rlt_dec (Rabs (second_derivative_spec 0 (List.map triple_of items))) 1e-9
    then Js.Num 0 else Js.NaN.
Proof.
  intros H. cbn [newton]. rewrite (derivatives_undefined 0 items H).
  cbn [Js.abs]. rewrite lt_Num. unfold Js.Rltb.
  destruct (Rlt_dec _ 1e-9); [reflexivity |].
  cbn. apply newton_NaN.
Qed.

(** ** The worked input: what the estimator sees *)

Lemma example_answered : answeredQuestionIndices example_items "E-I" example_answers = [0%nat].
Proof. vm_compute. reflexivity. Qed.

Lemma example_resolved :
  map_outcome (resolveItem example_items example_answers example_questions)
    (answeredQuestionIndices example_items "E-I" example_answers)
  = Ok (List.map item_of [(1, 0, 1)]).
Proof. rewrite example_answered. vm_compute. reflexivity. Qed.

Lemma example_binary : binary_codes example_questions.
Proof.
  intros q key o Hq Ho. apply list_elem_of_singleton in Hq. subst q.
  cbn [MbtiQuestion.options] in Ho.
  apply lookup_insert_Some in Ho as [[_ <-] | [_ Ho]]; [right; reflexivity |].
  apply lookup_singleton_Some in Ho as [_ <-]. left; reflexivity.
Qed.

Lemma example_own_choices : own_choices example_answers.
Proof.
  intros n answer H. unfold example_answers in H.
  apply lookup_singleton_Some in H as [_ <-]. reflexivity.
Qed.

Lemma example_moderate : moderate_items example_items.
Proof.
  unfold moderate_items, example_items. constructor; [| constructor].
  unfold moderate. cbn [ItemParameter.a ItemParameter.b]. lra.
Qed.

Lemma example_scored : scored example_questions.
Proof.
  intros q key o Hq Ho. apply list_elem_of_singleton in Hq. subst q.
  cbn [MbtiQuestion.options] in Ho.
  apply lookup_insert_Some in Ho as [[_ <-] | [_ Ho]]; [eexists; reflexivity |].
  apply lookup_singleton_Some in Ho as [_ <-]. eexists; reflexivity.
Qed.

Lemma example_estimate :
  findBestThetaForDichotomy example_items "E-I" example_answers example_questions
  = Ok (Js.Num (theta_spec 20 0 [(1, 0, 1)])).
Proof.
  rewrite (findBestTheta_resolved _ _ _ _ (List.map item_of [(1, 0, 1)])).
  - rewrite newton_Num. reflexivity.
  - rewrite example_answered. discriminate.
  - apply example_resolved.
Qed.

Lemma C2_newton_procedure_witness :
  findBestThetaForDichotomy example_items "E-I" example_answers example_questions
  = Ok (Js.Num (theta_spec 20 0 [(1, 0, 1)])).
Proof.
  apply C2_newton_procedure.
  - rewrite example_answered. discriminate.
  - apply example_resolved.
Defined.

Lemma C7_unanswered_dichotomy_witness :
  findBestThetaForDichotomy example_items "S-N" example_answers example_questions
  = Ok (Js.Num 0).
Proof.
  apply (C7_unanswered_dichotomy example_items "S-N"
           {| poles := ("S"%string, "N"%string); tieBreaker := "N" |}
           example_answers example_questions).
  intros i params Hi Hd. apply list_lookup_singleton_Some in Hi as [_ <-].
  discriminate Hd.
Defined.

Lemma C1_score_is_maximum_witness :
  exists (r : Result) (m : R),
    calculateHybridResults [] ∅ ∅ [] [] = Ok r
    /\ score r = Js.Num m
    /\ allTypeScores r !! finalType r = Some (Js.Num m).
Proof.
  destruct (unanswered_result [] tableWeight ATTITUDE_STACK_POSITION_WEIGHT ∅ ∅ [] []
              (tableWeight_real 0))
    as (scores & Hcalc & _).
  - intros i params H. apply lookup_empty.
  - intros q H. apply lookup_empty.
  - destruct (C1_score_is_maximum [] ∅ ∅ [] [] _ Hcalc) as (m & Hscore & Hfinal & _).
    eexists _, m. split; [exact Hcalc |]. split; [exact Hscore | exact Hfinal].
Defined.

(** ** Malformed option lookups: what is thrown, and where *)

Lemma resolveItem_missing_option (itemParameters : list ItemParameter.t)
    (answers : gmap nat Answer) (allQuestions : list MbtiQuestion.t)
    (qIndex : nat) (answer : Answer) (questionData : MbtiQuestion.t) :
  List.find (fun q => Nat.eqb (MbtiQuestion.number q) (qIndex + 1)) allQuestions
    = Some questionData ->
  answers !! (qIndex + 1)%nat = Some answer ->
  optionOf (MbtiQuestion.options questionData) (to_key (choice answer)) = None ->
  resolveItem itemParameters answers allQuestions qIndex = Throw (TypeError "scoreKey").
Proof. intros Hq Ha Ho. unfold resolveItem. rewrite Hq, Ha, Ho. reflexivity. Qed.

Lemma resolveItem_missing_scoreKey (itemParameters : list ItemParameter.t)
    (answers : gmap nat Answer) (allQuestions : list MbtiQuestion.t)
    (qIndex : nat) (answer : Answer) (questionData : MbtiQuestion.t) (item : Item) :
  List.find (fun q => Nat.eqb (MbtiQuestion.number q) (qIndex + 1)) allQuestions
    = Some questionData ->
  answers !! (qIndex + 1)%nat = Some answer ->
  optionOf (MbtiQuestion.options questionData) (to_key (choice answer)) = Some None ->
  resolveItem itemParameters answers allQuestions qIndex = Ok item ->
  u item = None.
Proof.
  intros Hq Ha Ho. unfold resolveItem. rewrite Hq, Ha, Ho.
  destruct (itemParameters !! qIndex); [| discriminate].
  intros [= <-]. reflexivity.
Qed.

(** The two ways in which the response code of a chosen option is
    [undefined] without the lookup throwing: the option is there without
    a [scoreKey], or it is not and its name is inherited. *)
Lemma optionOf_undefined (options : gmap string MbtiQuestion.option_entry) (key : string) :
  (exists o, options !! key = Some o /\ MbtiQuestion.scoreKey o = None)
  \/ (options !! key = None /\ inherited key = true) ->
  optionOf options key = Some None.
Proof.
  unfold optionOf. intros [(o & -> & ->) | [-> ->]]; reflexivity.
Qed.

Lemma optionOf_missing (options : gmap string MbtiQuestion.option_entry) (key : string) :
  options !! key = None -> inherited key = false -> optionOf options key = None.
Proof. unfold optionOf. intros -> ->. reflexivity. Qed.

Lemma findBestTheta_throws (itemParameters : list ItemParameter.t) (d : string)
    (answers : gmap nat Answer) (allQuestions : list MbtiQuestion.t) (i : nat) (e : error) :
  i ∈ answeredQuestionIndices itemParameters d answers ->
  resolveItem itemParameters answers allQuestions i = Throw e ->
  exists e', findBestThetaForDichotomy itemParameters d answers allQuestions = Throw e'.
Proof.
  intros Hin Hthrow. unfold findBestThetaForDichotomy.
  destruct (map_outcome_Throw _ _ _ _ Hin Hthrow) as [e' He'].
  destruct (answeredQuestionIndices itemParameters d answers) as [| j rest];
    [apply elem_of_nil in Hin; contradiction |].
  cbn [length Nat.eqb]. rewrite He'. exists e'. reflexivity.
Qed.

Lemma configured_cases (d : string) :
  is_Some (get DICHOTOMY_CONFIG d) -> d = "E-I"%string \/ d = "S-N"%string \/ d = "T-F"%string.
Proof.
  unfold DICHOTOMY_CONFIG. cbn [get].
  destruct (String.eqb_spec "E-I" d) as [<- | _]; [left; reflexivity |].
  destruct (String.eqb_spec "S-N" d) as [<- | _]; [right; left; reflexivity |].
  destruct (String.eqb_spec "T-F" d) as [<- | _]; [right; right; reflexivity |].
  intros [x H]. discriminate H.
Qed.

Lemma calculate_throws (itemParameters : list ItemParameter.t)
    (clarityWeight : CoreResult -> Js.number) (positionWeight : PositionWeight)
    (mbtiAnswers : gmap nat Answer) (attitudeAnswers : gmap string Answer)
    (allMbtiQuestions : list MbtiQuestion.t) (allAttitudeQuestions : list AttitudeQuestion.t)
    (d : string) (e : error) :
  is_Some (get DICHOTOMY_CONFIG d) ->
  findBestThetaForDichotomy itemParameters d mbtiAnswers allMbtiQuestions = Throw e ->
  exists e',
    calculateHybridResultsWith itemParameters clarityWeight positionWeight
      mbtiAnswers attitudeAnswers allMbtiQuestions allAttitudeQuestions = Throw e'.
Proof.
  intros Hd Hthrow. rewrite calculate_unfold.
  destruct (configured_cases d Hd) as [-> | [-> | ->]]; rewrite ?Hthrow.
  - eexists; reflexivity.
  - destruct (findBestThetaForDichotomy itemParameters "E-I" _ _); eexists; reflexivity.
  - destruct (findBestThetaForDichotomy itemParameters "E-I" _ _);
      [destruct (findBestThetaForDichotomy itemParameters "S-N" _ _) |];
      eexists; reflexivity.
Qed.

Lemma calculate_NaN (itemParameters : list ItemParameter.t)
    (clarityWeight : CoreResult -> Js.number) (positionWeight : PositionWeight)
    (mbtiAnswers : gmap nat Answer) (attitudeAnswers : gmap string Answer)
    (allMbtiQuestions : list MbtiQuestion.t) (allAttitudeQuestions : list AttitudeQuestion.t)
    (ei sn tf : Js.number) :
  findBestThetaForDichotomy itemParameters "E-I" mbtiAnswers allMbtiQuestions = Ok ei ->
  findBestThetaForDichotomy itemParameters "S-N" mbtiAnswers allMbtiQuestions = Ok sn ->
  findBestThetaForDichotomy itemParameters "T-F" mbtiAnswers allMbtiQuestions = Ok tf ->
  ei = Js.NaN \/ sn = Js.NaN \/ tf = Js.NaN ->
  calculateHybridResultsWith itemParameters clarityWeight positionWeight
    mbtiAnswers attitudeAnswers allMbtiQuestions allAttitudeQuestions
  = Throw (TypeError "0").
Proof.
  intros Hei Hsn Htf Hnan. rewrite calculate_unfold, Hei, Hsn, Htf.
  apply finalize_NaN. exact Hnan.
Qed.

Lemma findBestTheta_undefined (itemParameters : list ItemParameter.t) (d : string)
    (answers : gmap nat Answer) (allQuestions : list MbtiQuestion.t) (items : list Item) :
  map_outcome (resolveItem itemParameters answers allQuestions)
    (answeredQuestionIndices itemParameters d answers) = Ok items ->
  Exists (fun item => u item = None) items ->
  findBestThetaForDichotomy itemParameters d answers allQuestions
  = Ok (if Rlt_dec (Rabs (second_derivative_spec 0 (List.map triple_of items))) 1e-9
        then Js.Num 0 else Js.NaN).
Proof.
  intros Hmap Hex.
  rewrite (findBestTheta_resolved _ _ _ _ items); [| | exact Hmap].
  - rewrite newton_undefined by exact Hex. reflexivity.
  - intros E. rewrite E in Hmap. cbn in Hmap. apply Ok_inj in Hmap. subst items.
    inversion Hex.
Qed.

Lemma map_outcome_elem {A B : Type} (f : A -> outcome B) (xs : list A) (ys : list B) (x : A) :
  map_outcome f xs = Ok ys -> x ∈ xs -> exists y, y ∈ ys /\ f x = Ok y.
Proof.
  intros Hmap Hin. apply map_outcome_Ok in Hmap.
  induction Hmap as [| x0 y0 xs ys Hxy _ IH]; [apply elem_of_nil in Hin; contradiction |].
  apply elem_of_cons in Hin as [-> | Hin].
  - exists y0. split; [apply list_elem_of_here | exact Hxy].
  - destruct (IH Hin) as (y & Hy & Hf). exists y. split; [| exact Hf].
    apply list_elem_of_further. exact Hy.
Qed.

(** C3, as the code has it.  For an answered question of the dichotomy whose
    chosen option is looked up in the metadata: when the question has no
    entry for the chosen option and the choice names no property the
    options inherit from [Object.prototype], reading [scoreKey] throws the
    engine's [TypeError], the estimator and the invocation throw; when the
    entry is there without a [scoreKey], or is not there and the choice
    names an inherited property, nothing is thrown at the lookup, the
    estimator (on item parameters of moderate magnitude) returns 0 if the
    second derivative at [theta = 0] is below [1e-9] in magnitude and [NaN]
    otherwise, and with a [NaN] estimate the invocation throws only when it
    reads the stack of the final type. *)
Theorem C3_malformed_lookup (itemParameters : list ItemParameter.t) (d : string)
    (answers : gmap nat Answer) (allQuestions : list MbtiQuestion.t)
    (i : nat) (answer : Answer) (questionData : MbtiQuestion.t) :
  i ∈ answeredQuestionIndices itemParameters d answers ->
  answers !! (i + 1)%nat = Some answer ->
  List.find (fun q => Nat.eqb (MbtiQuestion.number q) (i + 1)) allQuestions
    = Some questionData ->
  (MbtiQuestion.options questionData !! to_key (choice answer) = None ->
   inherited (to_key (choice answer)) = false ->
     resolveItem itemParameters answers allQuestions i = Throw (TypeError "scoreKey")
     /\ (exists e, findBestThetaForDichotomy itemParameters d answers allQuestions = Throw e)
     /\ forall attitudeAnswers allAttitudeQuestions,
          exists e, calculateHybridResults itemParameters answers attitudeAnswers
                      allQuestions allAttitudeQuestions = Throw e)
  /\ (forall items : list Item,
        moderate_items itemParameters ->
        (exists o, MbtiQuestion.options questionData !! to_key (choice answer) = Some o
                   /\ MbtiQuestion.scoreKey o = None)
        \/ (MbtiQuestion.options questionData !! to_key (choice answer) = None
            /\ inherited (to_key (choice answer)) = true) ->
        map_outcome (resolveItem itemParameters answers allQuestions)
          (answeredQuestionIndices itemParameters d answers) = Ok items ->
        findBestThetaForDichotomy itemParameters d answers allQuestions
        = Ok (if Rlt_dec (Rabs (second_derivative_spec 0 (List.map triple_of items))) 1e-9
              then Js.Num 0 else Js.NaN)
        /\ forall attitudeAnswers allAttitudeQuestions ei sn tf,
             ~ Rabs (second_derivative_spec 0 (List.map triple_of items)) < 1e-9 ->
             findBestThetaForDichotomy itemParameters "E-I" answers allQuestions = Ok ei ->
             findBestThetaForDichotomy itemParameters "S-N" answers allQuestions = Ok sn ->
             findBestThetaForDichotomy itemParameters "T-F" answers allQuestions = Ok tf ->
             calculateHybridResults itemParameters answers attitudeAnswers
               allQuestions allAttitudeQuestions = Throw (TypeError "0")).
Proof.
  intros Hin Hans Hfind.
  assert (is_Some (get DICHOTOMY_CONFIG d)) as Hd by (apply answered_elem in Hin; tauto).
  split.
  - intros Hopt Hplain.
    pose proof (resolveItem_missing_option itemParameters _ _ _ _ _ Hfind Hans
                  (optionOf_missing _ _ Hopt Hplain)) as Hthrow.
    split; [exact Hthrow |].
    destruct (findBestTheta_throws _ _ _ _ _ _ Hin Hthrow) as [e He].
    split; [exists e; exact He |].
    intros attitudeAnswers allAttitudeQuestions.
    unfold calculateHybridResults.
    exact (calculate_throws _ _ _ _ _ _ _ d e Hd He).
  - intros items _ Hopt Hmap.
    assert (Exists (fun item => u item = None) items) as Hex.
    { destruct (map_outcome_elem _ _ _ _ Hmap Hin) as (item & Hitem & Hres).
      apply Exists_exists. exists item. split; [exact Hitem |].
      exact (resolveItem_missing_scoreKey _ _ _ _ _ _ _ Hfind Hans
               (optionOf_undefined _ _ Hopt) Hres). }
    pose proof (findBestTheta_undefined _ _ _ _ _ Hmap Hex) as Hest.
    split; [exact Hest |].
    intros attitudeAnswers allAttitudeQuestions ei sn tf Hsteep Hei Hsn Htf.
    destruct (Rlt_dec _ 1e-9) as [Hflat | _] in Hest; [contradiction |].
    unfold calculateHybridResults.
    apply (calculate_NaN _ _ _ _ _ _ _ ei sn tf Hei Hsn Htf).
    destruct (configured_cases d Hd) as [-> | [-> | ->]];
      [left | right; left | right; right]; congruence.
Qed.

Lemma unscored_resolved (itemParameters : list ItemParameter.t) (d : string) (a0 b0 : R) :
  itemParameters !! 0%nat
    = Some {| ItemParameter.dichotomy := d; ItemParameter.a := a0; ItemParameter.b := b0 |} ->
  map_outcome (resolveItem itemParameters example_answers unscored_questions) [0%nat]
  = Ok [ {| a := a0; b := b0; u := None |} ].
Proof.
  intros H. cbn [map_outcome]. unfold resolveItem. rewrite H. reflexivity.
Qed.

Lemma second_derivative_single (a0 u0 : R) :
  second_derivative_spec 0 [(a0, 0, u0)] = - a0 ^ 2 / 4.
Proof.
  unfold second_derivative_spec, P_spec, sum. cbn [List.map fold_right].
  replace (- a0 * (0 - 0)) with 0 by ring. rewrite exp_0. field.
Qed.

Lemma unscored_estimate :
  findBestThetaForDichotomy example_items "E-I" example_answers unscored_questions
  = Ok Js.NaN.
Proof.
  rewrite (findBestTheta_undefined _ _ _ _
             [ {| a := 1; b := 0; u := None |} ]).
  - change (List.map triple_of [ {| a := 1; b := 0; u := None |} ]) with [(1, 0, 0)].
    rewrite second_derivative_single.
    destruct (Rlt_dec _ _) as [H | _]; [| reflexivity].
    exfalso. rewrite Rabs_left in H by lra. lra.
  - rewrite example_answered. apply (unscored_resolved example_items "E-I"). reflexivity.
  - apply Exists_cons_hd. reflexivity.
Qed.

Lemma inherited_estimate :
  findBestThetaForDichotomy example_items "E-I" inherited_answers example_questions
  = Ok Js.NaN.
Proof.
  rewrite (findBestTheta_undefined _ _ _ _
             [ {| a := 1; b := 0; u := None |} ]).
  - change (List.map triple_of [ {| a := 1; b := 0; u := None |} ]) with [(1, 0, 0)].
    rewrite second_derivative_single.
    destruct (Rlt_dec _ _) as [H | _]; [| reflexivity].
    exfalso. rewrite Rabs_left in H by lra. lra.
  - vm_compute. reflexivity.
  - apply Exists_cons_hd. reflexivity.
Qed.

(** Against C4 as stated: on these inputs the estimator returns [NaN], which
    is in no interval.  In the first the chosen option has no [scoreKey];
    in the second every option has one, and the choice [toString] reads a
    function the options inherit. *)
Lemma C4_counterexample :
  findBestThetaForDichotomy example_items "E-I" example_answers unscored_questions
  = Ok Js.NaN
  /\ findBestThetaForDichotomy example_items "E-I" inherited_answers example_questions
     = Ok Js.NaN
  /\ binary_codes example_questions
  /\ ~ exists t : R, Js.NaN = Js.Num t /\ -3 <= t <= 3.
Proof.
  split; [apply unscored_estimate |].
  split; [apply inherited_estimate |].
  split; [apply example_binary |].
  intros (t & H & _). discriminate H.
Qed.

Lemma C3_malformed_lookup_witness :
  findBestThetaForDichotomy example_items "E-I" example_answers unscored_questions
  = Ok (if Rlt_dec (Rabs (second_derivative_spec 0
                            (List.map triple_of [ {| a := 1; b := 0; u := None |} ]))) 1e-9
        then Js.Num 0 else Js.NaN).
Proof.
  refine (proj1 (proj2 (C3_malformed_lookup example_items "E-I" example_answers
                          unscored_questions 0%nat {| choice := VStr "A" |}
                          {| MbtiQuestion.number := 1;
                             MbtiQuestion.options :=
                               {[ "A"%string := {| MbtiQuestion.scoreKey := None |} ]} |}
                          _ eq_refl eq_refl)
                  [ {| a := 1; b := 0; u := None |} ] example_moderate _ _)).
  - rewrite example_answered. apply list_elem_of_here.
  - left. eexists. split; reflexivity.
  - rewrite example_answered. apply (unscored_resolved example_items "E-I"). reflexivity.
Defined.

Lemma unscored_invocation :
  calculateHybridResults example_items example_answers ∅ unscored_questions []
  = Throw (TypeError "0").
Proof.
  apply (calculate_NaN _ _ _ _ _ _ _ Js.NaN (Js.Num 0) (Js.Num 0)).
  - apply unscored_estimate.
  - apply findBestTheta_unanswered. vm_compute. reflexivity.
  - apply findBestTheta_unanswered. vm_compute. reflexivity.
  - left. reflexivity.
Qed.

Lemma faint_answered : answeredQuestionIndices faint_items "E-I" example_answers = [0%nat].
Proof. vm_compute. reflexivity. Qed.

Lemma faint_estimate :
  findBestThetaForDichotomy faint_items "E-I" example_answers unscored_questions
  = Ok (Js.Num 0).
Proof.
  rewrite (findBestTheta_undefined _ _ _ _
             [ {| a := 1e-5; b := 0; u := None |} ]).
  - change (List.map triple_of [ {| a := 1e-5; b := 0; u := None |} ]) with [(1e-5, 0, 0)].
    rewrite second_derivative_single.
    destruct (Rlt_dec _ _) as [_ | H]; [reflexivity |].
    exfalso. apply H. rewrite Rabs_left by lra. lra.
  - rewrite faint_answered. apply (unscored_resolved faint_items "E-I"). reflexivity.
  - apply Exists_cons_hd. reflexivity.
Qed.

(** Against C3 as stated: option A, the chosen one, has no [scoreKey], and
    yet nothing fails; the estimator returns 0 and the invocation returns a
    result. *)
Lemma C3_counterexample :
  example_answers !! 1%nat = Some {| choice := VStr "A" |}
  /\ (exists questionData,
        unscored_questions = [questionData]
        /\ MbtiQuestion.options questionData !! to_key (VStr "A")
           = Some {| MbtiQuestion.scoreKey := None |})
  /\ findBestThetaForDichotomy faint_items "E-I" example_answers unscored_questions
     = Ok (Js.Num 0)
  /\ exists r,
       calculateHybridResults faint_items example_answers ∅ unscored_questions [] = Ok r.
Proof.
  split; [reflexivity |].
  split; [eexists; split; reflexivity |].
  split; [apply faint_estimate |].
  unfold calculateHybridResults. apply calculate_returns; [apply tableWeight_real |].
  intros d Hd. exists 0.
  unfold DICHOTOMY_CONFIG in Hd. cbn [fmap list_fmap fst] in Hd.
  apply elem_of_cons in Hd as [-> | Hd]; [apply faint_estimate |].
  apply elem_of_cons in Hd as [-> | Hd];
    [apply findBestTheta_unanswered; vm_compute; reflexivity |].
  apply list_elem_of_singleton in Hd as ->.
  apply findBestTheta_unanswered. vm_compute. reflexivity.
Qed.

(** ** The worked input, evaluated

    With one item [a = 1], [b = 0] answered towards its pole ([u = 1]) the
    Newton step from [theta] is [theta + 1 + exp (- theta)]: the iterates are
    0, 2, 3 (clamped), 3, and the estimate is the bound 3. *)

Lemma single_second (t : R) :
  second_derivative_spec t [(1, 0, 1)]
  = - (Rtrigo_def.exp (- t) / (1 + Rtrigo_def.exp (- t)) ^ 2).
Proof.
  unfold second_derivative_spec, P_spec, sum. cbn [List.map fold_right].
  replace (- (1) * (t - 0)) with (- t) by ring.
  pose proof (exp_pos (- t)). field. lra.
Qed.

Lemma single_first (t : R) :
  first_derivative_spec t [(1, 0, 1)]
  = Rtrigo_def.exp (- t) / (1 + Rtrigo_def.exp (- t)).
Proof.
  unfold first_derivative_spec, P_spec, sum. cbn [List.map fold_right].
  replace (- (1) * (t - 0)) with (- t) by ring.
  pose proof (exp_pos (- t)). field. lra.
Qed.

Lemma single_step (n : nat) (t E : R) :
  Rtrigo_def.exp (- t) = E -> / 27 <= E <= 1 ->
  theta_spec (S n) t [(1, 0, 1)]
  = if Rlt_dec (Rabs (clamp_spec (t + 1 + E) - t)) 1e-4
    then clamp_spec (t + 1 + E)
    else theta_spec n (clamp_spec (t + 1 + E)) [(1, 0, 1)].
Proof.
  intros HE Hbound. cbn [theta_spec]. rewrite single_second, single_first, HE.
  assert (/ 108 <= E / (1 + E) ^ 2) as Hsteep.
  { apply (Rmult_le_reg_r ((1 + E) ^ 2)); [nra |].
    replace (E / (1 + E) ^ 2 * (1 + E) ^ 2) with E by (field; lra). nra. }
  destruct (Rlt_dec (Rabs (- (E / (1 + E) ^ 2))) 1e-9) as [Hflat | _].
  { exfalso. rewrite Rabs_Ropp, Rabs_pos_eq in Hflat by lra. lra. }
  replace (t - E / (1 + E) / - (E / (1 + E) ^ 2)) with (t + 1 + E) by (field; lra).
  reflexivity.
Qed.

Lemma exp_neg_2 : / 27 <= Rtrigo_def.exp (- (2)) <= 1.
Proof.
  rewrite exp_Ropp. replace 2 with (1 + 1) by ring. rewrite exp_plus.
  pose proof exp_le_3. pose proof (exp_ineq1_le 1).
  split.
  - apply Rinv_le_contravar; nra.
  - apply Rle_trans with (/ 1); [apply Rinv_le_contravar; nra | rewrite Rinv_1; lra].
Qed.

Lemma exp_neg_3 : / 27 <= Rtrigo_def.exp (- (3)) <= 1.
Proof.
  rewrite exp_Ropp. replace 3 with (1 + (1 + 1)) by ring. rewrite !exp_plus.
  pose proof exp_le_3. pose proof (exp_ineq1_le 1).
  assert (1 <= Rtrigo_def.exp 1 * Rtrigo_def.exp 1 <= 9) by nra.
  split.
  - apply Rinv_le_contravar; nra.
  - apply Rle_trans with (/ 1); [apply Rinv_le_contravar; nra | rewrite Rinv_1; lra].
Qed.

Lemma clamp_spec_inside (x : R) : -3 <= x <= 3 -> clamp_spec x = x.
Proof.
  intros H. unfold clamp_spec, Rmax, Rmin.
  destruct (Rle_dec 3 x); destruct (Rle_dec (-3) _); lra.
Qed.

Lemma clamp_spec_above (x : R) : 3 <= x -> clamp_spec x = 3.
Proof.
  intros H. unfold clamp_spec, Rmax, Rmin.
  destruct (Rle_dec 3 x); destruct (Rle_dec (-3) _); lra.
Qed.

Lemma extreme_theta : theta_spec 20 0 [(1, 0, 1)] = 3.
Proof.
  rewrite (single_step _ 0 1) by (rewrite ?Ropp_0, ?exp_0; lra).
  rewrite clamp_spec_inside by lra.
  destruct (Rlt_dec _ _) as [H | _].
  { exfalso. rewrite Rabs_pos_eq in H by lra. lra. }
  replace (0 + 1 + 1) with 2 by ring.
  pose proof exp_neg_2 as H2.
  rewrite (single_step _ 2 _ eq_refl H2).
  rewrite clamp_spec_above by lra.
  destruct (Rlt_dec _ _) as [H | _].
  { exfalso. rewrite Rabs_pos_eq in H by lra. lra. }
  pose proof exp_neg_3 as H3.
  rewrite (single_step _ 3 _ eq_refl H3).
  rewrite clamp_spec_above by lra.
  destruct (Rlt_dec _ _) as [_ | H]; [reflexivity |].
  exfalso. apply H. replace (3 - 3) with 0 by ring. rewrite Rabs_R0. lra.
Qed.

Lemma extreme_estimate :
  findBestThetaForDichotomy example_items "E-I" example_answers example_questions
  = Ok (Js.Num 3).
Proof. rewrite example_estimate, extreme_theta. reflexivity. Qed.

Lemma C4_theta_in_range_witness :
  exists t : R, Js.Num 3 = Js.Num t /\ -3 <= t <= 3.
Proof.
  apply (C4_theta_in_range example_items "E-I" example_answers example_questions).
  - apply example_binary.
  - apply example_own_choices.
  - apply example_moderate.
  - apply extreme_estimate.
Defined.

(** ** The worked input, end to end

    The estimate 3 on E-I has index 30 and category "Very Clear", weight
    8: the Extraverted types score 24 and the others -24, and the first
    Extraverted type of the table, ENTP, is the result. *)

Lemma tableWeight_three : tableWeight (coreOf (Js.Num 3)) = Js.Num 8.0.
Proof.
  unfold tableWeight, coreOf. cbn [pcc]. rewrite clarityIndex_Num.
  assert (pci_spec 3 = 30%Z) as ->.
  { unfold pci_spec. destruct (Req_dec_T 3 0) as [H | _]; [lra |].
    replace (Rabs 3 / 3.0 * 30) with (IZR 30) by (rewrite Rabs_pos_eq by lra; lra).
    rewrite round_half_up_IZR. reflexivity. }
  rewrite get_weight_of_category. reflexivity.
Qed.

Lemma tableWeight_zero : tableWeight (coreOf (Js.Num 0)) = Js.Num 2.0.
Proof. rewrite coreOf_zero. reflexivity. Qed.

Lemma extraverted_score (entry : string * (string * string * string * string)) :
  entry ∈ TYPE_FUNCTION_STACKS ->
  scoreOf tableWeight ATTITUDE_STACK_POSITION_WEIGHT
    (coreOf (Js.Num 3)) (coreOf (Js.Num 0)) (coreOf (Js.Num 0)) initialStrengths
    entry.1 entry.2
  = Js.Num (if startsWith entry.1 "E" then 24 else -24).
Proof.
  intros Hin. pose proof stacks_use_functions as Hall.
  rewrite Forall_forall in Hall. specialize (Hall _ Hin).
  destruct entry as [type [[[d a0] t] i]]. cbn [fst snd] in Hall |- *.
  destruct Hall as (Hd & Ha & Ht & Hi).
  rewrite (scoreOf_real tableWeight ATTITUDE_STACK_POSITION_WEIGHT _ _ _ _ type d a0 t i
             3 0 0 8.0 2.0 2.0 0 0 0 0);
    try reflexivity; try (apply initialStrengths_lookup; assumption);
    try apply tableWeight_three; try apply tableWeight_zero.
  apply (f_equal Js.Num). unfold ATTITUDE_SCORE_WEIGHT.
  cbn [dom aux ter inf ATTITUDE_STACK_POSITION_WEIGHT].
  destruct (startsWith type "E"), (includes type "S"), (includes type "T"); lra.
Qed.

Lemma extraverted_lead (n c : R) (rest : list (string * Js.number)) :
  n < c ->
  Forall (fun e => exists x : R, e.2 = Js.Num x /\ x <= c) rest ->
  bestFitType
    (fold_left track (("INTP"%string, Js.Num n) :: ("ENTP"%string, Js.Num c) :: rest)
       initialBest)
  = Some "ENTP"%string
  /\ maxScore
       (fold_left track (("INTP"%string, Js.Num n) :: ("ENTP"%string, Js.Num c) :: rest)
          initialBest)
     = Js.Num c.
Proof.
  intros Hc Hrest. cbn [fold_left].
  apply track_lead; [| | exact Hrest].
  - unfold track at 1. cbn [maxScore track initialBest Js.gt Js.lt].
    rewrite Rltb_true by lra. reflexivity.
  - unfold track at 1. cbn [maxScore track initialBest Js.gt Js.lt].
    rewrite Rltb_true by lra. reflexivity.
Qed.

Lemma extraverted_result :
  exists scores : gmap string Js.number,
    calculateHybridResults example_items example_answers ∅ example_questions []
    = Ok {| finalType := "ENTP";
            dominant := "Ne"; auxiliary := "Ti"; tertiary := "Fe"; inferior := "Si";
            score := Js.Num 24;
            allTypeScores := scores |}.
Proof.
  unfold calculateHybridResults. rewrite calculate_unfold, extreme_estimate.
  rewrite !findBestTheta_unanswered by (vm_compute; reflexivity).
  change (attitudeStrengthsOf ∅ []) with initialStrengths.
  rewrite considerType_track.
  set (l := List.map _ TYPE_FUNCTION_STACKS).
  assert (l = List.map (fun entry : string * (string * string * string * string) =>
                          (entry.1, Js.Num (if startsWith entry.1 "E" then 24 else -24)))
                TYPE_FUNCTION_STACKS) as ->.
  { unfold l. apply map_ext_in. intros entry Hin. f_equal.
    apply extraverted_score, list_elem_of_In. exact Hin. }
  unfold TYPE_FUNCTION_STACKS at 1. cbn [List.map fst].
  repeat match goal with
         | |- context [startsWith ?s ?t] =>
             let v := eval vm_compute in (startsWith s t) in
             change (startsWith s t) with v
         end.
  cbn iota.
  match goal with
  | |- context [fold_left track (_ :: _ :: ?rest) initialBest] =>
      destruct (extraverted_lead (-24) 24 rest) as [Hb Hm]; [lra | |]
  end.
  { repeat (constructor; [eexists; split; [reflexivity | lra] |]). constructor. }
  eexists. unfold finalize. rewrite Hb, Hm. reflexivity.
Qed.

(** * Further properties of the engine *)

(** ** The response curve *)

Lemma P_spec_bounds (t a b : R) : 0 < P_spec t a b < 1.
Proof.
  unfold P_spec. pose proof (exp_pos (- a * (t - b))) as He.
  split.
  - apply Rdiv_lt_0_compat; lra.
  - apply (Rmult_lt_reg_r (1 + Rtrigo_def.exp (- a * (t - b)))); [lra |].
    replace (1 / (1 + Rtrigo_def.exp (- a * (t - b))) * (1 + Rtrigo_def.exp (- a * (t - b))))
      with 1 by (field; lra).
    lra.
Qed.

Lemma exp_le_mono (x y : R) : x <= y -> Rtrigo_def.exp x <= Rtrigo_def.exp y.
Proof.
  intros [Hlt | ->]; [| lra]. left. apply exp_increasing. exact Hlt.
Qed.

Lemma P_spec_monotone (t1 t2 a b : R) :
  0 <= a -> t1 <= t2 -> P_spec t1 a b <= P_spec t2 a b.
Proof.
  intros Ha Ht. unfold P_spec.
  pose proof (exp_pos (- a * (t1 - b))) as H1.
  pose proof (exp_pos (- a * (t2 - b))) as H2.
  assert (Rtrigo_def.exp (- a * (t2 - b)) <= Rtrigo_def.exp (- a * (t1 - b))) as Hle
    by (apply exp_le_mono; nra).
  unfold Rdiv. rewrite !Rmult_1_l. apply Rinv_le_contravar; lra.
Qed.

(** X1.  [probability] of arguments of moderate magnitude is a number
    between 0 and 1; it is one half at [theta = b]; and for a non-negative
    discrimination it does not decrease when [theta] grows. *)
Theorem X1_probability_logistic (t a b : R) :
  moderate t -> moderate a -> moderate b ->
  (exists p : R, probability (Js.Num t) (Js.Num a) (Js.Num b) = Js.Num p /\ 0 <= p <= 1)
  /\ probability (Js.Num b) (Js.Num a) (Js.Num b) = Js.Num (1 / 2)
  /\ forall t' p p' : R,
       moderate t' -> 0 <= a -> t <= t' ->
       probability (Js.Num t) (Js.Num a) (Js.Num b) = Js.Num p ->
       probability (Js.Num t') (Js.Num a) (Js.Num b) = Js.Num p' ->
       p <= p'.
Proof.
  intros _ _ _. split; [| split].
  - rewrite probability_Num. eexists. split; [reflexivity |].
    pose proof (P_spec_bounds t a b) as H. unfold P_spec in H. lra.
  - rewrite probability_Num. apply (f_equal Js.Num).
    replace (- a * (b - b)) with 0 by ring. rewrite exp_0. lra.
  - intros t' p p' _ Ha Ht. rewrite !probability_Num.
    intros [= <-] [= <-]. apply (P_spec_monotone t t' a b Ha Ht).
Qed.

Lemma X1_probability_logistic_witness :
  exists p p' : R,
    probability (Js.Num 0) (Js.Num 1) (Js.Num 0) = Js.Num p
    /\ probability (Js.Num 2) (Js.Num 1) (Js.Num 0) = Js.Num p'
    /\ p <= p'.
Proof.
  assert (moderate 0 /\ moderate 1 /\ moderate 2) as (H0 & H1 & H2)
    by (unfold moderate; lra).
  eexists _, _. split; [apply probability_Num |]. split; [apply probability_Num |].
  apply (proj2 (proj2 (X1_probability_logistic 0 1 0 H0 H1 H0)) 2);
    try lra; try exact H2; apply probability_Num.
Defined.

(** ** The direction of the estimate *)

Lemma theta_spec_nil (n : nat) (t : R) : theta_spec n t [] = t.
Proof.
  destruct n as [| n]; [reflexivity |]. cbn [theta_spec].
  unfold second_derivative_spec. cbn [List.map sum fold_right].
  destruct (Rlt_dec (Rabs 0) 1e-9) as [_ | H]; [reflexivity |].
  exfalso. apply H. rewrite Rabs_R0. lra.
Qed.

Lemma findBestTheta_spec (itemParameters : list ItemParameter.t) (d : string)
    (answers : gmap nat Answer) (allQuestions : list MbtiQuestion.t)
    (triples : list (R * R * R)) :
  map_outcome (resolveItem itemParameters answers allQuestions)
    (answeredQuestionIndices itemParameters d answers) = Ok (List.map item_of triples) ->
  findBestThetaForDichotomy itemParameters d answers allQuestions
  = Ok (Js.Num (theta_spec 20 0 triples)).
Proof.
  intros Hmap.
  destruct (answeredQuestionIndices itemParameters d answers) as [| i rest] eqn:E.
  - rewrite findBestTheta_unanswered by exact E.
    cbn [map_outcome] in Hmap. apply Ok_inj in Hmap. destruct triples; [| discriminate Hmap].
    rewrite theta_spec_nil. reflexivity.
  - rewrite (findBestTheta_resolved _ _ _ _ (List.map item_of triples)).
    + rewrite newton_Num. reflexivity.
    + rewrite E. discriminate.
    + rewrite E. exact Hmap.
Qed.

Lemma second_derivative_nonpos (t : R) (items : list (R * R * R)) :
  second_derivative_spec t items <= 0.
Proof.
  unfold second_derivative_spec, sum.
  induction items as [| [[a0 b0] u0] items IH]; cbn [List.map fold_right]; [lra |].
  pose proof (P_spec_bounds t a0 b0) as [Hp0 Hp1].
  assert (0 <= a0 ^ 2 * ((1 - P_spec t a0 b0) * P_spec t a0 b0)) as Hterm.
  { apply Rmult_le_pos; [apply pow2_ge_0 | apply Rmult_le_pos; lra]. }
  lra.
Qed.

Lemma first_derivative_towards (t : R) (items : list (R * R * R)) :
  (Forall (fun i : R * R * R => 0 < i.1.1 /\ i.2 = 1) items ->
   0 <= first_derivative_spec t items)
  /\ (Forall (fun i : R * R * R => 0 < i.1.1 /\ i.2 = 0) items ->
      first_derivative_spec t items <= 0).
Proof.
  unfold first_derivative_spec, sum. split; intros Hall.
  - induction Hall as [| [[a0 b0] u0] items [Ha Hu] _ IH]; cbn [List.map fold_right]; [lra |].
    cbn in Ha, Hu. subst u0. pose proof (P_spec_bounds t a0 b0). nra.
  - induction Hall as [| [[a0 b0] u0] items [Ha Hu] _ IH]; cbn [List.map fold_right]; [lra |].
    cbn in Ha, Hu. subst u0. pose proof (P_spec_bounds t a0 b0). nra.
Qed.

Lemma clamp_spec_monotone (x y : R) : x <= y -> clamp_spec x <= clamp_spec y.
Proof.
  intros H. unfold clamp_spec, Rmax, Rmin.
  destruct (Rle_dec 3 x), (Rle_dec 3 y);
    repeat match goal with |- context [Rle_dec ?p ?q] => destruct (Rle_dec p q) end; lra.
Qed.

Lemma theta_spec_towards_one (n : nat) (t : R) (items : list (R * R * R)) :
  Forall (fun i : R * R * R => 0 < i.1.1 /\ i.2 = 1) items ->
  -3 <= t <= 3 -> t <= theta_spec n t items.
Proof.
  intros Hall. revert t. induction n as [| n IH]; intros t Ht; cbn [theta_spec]; [lra |].
  pose proof (second_derivative_nonpos t items) as Hs.
  pose proof (proj1 (first_derivative_towards t items) Hall) as Hf.
  destruct (Rlt_dec _ 1e-9) as [_ | Hsteep]; [lra |].
  assert (second_derivative_spec t items < 0) as Hneg.
  { destruct Hs as [Hs | Hs]; [exact Hs |]. exfalso. apply Hsteep.
    rewrite Hs, Rabs_R0. lra. }
  assert (first_derivative_spec t items / second_derivative_spec t items <= 0) as Hstep.
  { unfold Rdiv. assert (/ second_derivative_spec t items < 0) by (apply Rinv_lt_0_compat; lra).
    nra. }
  assert (t <= clamp_spec (t - first_derivative_spec t items / second_derivative_spec t items))
    as Hup.
  { apply Rle_trans with (clamp_spec t); [| apply clamp_spec_monotone; lra].
    rewrite clamp_spec_inside by exact Ht. lra. }
  destruct (Rlt_dec _ 1e-4); [exact Hup |].
  etransitivity; [exact Hup |]. apply IH. apply clamp_spec_range.
Qed.

Lemma theta_spec_towards_zero (n : nat) (t : R) (items : list (R * R * R)) :
  Forall (fun i : R * R * R => 0 < i.1.1 /\ i.2 = 0) items ->
  -3 <= t <= 3 -> theta_spec n t items <= t.
Proof.
  intros Hall. revert t. induction n as [| n IH]; intros t Ht; cbn [theta_spec]; [lra |].
  pose proof (second_derivative_nonpos t items) as Hs.
  pose proof (proj2 (first_derivative_towards t items) Hall) as Hf.
  destruct (Rlt_dec _ 1e-9) as [_ | Hsteep]; [lra |].
  assert (second_derivative_spec t items < 0) as Hneg.
  { destruct Hs as [Hs | Hs]; [exact Hs |]. exfalso. apply Hsteep.
    rewrite Hs, Rabs_R0. lra. }
  assert (0 <= first_derivative_spec t items / second_derivative_spec t items) as Hstep.
  { unfold Rdiv. assert (/ second_derivative_spec t items < 0) by (apply Rinv_lt_0_compat; lra).
    nra. }
  assert (clamp_spec (t - first_derivative_spec t items / second_derivative_spec t items) <= t)
    as Hdown.
  { apply Rle_trans with (clamp_spec t); [apply clamp_spec_monotone; lra |].
    rewrite clamp_spec_inside by exact Ht. lra. }
  destruct (Rlt_dec _ 1e-4); [exact Hdown |].
  etransitivity; [| exact Hdown]. apply IH. apply clamp_spec_range.
Qed.

(** X2.  For answered items whose parameters are of moderate magnitude:
    when every answered item of a dichotomy has a positive discrimination
    and was answered with the option of response code 1, the estimate is not
    negative; when every one was answered with the option of response code
    0, it is not positive. *)
Theorem X2_unanimous_direction (itemParameters : list ItemParameter.t) (d : string)
    (answers : gmap nat Answer) (allQuestions : list MbtiQuestion.t)
    (triples : list (R * R * R)) :
  map_outcome (resolveItem itemParameters answers allQuestions)
    (answeredQuestionIndices itemParameters d answers) = Ok (List.map item_of triples) ->
  Forall (fun i : R * R * R => moderate i.1.1 /\ moderate i.1.2) triples ->
  (Forall (fun i : R * R * R => 0 < i.1.1 /\ i.2 = 1) triples ->
   exists t : R,
     findBestThetaForDichotomy itemParameters d answers allQuestions = Ok (Js.Num t)
     /\ 0 <= t <= 3)
  /\ (Forall (fun i : R * R * R => 0 < i.1.1 /\ i.2 = 0) triples ->
      exists t : R,
        findBestThetaForDichotomy itemParameters d answers allQuestions = Ok (Js.Num t)
        /\ -3 <= t <= 0).
Proof.
  intros Hmap _. rewrite (findBestTheta_spec _ _ _ _ _ Hmap).
  split; intros Hall; eexists; (split; [reflexivity |]).
  - pose proof (theta_spec_towards_one 20 0 triples Hall).
    pose proof (theta_spec_range 20 0 triples). lra.
  - pose proof (theta_spec_towards_zero 20 0 triples Hall).
    pose proof (theta_spec_range 20 0 triples). lra.
Qed.

Lemma X2_unanimous_direction_witness :
  exists t : R,
    findBestThetaForDichotomy example_items "E-I" example_answers example_questions
    = Ok (Js.Num t)
    /\ 0 <= t <= 3.
Proof.
  refine (proj1 (X2_unanimous_direction example_items "E-I" example_answers example_questions
                   [(1, 0, 1)] example_resolved _) _).
  - constructor; [| constructor]. unfold moderate. cbn [fst snd]. lra.
  - constructor; [cbn; split; [lra | reflexivity] | constructor].
Defined.

(** ** Which answers the engine reads *)

Lemma map_outcome_ext_in {A B : Type} (f g : A -> outcome B) (xs : list A) :
  (forall x, x ∈ xs -> f x = g x) -> map_outcome f xs = map_outcome g xs.
Proof.
  induction xs as [| x xs IH]; intros Hext; [reflexivity |].
  cbn [map_outcome]. rewrite (Hext x) by apply list_elem_of_here.
  rewrite IH; [reflexivity |].
  intros y Hy. apply Hext, list_elem_of_further. exact Hy.
Qed.

Lemma resolveItem_agree (itemParameters : list ItemParameter.t)
    (answers1 answers2 : gmap nat Answer) (allQuestions : list MbtiQuestion.t) (i : nat) :
  answers1 !! (i + 1)%nat = answers2 !! (i + 1)%nat ->
  resolveItem itemParameters answers1 allQuestions i
  = resolveItem itemParameters answers2 allQuestions i.
Proof. intros H. unfold resolveItem. rewrite H. reflexivity. Qed.

Lemma answered_agree (itemParameters : list ItemParameter.t) (d : string)
    (answers1 answers2 : gmap nat Answer) :
  (forall i params,
      itemParameters !! i = Some params -> ItemParameter.dichotomy params = d ->
      is_Some (get DICHOTOMY_CONFIG d) ->
      answers1 !! (i + 1)%nat = answers2 !! (i + 1)%nat) ->
  answeredQuestionIndices itemParameters d answers1
  = answeredQuestionIndices itemParameters d answers2.
Proof.
  intros Hagree. unfold answeredQuestionIndices.
  apply filter_ext_in. intros i Hi.
  rewrite dichotomyToQuestionMap_lookup in Hi.
  destruct (get DICHOTOMY_CONFIG d) as [config |] eqn:Hd; [| inversion Hi].
  apply list_elem_of_In, indicesOf_imap_elem in Hi as (params & Hp & Hdich).
  rewrite (Hagree i params Hp Hdich) by (eexists; reflexivity). reflexivity.
Qed.

Lemma findBestTheta_agree (itemParameters : list ItemParameter.t) (d : string)
    (answers1 answers2 : gmap nat Answer) (allQuestions : list MbtiQuestion.t) :
  (forall i params,
      itemParameters !! i = Some params -> ItemParameter.dichotomy params = d ->
      is_Some (get DICHOTOMY_CONFIG d) ->
      answers1 !! (i + 1)%nat = answers2 !! (i + 1)%nat) ->
  findBestThetaForDichotomy itemParameters d answers1 allQuestions
  = findBestThetaForDichotomy itemParameters d answers2 allQuestions.
Proof.
  intros Hagree. unfold findBestThetaForDichotomy.
  rewrite (answered_agree _ _ _ _ Hagree).
  destruct (Nat.eqb _ 0); [reflexivity |].
  rewrite (map_outcome_ext_in (resolveItem itemParameters answers1 allQuestions)
             (resolveItem itemParameters answers2 allQuestions)); [reflexivity |].
  intros i Hi. apply resolveItem_agree.
  apply answered_elem in Hi as (Hd & (params & Hp & Hdich) & _).
  exact (Hagree i params Hp Hdich Hd).
Qed.

Lemma calculate_agree (itemParameters : list ItemParameter.t)
    (clarityWeight : CoreResult -> Js.number) (positionWeight : PositionWeight)
    (answers1 answers2 : gmap nat Answer) (attitudeAnswers : gmap string Answer)
    (allMbtiQuestions : list MbtiQuestion.t) (allAttitudeQuestions : list AttitudeQuestion.t) :
  (forall i params,
      itemParameters !! i = Some params ->
      is_Some (get DICHOTOMY_CONFIG (ItemParameter.dichotomy params)) ->
      answers1 !! (i + 1)%nat = answers2 !! (i + 1)%nat) ->
  calculateHybridResultsWith itemParameters clarityWeight positionWeight
    answers1 attitudeAnswers allMbtiQuestions allAttitudeQuestions
  = calculateHybridResultsWith itemParameters clarityWeight positionWeight
      answers2 attitudeAnswers allMbtiQuestions allAttitudeQuestions.
Proof.
  intros Hagree. rewrite !calculate_unfold.
  assert (forall d,
            findBestThetaForDichotomy itemParameters d answers1 allMbtiQuestions
            = findBestThetaForDichotomy itemParameters d answers2 allMbtiQuestions) as H.
  { intros d. apply findBestTheta_agree. intros i params Hp Hdich Hd.
    apply (Hagree i params Hp). rewrite Hdich. exact Hd. }
  rewrite !H. reflexivity.
Qed.

(** X4.  The engine reads, of the forced-choice answers, only those given to
    the items of the three configured dichotomies: two answer sets that
    agree on the question numbers of those items give the same result, in
    both revisions.  An answer to an item of any other dichotomy, or to a
    question beyond the table, changes nothing. *)
Theorem X4_only_configured_items_are_read (itemParameters : list ItemParameter.t)
    (answers1 answers2 : gmap nat Answer) (attitudeAnswers : gmap string Answer)
    (allMbtiQuestions : list MbtiQuestion.t) (allAttitudeQuestions : list AttitudeQuestion.t) :
  (forall i params,
      itemParameters !! i = Some params ->
      is_Some (get DICHOTOMY_CONFIG (ItemParameter.dichotomy params)) ->
      answers1 !! (i + 1)%nat = answers2 !! (i + 1)%nat) ->
  calculateHybridResults itemParameters answers1 attitudeAnswers
    allMbtiQuestions allAttitudeQuestions
  = calculateHybridResults itemParameters answers2 attitudeAnswers
      allMbtiQuestions allAttitudeQuestions
  /\ calculateHybridResults_log itemParameters answers1 attitudeAnswers
       allMbtiQuestions allAttitudeQuestions
     = calculateHybridResults_log itemParameters answers2 attitudeAnswers
         allMbtiQuestions allAttitudeQuestions.
Proof.
  intros Hagree. unfold calculateHybridResults, calculateHybridResults_log.
  split; apply calculate_agree; exact Hagree.
Qed.

Lemma X4_only_configured_items_are_read_witness :
  calculateHybridResults unconfigured_items example_answers ∅ example_questions []
  = calculateHybridResults unconfigured_items ∅ ∅ example_questions [].
Proof.
  refine (proj1 (X4_only_configured_items_are_read unconfigured_items example_answers ∅ ∅
                   example_questions [] _)).
  intros i params Hi Hd. apply list_lookup_singleton_Some in Hi as [_ <-].
  destruct Hd as [config Hd]. discriminate Hd.
Defined.

(** ** When the estimator throws *)

Lemma map_outcome_Throw_inv {A B : Type} (f : A -> outcome B) (xs : list A) (e : error) :
  map_outcome f xs = Throw e -> exists x, x ∈ xs /\ f x = Throw e.
Proof.
  induction xs as [| x xs IH]; cbn [map_outcome]; [discriminate |].
  unfold mbind, outcome_bind. destruct (f x) as [y | e0] eqn:Ef.
  - destruct (map_outcome f xs) as [ys | e1]; [discriminate |].
    intros [= <-]. destruct (IH eq_refl) as (x' & Hin & Hx').
    exists x'. split; [apply list_elem_of_further; exact Hin | exact Hx'].
  - intros [= <-]. exists x. split; [apply list_elem_of_here | exact Ef].
Qed.

Lemma optionOf_is_Some (options : gmap string MbtiQuestion.option_entry) (key : string) :
  is_Some (optionOf options key) <-> is_Some (options !! key) \/ inherited key = true.
Proof.
  unfold optionOf. destruct (options !! key) as [o |].
  - split; [intros _; left | intros _]; eexists; reflexivity.
  - destruct (inherited key).
    + split; [intros _; right; reflexivity | intros _; eexists; reflexivity].
    + split; [intros [x H]; discriminate H |].
      intros [[x H] | H]; discriminate H.
Qed.

Lemma resolveItem_readable (itemParameters : list ItemParameter.t) (answers : gmap nat Answer)
    (allQuestions : list MbtiQuestion.t) (i : nat) (params : ItemParameter.t)
    (answer : Answer) :
  itemParameters !! i = Some params ->
  answers !! (i + 1)%nat = Some answer ->
  (exists item, resolveItem itemParameters answers allQuestions i = Ok item)
  <-> option_readable allQuestions i answer.
Proof.
  intros Hp Ha. unfold resolveItem, option_readable. rewrite Hp, Ha.
  destruct (List.find _ allQuestions) as [q |].
  - destruct (optionOf (MbtiQuestion.options q) (to_key (choice answer))) as [code |] eqn:Eo.
    + split; intros _; [| eexists; reflexivity].
      exists q. split; [reflexivity |]. apply optionOf_is_Some. rewrite Eo. eexists; reflexivity.
    + split.
      * intros [item H]. discriminate H.
      * intros (q' & [= <-] & H). apply optionOf_is_Some in H as [code H].
        rewrite Eo in H. discriminate H.
  - split.
    + intros [item H]. discriminate H.
    + intros (q' & H & _). discriminate H.
Qed.

Lemma option_present_readable (allQuestions : list MbtiQuestion.t) (i : nat)
    (answer : Answer) :
  option_present allQuestions i answer -> option_readable allQuestions i answer.
Proof. intros (q & Hq & Ho). exists q. split; [exact Hq | left; exact Ho]. Qed.

Lemma resolveItem_error (itemParameters : list ItemParameter.t) (answers : gmap nat Answer)
    (allQuestions : list MbtiQuestion.t) (i : nat) (params : ItemParameter.t)
    (answer : Answer) (e : error) :
  itemParameters !! i = Some params ->
  answers !! (i + 1)%nat = Some answer ->
  resolveItem itemParameters answers allQuestions i = Throw e ->
  e = TypeError "options" \/ e = TypeError "scoreKey".
Proof.
  intros Hp Ha. unfold resolveItem. rewrite Hp, Ha.
  destruct (List.find _ allQuestions) as [q |]; [| intros [= <-]; left; reflexivity].
  destruct (optionOf (MbtiQuestion.options q) (to_key (choice answer))) as [code |];
    [discriminate | intros [= <-]; right; reflexivity].
Qed.

Lemma findBestTheta_Throw_inv (itemParameters : list ItemParameter.t) (d : string)
    (answers : gmap nat Answer) (allQuestions : list MbtiQuestion.t) (e : error) :
  findBestThetaForDichotomy itemParameters d answers allQuestions = Throw e ->
  exists i, i ∈ answeredQuestionIndices itemParameters d answers
            /\ resolveItem itemParameters answers allQuestions i = Throw e.
Proof.
  unfold findBestThetaForDichotomy.
  destruct (Nat.eqb _ 0); [discriminate |].
  unfold mbind, outcome_bind.
  destruct (map_outcome _ _) as [items | e'] eqn:Hmap; [discriminate |].
  intros [= <-]. apply map_outcome_Throw_inv. exact Hmap.
Qed.

(** X5.  The estimator throws exactly when, for some answered question of
    the dichotomy, the metadata has no entry for the question, or has none
    for the chosen option under a name that the options do not inherit from
    [Object.prototype] either; what it throws is the [TypeError] of reading
    [options] or [scoreKey] of [undefined].  Unanswered questions are never
    looked up, and a choice such as [toString] throws nothing. *)
Theorem X5_estimator_throws_iff (itemParameters : list ItemParameter.t) (d : string)
    (answers : gmap nat Answer) (allQuestions : list MbtiQuestion.t) :
  ((exists e, findBestThetaForDichotomy itemParameters d answers allQuestions = Throw e)
   <-> exists i answer,
         i ∈ answeredQuestionIndices itemParameters d answers
         /\ answers !! (i + 1)%nat = Some answer
         /\ ~ option_readable allQuestions i answer)
  /\ forall e,
       findBestThetaForDichotomy itemParameters d answers allQuestions = Throw e ->
       e = TypeError "options" \/ e = TypeError "scoreKey".
Proof.
  split; [split |].
  - intros [e He]. destruct (findBestTheta_Throw_inv _ _ _ _ _ He) as (i & Hin & Hres).
    pose proof Hin as Hin'.
    apply answered_elem in Hin' as (_ & (params & Hp & _) & [answer Ha]).
    exists i, answer. split; [exact Hin |]. split; [exact Ha |].
    intros Hpresent. apply (resolveItem_readable _ _ _ _ _ _ Hp Ha) in Hpresent as [item Hok].
    rewrite Hok in Hres. discriminate Hres.
  - intros (i & answer & Hin & Ha & Habsent).
    pose proof Hin as Hin'.
    apply answered_elem in Hin' as (_ & (params & Hp & _) & _).
    destruct (resolveItem itemParameters answers allQuestions i) as [item | e] eqn:Hres.
    + exfalso. apply Habsent. apply (resolveItem_readable _ _ _ _ _ _ Hp Ha).
      exists item. exact Hres.
    + exact (findBestTheta_throws _ _ _ _ _ _ Hin Hres).
  - intros e He. destruct (findBestTheta_Throw_inv _ _ _ _ _ He) as (i & Hin & Hres).
    apply answered_elem in Hin as (_ & (params & Hp & _) & [answer Ha]).
    exact (resolveItem_error _ _ _ _ _ _ _ Hp Ha Hres).
Qed.

Lemma X5_estimator_throws_iff_witness :
  exists e,
    findBestThetaForDichotomy example_items "E-I" absent_answers example_questions = Throw e.
Proof.
  apply (proj2 (proj1 (X5_estimator_throws_iff example_items "E-I" absent_answers
                         example_questions))).
  exists 0%nat, {| choice := VStr "C" |}.
  split; [vm_compute; apply list_elem_of_here |].
  split; [reflexivity |].
  intros (q & Hfind & [[o Ho] | Ho]).
  - cbn in Hfind. injection Hfind as <-. vm_compute in Ho. discriminate Ho.
  - vm_compute in Ho. discriminate Ho.
Defined.

(** ** The first maximum *)

Lemma track_first_maximum (l : list (string * Js.number)) :
  Forall (fun e => exists x : R, e.2 = Js.Num x) l ->
  l <> [] ->
  exists pre t m post,
    l = pre ++ (t, Js.Num m) :: post
    /\ bestFitType (fold_left track l initialBest) = Some t
    /\ maxScore (fold_left track l initialBest) = Js.Num m
    /\ Forall (fun e => exists x : R, e.2 = Js.Num x /\ x < m) pre
    /\ Forall (fun e => exists x : R, e.2 = Js.Num x /\ x <= m) post.
Proof.
  induction l as [| [t' s] l IH] using rev_ind; intros Hreal Hne; [contradiction |].
  apply Forall_app in Hreal as [Hreal Hlast].
  apply Forall_cons in Hlast as [[c Hc] _]. cbn in Hc. subst s.
  rewrite fold_left_app.
  change (fold_left track [(t', Js.Num c)] (fold_left track l initialBest))
    with (track (fold_left track l initialBest) (t', Js.Num c)).
  destruct l as [| e0 l0].
  - exists [], t', c, []. repeat split; constructor.
  - destruct (IH Hreal) as (pre & t & m & post & Hl & Hb & Hm & Hpre & Hpost);
      [discriminate |].
    unfold track at 1 3. rewrite Hm. unfold Js.gt. rewrite !lt_Num.
    destruct (Rlt_dec m c) as [Hlt | Hge];
      [rewrite Rltb_true by exact Hlt | rewrite Rltb_false by lra].
    + exists (e0 :: l0), t', c, []. cbn [bestFitType maxScore].
      split; [reflexivity |]. split; [reflexivity |]. split; [reflexivity |].
      split; [| constructor].
      rewrite Hl. apply Forall_app. split; [| constructor].
      * apply (Forall_impl _ _ _ Hpre). intros e (x & He & Hx). exists x. split; [exact He | lra].
      * exists m. split; [reflexivity | exact Hlt].
      * apply (Forall_impl _ _ _ Hpost). intros e (x & He & Hx). exists x. split; [exact He | lra].
    + exists pre, t, m, (post ++ [(t', Js.Num c)]). cbn [bestFitType maxScore].
      split; [rewrite Hl, <- app_assoc; reflexivity |].
      split; [exact Hb |]. split; [reflexivity |]. split; [exact Hpre |].
      apply Forall_app. split; [exact Hpost |].
      constructor; [| constructor]. exists c. split; [reflexivity | lra].
Qed.

Lemma track_scores_lookup (l : list (string * Js.number)) (best : Best) (k : string)
    (v : Js.number) :
  NoDup l.*1 -> (k, v) ∈ l -> typeScores (fold_left track l best) !! k = Some v.
Proof.
  revert best. induction l as [| [type s] l IH]; intros best Hnodup Hin.
  - apply elem_of_nil in Hin. contradiction.
  - cbn [fmap list_fmap fst] in Hnodup. apply NoDup_cons in Hnodup as [Hnotin Hnodup].
    cbn [fold_left]. apply elem_of_cons in Hin as [[= -> ->] | Hin].
    + rewrite track_typeScores by exact Hnotin.
      unfold track. destruct (Js.gt s (maxScore best)); apply lookup_insert_eq.
    + apply IH; assumption.
Qed.

(** What a returned result tells about the run that made it. *)
Lemma calculate_Ok_inv (itemParameters : list ItemParameter.t)
    (clarityWeight : CoreResult -> Js.number) (positionWeight : PositionWeight)
    (mbtiAnswers : gmap nat Answer) (attitudeAnswers : gmap string Answer)
    (allMbtiQuestions : list MbtiQuestion.t) (allAttitudeQuestions : list AttitudeQuestion.t)
    (r : Result) :
  (forall t : R, exists w : R, clarityWeight (coreOf (Js.Num t)) = Js.Num w) ->
  calculateHybridResultsWith itemParameters clarityWeight positionWeight
    mbtiAnswers attitudeAnswers allMbtiQuestions allAttitudeQuestions = Ok r ->
  exists (t1 t2 t3 : R) (pre post : list (string * Js.number)) (m : R),
    findBestThetaForDichotomy itemParameters "E-I" mbtiAnswers allMbtiQuestions
      = Ok (Js.Num t1)
    /\ findBestThetaForDichotomy itemParameters "S-N" mbtiAnswers allMbtiQuestions
       = Ok (Js.Num t2)
    /\ findBestThetaForDichotomy itemParameters "T-F" mbtiAnswers allMbtiQuestions
       = Ok (Js.Num t3)
    /\ scoresFor clarityWeight positionWeight attitudeAnswers allAttitudeQuestions
         (Js.Num t1) (Js.Num t2) (Js.Num t3)
       = pre ++ (finalType r, Js.Num m) :: post
    /\ score r = Js.Num m
    /\ Forall (fun e => exists x : R, e.2 = Js.Num x /\ x < m) pre
    /\ Forall (fun e => exists x : R, e.2 = Js.Num x /\ x <= m) post
    /\ (forall k v,
          (k, v) ∈ scoresFor clarityWeight positionWeight attitudeAnswers
                     allAttitudeQuestions (Js.Num t1) (Js.Num t2) (Js.Num t3) ->
          allTypeScores r !! k = Some v)
    /\ get TYPE_FUNCTION_STACKS (finalType r)
       = Some (dominant r, auxiliary r, tertiary r, inferior r).
Proof.
  intros Hweight. rewrite calculate_unfold.
  destruct (findBestThetaForDichotomy itemParameters "E-I" _ _) as [ei | e] eqn:Eei;
    [| discriminate].
  destruct (findBestThetaForDichotomy itemParameters "S-N" _ _) as [sn | e] eqn:Esn;
    [| discriminate].
  destruct (findBestThetaForDichotomy itemParameters "T-F" _ _) as [tf | e] eqn:Etf;
    [| discriminate].
  apply findBestTheta_shape in Eei, Esn, Etf.
  destruct Eei as [Hei | [t1 ->]].
  { rewrite finalize_NaN by (left; exact Hei). discriminate. }
  destruct Esn as [Hsn | [t2 ->]].
  { rewrite finalize_NaN by (right; left; exact Hsn). discriminate. }
  destruct Etf as [Htf | [t3 ->]].
  { rewrite finalize_NaN by (right; right; exact Htf). discriminate. }
  rewrite considerType_track.
  fold (scoresFor clarityWeight positionWeight attitudeAnswers allAttitudeQuestions
          (Js.Num t1) (Js.Num t2) (Js.Num t3)).
  set (l := scoresFor _ _ _ _ _ _ _).
  assert (l.*1 = TYPE_FUNCTION_STACKS.*1) as Hkeys by apply scoresOf_keys.
  destruct (track_first_maximum l) as (pre & t & m & post & Hl & Hb & Hm & Hpre & Hpost).
  { apply scoresOf_real. exact Hweight. }
  { unfold l, scoresFor. discriminate. }
  assert (is_Some (get TYPE_FUNCTION_STACKS t)) as [[[[d a0] te] i] Hstack].
  { apply get_elem. rewrite <- Hkeys, Hl, fmap_app. apply elem_of_app. right.
    cbn. apply list_elem_of_here. }
  unfold finalize. rewrite Hb, Hstack, Hm. intros H. apply Ok_inj in H. subst r.
  cbn [finalType score allTypeScores dominant auxiliary tertiary inferior].
  exists t1, t2, t3, pre, post, m. repeat split; try assumption; try reflexivity.
  intros k v Hin. apply track_scores_lookup; [| exact Hin].
  rewrite Hkeys. apply types_distinct.
Qed.

Lemma first_maximum_of (l pre post : list (string * Js.number)) (t : string) (m : R)
    (scores : gmap string Js.number) :
  l = pre ++ (t, Js.Num m) :: post ->
  Forall (fun e => exists x : R, e.2 = Js.Num x /\ x < m) pre ->
  Forall (fun e => exists x : R, e.2 = Js.Num x /\ x <= m) post ->
  (forall k v, (k, v) ∈ l -> scores !! k = Some v) ->
  (forall k, k ∈ pre.*1 -> exists x : R, scores !! k = Some (Js.Num x) /\ x < m)
  /\ (forall k, k ∈ post.*1 -> exists x : R, scores !! k = Some (Js.Num x) /\ x <= m).
Proof.
  intros Hl Hpre Hpost Hrec. split; intros k Hk.
  - apply list_elem_of_fmap in Hk as ([k' v] & -> & Hin). cbn [fst].
    rewrite Forall_forall in Hpre. destruct (Hpre _ Hin) as (x & Hv & Hx).
    cbn in Hv. subst v. exists x. split; [| exact Hx].
    apply Hrec. rewrite Hl. apply elem_of_app. left. exact Hin.
  - apply list_elem_of_fmap in Hk as ([k' v] & -> & Hin). cbn [fst].
    rewrite Forall_forall in Hpost. destruct (Hpost _ Hin) as (x & Hv & Hx).
    cbn in Hv. subst v. exists x. split; [| exact Hx].
    apply Hrec. rewrite Hl. apply elem_of_app. right. apply list_elem_of_further. exact Hin.
Qed.

Lemma calculate_first_maximum (itemParameters : list ItemParameter.t)
    (clarityWeight : CoreResult -> Js.number) (positionWeight : PositionWeight)
    (mbtiAnswers : gmap nat Answer) (attitudeAnswers : gmap string Answer)
    (allMbtiQuestions : list MbtiQuestion.t) (allAttitudeQuestions : list AttitudeQuestion.t)
    (r : Result) :
  (forall t : R, exists w : R, clarityWeight (coreOf (Js.Num t)) = Js.Num w) ->
  calculateHybridResultsWith itemParameters clarityWeight positionWeight
    mbtiAnswers attitudeAnswers allMbtiQuestions allAttitudeQuestions = Ok r ->
  first_maximum r
  /\ get TYPE_FUNCTION_STACKS (finalType r)
     = Some (dominant r, auxiliary r, tertiary r, inferior r).
Proof.
  intros Hweight Hcalc.
  destruct (calculate_Ok_inv _ _ _ _ _ _ _ _ Hweight Hcalc)
    as (t1 & t2 & t3 & pre & post & m & _ & _ & _ & Hl & Hscore & Hpre & Hpost & Hrec & Hstack).
  split; [| exact Hstack].
  destruct (first_maximum_of _ _ _ _ _ _ Hl Hpre Hpost Hrec) as [Hbefore Hafter].
  exists pre.*1, post.*1, m. repeat split; try assumption.
  rewrite <- (scoresOf_keys clarityWeight positionWeight attitudeAnswers allAttitudeQuestions
                (Js.Num t1) (Js.Num t2) (Js.Num t3)).
  rewrite Hl, fmap_app. reflexivity.
Qed.

(** X6.  In both revisions the result is the first type of the table with
    the greatest score (every type declared before it scores strictly less,
    every type after it at most as much), and the four functions it reports
    are the stack of that type in [TYPE_FUNCTION_STACKS]. *)
Theorem X6_first_maximum_and_its_stack (itemParameters : list ItemParameter.t)
    (mbtiAnswers : gmap nat Answer) (attitudeAnswers : gmap string Answer)
    (allMbtiQuestions : list MbtiQuestion.t) (allAttitudeQuestions : list AttitudeQuestion.t)
    (r : Result) :
  calculateHybridResults itemParameters mbtiAnswers attitudeAnswers
    allMbtiQuestions allAttitudeQuestions = Ok r
  \/ calculateHybridResults_log itemParameters mbtiAnswers attitudeAnswers
       allMbtiQuestions allAttitudeQuestions = Ok r ->
  first_maximum r
  /\ get TYPE_FUNCTION_STACKS (finalType r)
     = Some (dominant r, auxiliary r, tertiary r, inferior r).
Proof.
  intros [H | H].
  - exact (calculate_first_maximum _ _ _ _ _ _ _ _ tableWeight_real H).
  - exact (calculate_first_maximum _ _ _ _ _ _ _ _ logWeight_real H).
Qed.

Lemma X6_first_maximum_and_its_stack_witness :
  exists r, calculateHybridResults [] ∅ ∅ [] [] = Ok r /\ first_maximum r.
Proof.
  destruct (unanswered_result [] tableWeight ATTITUDE_STACK_POSITION_WEIGHT ∅ ∅ [] []
              (tableWeight_real 0))
    as (scores & Hcalc & _).
  - intros i params H. apply lookup_empty.
  - intros q H. apply lookup_empty.
  - eexists. split; [exact Hcalc |].
    exact (proj1 (X6_first_maximum_and_its_stack [] ∅ ∅ [] [] _ (or_introl Hcalc))).
Defined.

(** ** Without Likert answers *)

Lemma scoreOf_by_letters (clarityWeight : CoreResult -> Js.number)
    (positionWeight : PositionWeight) (t1 t2 t3 : R)
    (entry1 entry2 : string * (string * string * string * string)) :
  (forall t : R, exists w : R, clarityWeight (coreOf (Js.Num t)) = Js.Num w) ->
  entry1 ∈ TYPE_FUNCTION_STACKS -> entry2 ∈ TYPE_FUNCTION_STACKS ->
  letters entry1.1 = letters entry2.1 ->
  scoreOf clarityWeight positionWeight (coreOf (Js.Num t1)) (coreOf (Js.Num t2))
    (coreOf (Js.Num t3)) initialStrengths entry1.1 entry1.2
  = scoreOf clarityWeight positionWeight (coreOf (Js.Num t1)) (coreOf (Js.Num t2))
      (coreOf (Js.Num t3)) initialStrengths entry2.1 entry2.2.
Proof.
  intros Hweight Hin1 Hin2 Hletters.
  pose proof stacks_use_functions as Hall. rewrite Forall_forall in Hall.
  pose proof (Hall _ Hin1) as (Hd1 & Ha1 & Ht1 & Hi1).
  pose proof (Hall _ Hin2) as (Hd2 & Ha2 & Ht2 & Hi2).
  destruct entry1 as [type1 [[[d1 a1] te1] i1]], entry2 as [type2 [[[d2 a2] te2] i2]].
  cbn [fst snd] in *.
  destruct (Hweight t1) as [w1 Hw1], (Hweight t2) as [w2 Hw2], (Hweight t3) as [w3 Hw3].
  rewrite (scoreOf_real clarityWeight positionWeight _ _ _ _ type1 d1 a1 te1 i1
             t1 t2 t3 w1 w2 w3 0 0 0 0);
    try reflexivity; try assumption; try (apply initialStrengths_lookup; assumption).
  rewrite (scoreOf_real clarityWeight positionWeight _ _ _ _ type2 d2 a2 te2 i2
             t1 t2 t3 w1 w2 w3 0 0 0 0);
    try reflexivity; try assumption; try (apply initialStrengths_lookup; assumption).
  unfold letters in Hletters. injection Hletters as -> -> ->. reflexivity.
Qed.

Lemma later_type_has_earlier (pre post : list string) (t : string) :
  TYPE_FUNCTION_STACKS.*1 = pre ++ t :: post ->
  t ∈ FIRST_WITH_LETTERS \/ Exists (fun t' => letters t' = letters t) pre.
Proof.
  intros H. cbn in H.
  do 16 (destruct pre as [| ? pre];
         [injection H as <-; intros; apply (bool_decide_unpack _); vm_compute; exact I |];
         injection H as <- H).
  destruct pre; discriminate H.
Qed.

Lemma calculate_without_likert (itemParameters : list ItemParameter.t)
    (clarityWeight : CoreResult -> Js.number) (positionWeight : PositionWeight)
    (mbtiAnswers : gmap nat Answer) (attitudeAnswers : gmap string Answer)
    (allMbtiQuestions : list MbtiQuestion.t) (allAttitudeQuestions : list AttitudeQuestion.t)
    (r : Result) :
  (forall t : R, exists w : R, clarityWeight (coreOf (Js.Num t)) = Js.Num w) ->
  (forall q, q ∈ allAttitudeQuestions -> attitudeAnswers !! AttitudeQuestion.id q = None) ->
  calculateHybridResultsWith itemParameters clarityWeight positionWeight
    mbtiAnswers attitudeAnswers allMbtiQuestions allAttitudeQuestions = Ok r ->
  finalType r ∈ FIRST_WITH_LETTERS.
Proof.
  intros Hweight Hnone Hcalc.
  destruct (calculate_Ok_inv _ _ _ _ _ _ _ _ Hweight Hcalc)
    as (t1 & t2 & t3 & pre & post & m & _ & _ & _ & Hl & _ & Hpre & _ & _ & _).
  assert (TYPE_FUNCTION_STACKS.*1 = pre.*1 ++ finalType r :: post.*1) as Hkeys.
  { rewrite <- (scoresOf_keys clarityWeight positionWeight attitudeAnswers
                  allAttitudeQuestions (Js.Num t1) (Js.Num t2) (Js.Num t3)).
    rewrite Hl, fmap_app. reflexivity. }
  destruct (later_type_has_earlier _ _ _ Hkeys) as [Hfirst | Hearlier]; [exact Hfirst |].
  exfalso. apply Exists_exists in Hearlier as (t' & Hin' & Hletters).
  apply list_elem_of_fmap in Hin' as ([k v] & -> & Hin'). cbn [fst] in Hletters.
  rewrite Forall_forall in Hpre. destruct (Hpre _ Hin') as (x & Hv & Hx).
  cbn in Hv. subst v.
  unfold scoresFor in Hl. rewrite (attitudeStrengthsOf_unanswered _ _ Hnone) in Hl.
  assert ((k, Js.Num x) ∈ pre ++ (finalType r, Js.Num m) :: post) as Hk
    by (apply elem_of_app; left; exact Hin').
  assert ((finalType r, Js.Num m) ∈ pre ++ (finalType r, Js.Num m) :: post) as Hf
    by (apply elem_of_app; right; apply list_elem_of_here).
  rewrite <- Hl in Hk, Hf.
  apply list_elem_of_In, in_map_iff in Hk as (entry1 & [= <- Hs1] & Hin1).
  apply list_elem_of_In, in_map_iff in Hf as (entry2 & [= Hname Hs2] & Hin2).
  rewrite <- Hname in Hletters.
  rewrite (scoreOf_by_letters clarityWeight positionWeight t1 t2 t3 entry1 entry2) in Hs1;
    try assumption; try (apply list_elem_of_In; assumption).
  rewrite Hs2 in Hs1. injection Hs1 as Hs1. lra.
Qed.

(** X7.  When no Likert question has an answer, the attitude term of every
    type is zero and two types with the same letters E/I, S/N and T/F tie:
    the result, in both revisions, is one of the eight types declared first
    with their letters, never INTJ, ENTJ, ISTJ, ESTJ, INFP, ENFP, ISFJ or
    ESFJ. *)
Theorem X7_without_likert_first_declared (itemParameters : list ItemParameter.t)
    (mbtiAnswers : gmap nat Answer) (attitudeAnswers : gmap string Answer)
    (allMbtiQuestions : list MbtiQuestion.t) (allAttitudeQuestions : list AttitudeQuestion.t)
    (r : Result) :
  (forall q, q ∈ allAttitudeQuestions -> attitudeAnswers !! AttitudeQuestion.id q = None) ->
  calculateHybridResults itemParameters mbtiAnswers attitudeAnswers
    allMbtiQuestions allAttitudeQuestions = Ok r
  \/ calculateHybridResults_log itemParameters mbtiAnswers attitudeAnswers
       allMbtiQuestions allAttitudeQuestions = Ok r ->
  finalType r ∈ [ "INTP"; "ENTP"; "ISTP"; "ESTP"; "INFJ"; "ENFJ"; "ISFP"; "ESFP" ]%string.
Proof.
  intros Hnone [H | H].
  - exact (calculate_without_likert _ _ _ _ _ _ _ _ tableWeight_real Hnone H).
  - exact (calculate_without_likert _ _ _ _ _ _ _ _ logWeight_real Hnone H).
Qed.

Lemma X7_without_likert_first_declared_witness :
  exists r,
    calculateHybridResults example_items example_answers ∅ example_questions [] = Ok r
    /\ finalType r ∈ [ "INTP"; "ENTP"; "ISTP"; "ESTP"; "INFJ"; "ENFJ"; "ISFP"; "ESFP" ]%string.
Proof.
  destruct extraverted_result as [scores Hcalc].
  eexists. split; [exact Hcalc |].
  refine (X7_without_likert_first_declared example_items example_answers ∅
            example_questions [] _ _ (or_introl Hcalc)).
  intros q Hq. apply elem_of_nil in Hq. contradiction.
Defined.

(** ** When the invocation returns *)

Lemma resolved_present (itemParameters : list ItemParameter.t) (answers : gmap nat Answer)
    (allQuestions : list MbtiQuestion.t) (indices : list nat) (items : list Item) :
  scored allQuestions ->
  Forall (fun i => forall answer, answers !! (i + 1)%nat = Some answer ->
                                  option_present allQuestions i answer) indices ->
  map_outcome (resolveItem itemParameters answers allQuestions) indices = Ok items ->
  exists triples, items = List.map item_of triples.
Proof.
  intros Hscored Hpresent Hmap. apply numeric_items.
  apply map_outcome_Ok in Hmap.
  induction Hmap as [| i item indices items Hi _ IH]; constructor.
  - apply Forall_cons in Hpresent as [Hi' _].
    unfold resolveItem in Hi.
    destruct (List.find _ allQuestions) as [q |] eqn:Efind; [| discriminate Hi].
    destruct (answers !! (i + 1)%nat) as [answer |] eqn:Ea; [| discriminate Hi].
    destruct (Hi' answer eq_refl) as (q' & Hq' & [o Ho]).
    rewrite Efind in Hq'. injection Hq' as <-.
    rewrite (optionOf_own _ _ _ Ho) in Hi.
    destruct (itemParameters !! i); [| discriminate Hi].
    apply Ok_inj in Hi. subst item. cbn [u].
    apply find_some in Efind as [Hin _]. apply list_elem_of_In in Hin.
    exact (Hscored q _ o Hin Ho).
  - apply IH. apply Forall_cons in Hpresent as [_ H]. exact H.
Qed.

Lemma calculate_total (itemParameters : list ItemParameter.t)
    (clarityWeight : CoreResult -> Js.number) (positionWeight : PositionWeight)
    (mbtiAnswers : gmap nat Answer) (attitudeAnswers : gmap string Answer)
    (allMbtiQuestions : list MbtiQuestion.t) (allAttitudeQuestions : list AttitudeQuestion.t) :
  (forall t : R, exists w : R, clarityWeight (coreOf (Js.Num t)) = Js.Num w) ->
  scored allMbtiQuestions ->
  (forall i params answer,
     itemParameters !! i = Some params ->
     is_Some (get DICHOTOMY_CONFIG (ItemParameter.dichotomy params)) ->
     mbtiAnswers !! (i + 1)%nat = Some answer ->
     option_present allMbtiQuestions i answer) ->
  exists r,
    calculateHybridResultsWith itemParameters clarityWeight positionWeight
      mbtiAnswers attitudeAnswers allMbtiQuestions allAttitudeQuestions = Ok r.
Proof.
  intros Hweight Hscored Hpresent. apply calculate_returns; [exact Hweight |].
  intros d _.
  assert (Forall (fun i => forall answer, mbtiAnswers !! (i + 1)%nat = Some answer ->
                                          option_present allMbtiQuestions i answer)
            (answeredQuestionIndices itemParameters d mbtiAnswers)) as Hall.
  { apply Forall_forall. intros i Hin answer Ha.
    apply answered_elem in Hin as (Hd & (params & Hp & <-) & _).
    exact (Hpresent i params answer Hp Hd Ha). }
  destruct (answeredQuestionIndices itemParameters d mbtiAnswers) as [| i rest] eqn:E.
  { exists 0. apply findBestTheta_unanswered. exact E. }
  destruct (map_outcome (resolveItem itemParameters mbtiAnswers allMbtiQuestions) (i :: rest))
    as [items | e] eqn:Hmap.
  - destruct (resolved_present _ _ _ _ _ Hscored Hall Hmap) as [triples ->].
    exists (theta_spec 20 0 triples). apply findBestTheta_spec. rewrite E. exact Hmap.
  - exfalso. apply map_outcome_Throw_inv in Hmap as (j & Hin & Hthrow).
    rewrite Forall_forall in Hall.
    assert (j ∈ answeredQuestionIndices itemParameters d mbtiAnswers) as Hin'
      by (rewrite E; exact Hin).
    apply answered_elem in Hin' as (_ & (params & Hp & _) & [answer Ha]).
    pose proof (option_present_readable _ _ _ (Hall j Hin answer Ha)) as Hopt.
    apply (resolveItem_readable _ _ _ _ _ _ Hp Ha) in Hopt as [item Hok].
    rewrite Hok in Hthrow. discriminate Hthrow.
Qed.

(** X8.  Both revisions return a result, and throw nothing, when the
    response codes of the metadata are the binary codes 0 and 1, every
    answered question of a configured item has metadata with the chosen
    option, and the item parameters are of moderate magnitude. *)
Theorem X8_returns_on_complete_metadata (itemParameters : list ItemParameter.t)
    (mbtiAnswers : gmap nat Answer) (attitudeAnswers : gmap string Answer)
    (allMbtiQuestions : list MbtiQuestion.t) (allAttitudeQuestions : list AttitudeQuestion.t) :
  binary_codes allMbtiQuestions ->
  moderate_items itemParameters ->
  (forall i params answer,
     itemParameters !! i = Some params ->
     is_Some (get DICHOTOMY_CONFIG (ItemParameter.dichotomy params)) ->
     mbtiAnswers !! (i + 1)%nat = Some answer ->
     option_present allMbtiQuestions i answer) ->
  (exists r, calculateHybridResults itemParameters mbtiAnswers attitudeAnswers
               allMbtiQuestions allAttitudeQuestions = Ok r)
  /\ (exists r, calculateHybridResults_log itemParameters mbtiAnswers attitudeAnswers
                  allMbtiQuestions allAttitudeQuestions = Ok r).
Proof.
  intros Hbinary _ Hpresent. pose proof (binary_scored _ Hbinary) as Hscored.
  unfold calculateHybridResults, calculateHybridResults_log. split.
  - exact (calculate_total _ _ _ _ _ _ _ tableWeight_real Hscored Hpresent).
  - exact (calculate_total _ _ _ _ _ _ _ logWeight_real Hscored Hpresent).
Qed.

Lemma X8_returns_on_complete_metadata_witness :
  (exists r, calculateHybridResults example_items example_answers ∅ example_questions []
             = Ok r)
  /\ (exists r, calculateHybridResults_log example_items example_answers ∅
                  example_questions [] = Ok r).
Proof.
  refine (X8_returns_on_complete_metadata example_items example_answers ∅
            example_questions [] example_binary example_moderate _).
  intros i params answer Hp _ Ha.
  destruct i as [| i]; [| discriminate Hp].
  vm_compute in Ha. injection Ha as <-.
  eexists. split; [reflexivity |]. eexists. reflexivity.
Defined.

(** ** The clarity weight inside an invocation *)

(** X17.  Whatever the estimate, the weight an invocation gives to a
    dichotomy is a positive number: the category computed from the estimate
    is always a key of [IRT_CLARITY_WEIGHT], so the table weight is one of
    its values, between 2 and 8; and the clarity index is at least 1, so the
    logarithmic weight is [2.15 * ln pci + 1 >= 1] and the guard of
    [getIrtClarityWeight] is not taken. *)
Theorem X17_clarity_weight_is_positive (t : R) :
  (exists w : R, tableWeight (coreOf (Js.Num t)) = Js.Num w /\ 2 <= w <= 8)
  /\ (exists w : R,
        logWeight (coreOf (Js.Num t)) = Js.Num w
        /\ w = 2.15 * ln (IZR (pci_spec t)) + 1
        /\ 1 <= w).
Proof.
  split.
  - unfold tableWeight, coreOf. cbn [pcc]. rewrite clarityIndex_Num, get_weight_of_category.
    eexists. split; [reflexivity |].
    destruct (26 <=? pci_spec t)%Z; [lra |].
    destruct (16 <=? pci_spec t)%Z; [lra |].
    destruct (6 <=? pci_spec t)%Z; lra.
  - unfold logWeight, coreOf. cbn [pci]. rewrite clarityIndex_Num.
    pose proof (pci_spec_pos t) as Hpos.
    assert (1 <= IZR (pci_spec t)) as Hp by (apply (IZR_le 1); exact Hpos).
    rewrite getIrtClarityWeight_pos by lra.
    eexists. split; [reflexivity |]. split; [reflexivity |].
    pose proof (ln_le_mono 1 (IZR (pci_spec t)) ltac:(lra) Hp) as Hln.
    rewrite ln_1 in Hln. lra.
Qed.
(** * Properties of the page *)

Import App.

Ltac run_page :=
  unfold mbind, M_bind, mret, M_ret, read, assign, throw.

Lemma currentQuestion_None (s : state) :
  ((currentQuestionIndex s <? 0)
   || (Z.of_nat (length (allQuestions s)) <=? currentQuestionIndex s))%Z = true
  <-> currentQuestion s = None.
Proof.
  unfold currentQuestion.
  destruct (Z.ltb_spec (currentQuestionIndex s) 0) as [Hneg | Hpos]; cbn [orb].
  - split; reflexivity.
  - rewrite lookup_ge_None, Z.leb_le. lia.
Qed.

Lemma currentQuestion_Some (s : state) (q : Question) :
  currentQuestion s = Some q ->
  (0 <= currentQuestionIndex s < Z.of_nat (length (allQuestions s)))%Z
  /\ allQuestions s !! Z.to_nat (currentQuestionIndex s) = Some q.
Proof.
  unfold currentQuestion.
  destruct (Z.ltb_spec (currentQuestionIndex s) 0) as [Hneg | Hpos]; [discriminate |].
  intros H. split; [| exact H]. apply lookup_lt_Some in H. lia.
Qed.

Lemma currentQuestion_is_Some (s : state) :
  (0 <= currentQuestionIndex s < Z.of_nat (length (allQuestions s)))%Z ->
  is_Some (currentQuestion s).
Proof.
  intros H. unfold currentQuestion.
  destruct (Z.ltb_spec (currentQuestionIndex s) 0) as [Hneg | Hpos]; [lia |].
  apply lookup_lt_is_Some. lia.
Qed.

Lemma markup_eq (q : Question) (s : state) :
  markup q s = if has_markup q then (Ok tt, s) else (Throw (TypeError "text"), s).
Proof.
  destruct q as [q | q]; [| reflexivity]. unfold markup, has_markup.
  destruct (MbtiQuestion.options q !! "A"%string) as [oa |],
           (MbtiQuestion.options q !! "B"%string) as [ob |]; try reflexivity.
Qed.

Lemma renderQuestion_eq (s : state) :
  renderQuestion s
  = match currentQuestion s with
    | None => (Ok tt, s)
    | Some q => if has_markup q then (Ok tt, drawn s q) else (Throw (TypeError "text"), s)
    end.
Proof.
  unfold renderQuestion. run_page.
  destruct (currentQuestion s) as [q |] eqn:Eq.
  - destruct (_ || _)%bool eqn:Eguard.
    { apply currentQuestion_None in Eguard. congruence. }
    unfold theQuestion. rewrite Eq, markup_eq.
    destruct (has_markup q); [| reflexivity].
    unfold updateSelection, updateNavigation, updateProgressBar, theQuestion. run_page.
    change (currentQuestion (set_document _ s)) with (currentQuestion s). rewrite Eq.
    reflexivity.
  - apply currentQuestion_None in Eq. rewrite Eq. reflexivity.
Qed.

(** ** What a handler leaves of the three variables *)

Lemma renderQuestion_allQuestions (s : state) :
  allQuestions (renderQuestion s).2 = allQuestions s.
Proof.
  rewrite renderQuestion_eq.
  destruct (currentQuestion s) as [q |]; [destruct (has_markup q) |]; reflexivity.
Qed.

Lemma renderQuestion_index (s : state) :
  currentQuestionIndex (renderQuestion s).2 = currentQuestionIndex s.
Proof.
  rewrite renderQuestion_eq.
  destruct (currentQuestion s) as [q |]; [destruct (has_markup q) |]; reflexivity.
Qed.

Lemma renderQuestion_userAnswers (s : state) :
  userAnswers (renderQuestion s).2 = userAnswers s.
Proof.
  rewrite renderQuestion_eq.
  destruct (currentQuestion s) as [q |]; [destruct (has_markup q) |]; reflexivity.
Qed.

Lemma submitQuiz_allQuestions (itemParameters : list ItemParameter.t) (s : state) :
  allQuestions (submitQuiz itemParameters s).2 = allQuestions s.
Proof.
  unfold submitQuiz. run_page. destruct (result itemParameters s) as [r | e]; reflexivity.
Qed.

Lemma submitQuiz_index (itemParameters : list ItemParameter.t) (s : state) :
  currentQuestionIndex (submitQuiz itemParameters s).2 = currentQuestionIndex s.
Proof.
  unfold submitQuiz. run_page. destruct (result itemParameters s) as [r | e]; reflexivity.
Qed.

Lemma submitQuiz_userAnswers (itemParameters : list ItemParameter.t) (s : state) :
  userAnswers (submitQuiz itemParameters s).2 = userAnswers s.
Proof.
  unfold submitQuiz. run_page. destruct (result itemParameters s) as [r | e]; reflexivity.
Qed.

Lemma handleNext_eq (itemParameters : list ItemParameter.t) (s : state) :
  handleNext itemParameters s
  = match currentQuestion s with
    | None => (Throw (TypeError "type"), s)
    | Some q =>
        if answered (userAnswers s) q then
          let s' := set_document (set_errorMessage "") s in
          if (currentQuestionIndex s <? Z.of_nat (length (allQuestions s)) - 1)%Z
          then renderQuestion (set_currentQuestionIndex (currentQuestionIndex s + 1) s')
          else submitQuiz itemParameters s'
        else (Ok tt, set_document (set_errorMessage "Please select an option.") s)
    end.
Proof.
  unfold handleNext, theQuestion. run_page.
  destruct (currentQuestion s) as [q |]; [| reflexivity].
  destruct (answered (userAnswers s) q); cbn [negb]; [| reflexivity].
  destruct (_ <? _)%Z; reflexivity.
Qed.

Lemma handleBack_eq (s : state) :
  handleBack s
  = if (0 <? currentQuestionIndex s)%Z
    then renderQuestion (set_currentQuestionIndex (currentQuestionIndex s - 1) s)
    else (Ok tt, s).
Proof.
  unfold handleBack. run_page. destruct (0 <? _)%Z; reflexivity.
Qed.

Lemma handleAnswerSelect_eq (name : string) (value : RadioValue) (s : state) :
  handleAnswerSelect name value s
  = if String.eqb name "" then (Ok tt, s)
    else match currentQuestion s with
         | None => (Throw (TypeError "type"), s)
         | Some q =>
             let userAnswers' := <[qId q := value]> (userAnswers s) in
             (Ok tt,
              set_document
                (fun d => set_errorMessage ""
                            (set_nextDisabled (negb (answered userAnswers' q)) d))
                (set_userAnswers userAnswers' s))
         end.
Proof.
  unfold handleAnswerSelect. destruct (String.eqb name ""); cbn [negb]; [reflexivity |].
  unfold updateSelection, theQuestion. run_page.
  destruct (currentQuestion s) as [q |] eqn:Eq; [| reflexivity].
  change (currentQuestion (set_userAnswers _ s)) with (currentQuestion s). rewrite Eq.
  reflexivity.
Qed.

Lemma restartQuiz_eq (s : state) :
  restartQuiz s
  = let s' := set_userAnswers ∅ (set_currentQuestionIndex 0 s) in
    match renderQuestion s' with
    | (Ok _, s'') => (Ok tt, set_document (set_active (fun x => Screen_eqb x welcome)) s'')
    | (Throw e, s'') => (Throw e, s'')
    end.
Proof.
  unfold restartQuiz, showScreen. run_page. cbv zeta.
  destruct (renderQuestion _) as [[[] | e] s'']; reflexivity.
Qed.

Lemma start_eq (itemParameters : list ItemParameter.t) (s : state) :
  handle itemParameters click_start s
  = renderQuestion (set_document (set_active (fun x => Screen_eqb x quiz)) s).
Proof.
  unfold handle, showScreen. run_page.
  destruct (renderQuestion _) as [[[] | e] s'']; reflexivity.
Qed.

Lemma handle_allQuestions (itemParameters : list ItemParameter.t) (e : Event) (s : state) :
  allQuestions (handle itemParameters e s).2 = allQuestions s.
Proof.
  destruct e as [| | | | name value].
  - rewrite start_eq. rewrite renderQuestion_allQuestions; reflexivity.
  - cbn [handle]. rewrite handleNext_eq.
    destruct (currentQuestion s) as [q |]; [| reflexivity].
    destruct (answered _ q); [| reflexivity]. cbv zeta.
    destruct (_ <? _)%Z.
    + rewrite renderQuestion_allQuestions; reflexivity.
    + rewrite submitQuiz_allQuestions; reflexivity.
  - cbn [handle]. rewrite handleBack_eq.
    destruct (0 <? _)%Z; [rewrite renderQuestion_allQuestions |]; reflexivity.
  - cbn [handle]. rewrite restartQuiz_eq. cbv zeta.
    pose proof (renderQuestion_allQuestions
                  (set_userAnswers ∅ (set_currentQuestionIndex 0 s))) as H.
    destruct (renderQuestion _) as [[[] | e] s'']; exact H.
  - cbn [handle]. rewrite handleAnswerSelect_eq.
    destruct (String.eqb name ""); [reflexivity |].
    destruct (currentQuestion s); reflexivity.
Qed.

Lemma handle_in_range (itemParameters : list ItemParameter.t) (e : Event) (s : state) :
  in_range s -> in_range (handle itemParameters e s).2.
Proof.
  unfold in_range. rewrite handle_allQuestions. intros Hs.
  destruct e as [| | | | name value].
  - rewrite start_eq.
    rewrite renderQuestion_index. exact Hs.
  - cbn [handle]. rewrite handleNext_eq.
    destruct (currentQuestion s) as [q |]; [| exact Hs].
    destruct (answered _ q); [| exact Hs]. cbv zeta.
    destruct (Z.ltb_spec (currentQuestionIndex s) (Z.of_nat (length (allQuestions s)) - 1)).
    + rewrite renderQuestion_index. cbn. lia.
    + rewrite submitQuiz_index. exact Hs.
  - cbn [handle]. rewrite handleBack_eq.
    destruct (Z.ltb_spec 0 (currentQuestionIndex s)); [| exact Hs].
    rewrite renderQuestion_index. cbn. lia.
  - cbn [handle]. rewrite restartQuiz_eq. cbv zeta.
    pose proof (renderQuestion_index
                  (set_userAnswers ∅ (set_currentQuestionIndex 0 s))) as H.
    destruct (renderQuestion _) as [[[] | e] s'']; cbn in H |- *; rewrite H; lia.
  - cbn [handle]. rewrite handleAnswerSelect_eq.
    destruct (String.eqb name ""); [exact Hs |].
    destruct (currentQuestion s); exact Hs.
Qed.

Lemma after_snoc (itemParameters : list ItemParameter.t) (events : list Event) (e : Event)
    (s : state) :
  after itemParameters (events ++ [e]) s
  = (handle itemParameters e (after itemParameters events s)).2.
Proof. unfold after. rewrite fold_left_app. reflexivity. Qed.

Lemma opened_allQuestions (mbtiQuestions : list MbtiQuestion.t)
    (attitudeQuestions : list AttitudeQuestion.t) (d : Document) :
  allQuestions (opened mbtiQuestions attitudeQuestions d)
  = List.map mbti mbtiQuestions ++ List.map attitude attitudeQuestions.
Proof. reflexivity. Qed.

Lemma after_allQuestions (itemParameters : list ItemParameter.t) (events : list Event)
    (s : state) :
  allQuestions (after itemParameters events s) = allQuestions s.
Proof.
  induction events as [| e events IH] using rev_ind; [reflexivity |].
  rewrite after_snoc, handle_allQuestions. exact IH.
Qed.

Lemma after_in_range (itemParameters : list ItemParameter.t) (events : list Event)
    (s : state) :
  in_range s -> in_range (after itemParameters events s).
Proof.
  intros Hs. induction events as [| e events IH] using rev_ind; [exact Hs |].
  rewrite after_snoc. apply handle_in_range. exact IH.
Qed.

(** X9.  Whatever is clicked and in whatever order, the page keeps the
    question list [init] built and the index of the current question stays
    inside it: it is never negative and never reaches the length of the
    list (it stays [0] when the list is empty). *)
Theorem X9_index_stays_in_range (itemParameters : list ItemParameter.t)
    (mbtiQuestions : list MbtiQuestion.t) (attitudeQuestions : list AttitudeQuestion.t)
    (d : Document) (events : list Event) :
  let s := after itemParameters events (opened mbtiQuestions attitudeQuestions d) in
  allQuestions s = List.map mbti mbtiQuestions ++ List.map attitude attitudeQuestions
  /\ (0 <= currentQuestionIndex s)%Z
  /\ (currentQuestionIndex s
      < Z.max 1 (Z.of_nat (length mbtiQuestions + length attitudeQuestions)))%Z.
Proof.
  cbv zeta.
  pose proof (after_in_range itemParameters events
                (opened mbtiQuestions attitudeQuestions d)) as H.
  unfold in_range in H. rewrite after_allQuestions, opened_allQuestions in H |- *.
  rewrite length_app, !length_map in H.
  split; [reflexivity |]. apply H.
  change (currentQuestionIndex (opened mbtiQuestions attitudeQuestions d)) with 0%Z. lia.
Qed.

(** ** Invariants of the page *)

Lemma after_invariant (itemParameters : list ItemParameter.t) (P : state -> Prop)
    (Q : Event -> Prop) (events : list Event) (s : state) :
  (forall e s, Q e -> P s -> P (handle itemParameters e s).2) ->
  Forall Q events -> P s -> P (after itemParameters events s).
Proof.
  intros Hstep Hevents Hs.
  induction events as [| e events IH] using rev_ind; [exact Hs |].
  apply Forall_app in Hevents as [Hevents He]. apply Forall_cons in He as [He _].
  rewrite after_snoc. apply Hstep; [exact He |]. apply IH. exact Hevents.
Qed.

Lemma complete_options_markup (mbtiQuestions : list MbtiQuestion.t)
    (attitudeQuestions : list AttitudeQuestion.t) (q : Question) :
  complete_options mbtiQuestions ->
  q ∈ List.map mbti mbtiQuestions ++ List.map attitude attitudeQuestions ->
  has_markup q = true.
Proof.
  intros Hcomplete Hin. apply elem_of_app in Hin as [Hin | Hin];
    apply list_elem_of_In, in_map_iff in Hin as (x & <- & Hx); [| reflexivity].
  apply list_elem_of_In in Hx. destruct (Hcomplete x Hx) as [HA HB].
  unfold has_markup. rewrite !bool_decide_eq_true_2 by assumption. reflexivity.
Qed.

Lemma currentQuestion_elem (s : state) (q : Question) :
  currentQuestion s = Some q -> q ∈ allQuestions s.
Proof.
  intros H. apply currentQuestion_Some in H as [_ H].
  exact (list_elem_of_lookup_2 _ _ _ H).
Qed.

(** With complete options [renderQuestion] does not throw. *)
Lemma renderQuestion_complete (s : state) :
  (forall q, q ∈ allQuestions s -> has_markup q = true) ->
  renderQuestion s
  = (Ok tt, match currentQuestion s with Some q => drawn s q | None => s end).
Proof.
  intros Hall. rewrite renderQuestion_eq.
  destruct (currentQuestion s) as [q |] eqn:Eq; [| reflexivity].
  rewrite (Hall q (currentQuestion_elem _ _ Eq)). reflexivity.
Qed.

Lemma renderQuestion_active (s : state) :
  active (document (renderQuestion s).2) = active (document s).
Proof.
  rewrite renderQuestion_eq.
  destruct (currentQuestion s) as [q |]; [destruct (has_markup q) |]; reflexivity.
Qed.

(** The value of a radio button is not empty: a saved answer is truthy. *)
Lemma value_of_truthy (v : RadioValue) : negb (String.eqb (value_of v) "") = true.
Proof. destruct v; reflexivity. Qed.

Lemma answered_insert (userAnswers : gmap string RadioValue) (key : string)
    (value : RadioValue) (q : Question) :
  answered userAnswers q = true ->
  answered (<[key := value]> userAnswers) q = true.
Proof.
  unfold answered.
  destruct (decide (key = qId q)) as [-> | Hne].
  - rewrite lookup_insert_eq. intros _. apply value_of_truthy.
  - rewrite lookup_insert_ne by exact Hne. tauto.
Qed.

Lemma handle_none_skipped (itemParameters : list ItemParameter.t) (e : Event) (s : state) :
  (forall q, q ∈ allQuestions s -> has_markup q = true) ->
  in_range s /\ none_skipped s ->
  none_skipped (handle itemParameters e s).2.
Proof.
  intros Hmarkup [Hrange [Hprefix Hshown]]. unfold none_skipped.
  destruct e as [| | | | name value].
  - rewrite start_eq, renderQuestion_complete by exact Hmarkup.
    cbn [snd]. set (s' := set_document _ s).
    assert (allQuestions match currentQuestion s' with Some q => drawn s' q | None => s' end
            = allQuestions s) as -> by (destruct (currentQuestion s'); reflexivity).
    assert (currentQuestionIndex match currentQuestion s' with
                                 | Some q => drawn s' q | None => s' end
            = currentQuestionIndex s) as -> by (destruct (currentQuestion s'); reflexivity).
    assert (userAnswers match currentQuestion s' with Some q => drawn s' q | None => s' end
            = userAnswers s) as -> by (destruct (currentQuestion s'); reflexivity).
    split; [exact Hprefix |].
    destruct (currentQuestion s'); cbn; discriminate.
  - cbn [handle]. rewrite handleNext_eq.
    destruct (currentQuestion s) as [q |] eqn:Eq; [| split; assumption].
    destruct (answered (userAnswers s) q) eqn:Ea; [| split; assumption]. cbv zeta.
    apply currentQuestion_Some in Eq as [Hi Hq].
    destruct (Z.ltb_spec (currentQuestionIndex s) (Z.of_nat (length (allQuestions s)) - 1))
      as [Hlt | Hge].
    + rewrite renderQuestion_allQuestions, renderQuestion_index, renderQuestion_userAnswers,
        renderQuestion_active.
      split; [| exact Hshown].
      cbn. intros i q' Hi' Hq'.
      destruct (decide (Z.of_nat i = currentQuestionIndex s)) as [Heq | Hne].
      * rewrite <- Heq, Nat2Z.id in Hq. rewrite Hq in Hq'. injection Hq' as <-. exact Ea.
      * apply (Hprefix i q'); [lia | exact Hq'].
    + rewrite submitQuiz_allQuestions, submitQuiz_index, submitQuiz_userAnswers.
      split; [exact Hprefix |]. cbn. intros _ q' Hin.
      apply list_elem_of_lookup in Hin as [i Hq'].
      pose proof (lookup_lt_Some _ _ _ Hq') as Hlen.
      destruct (decide (Z.of_nat i = currentQuestionIndex s)) as [Heq | Hne].
      * rewrite <- Heq, Nat2Z.id in Hq. rewrite Hq in Hq'. injection Hq' as <-. exact Ea.
      * apply (Hprefix i q'); [lia | exact Hq'].
  - cbn [handle]. rewrite handleBack_eq.
    destruct (Z.ltb_spec 0 (currentQuestionIndex s)); [| split; assumption].
    rewrite renderQuestion_allQuestions, renderQuestion_index, renderQuestion_userAnswers,
      renderQuestion_active.
    split; [| exact Hshown]. cbn. intros i q' Hi' Hq'. apply (Hprefix i q'); [lia | exact Hq'].
  - cbn [handle]. rewrite restartQuiz_eq. cbv zeta.
    rewrite renderQuestion_complete by exact Hmarkup.
    set (s' := set_userAnswers ∅ (set_currentQuestionIndex 0 s)).
    split.
    + intros i q' Hi'. exfalso. destruct (currentQuestion s'); cbn in Hi'; lia.
    + cbn. discriminate.
  - cbn [handle]. rewrite handleAnswerSelect_eq.
    destruct (String.eqb name ""); [split; assumption |].
    destruct (currentQuestion s) as [q |]; [| split; assumption].
    cbn. split.
    + intros i q' Hi' Hq'. apply answered_insert. exact (Hprefix i q' Hi' Hq').
    + intros Hres q' Hin. apply answered_insert. exact (Hshown Hres q' Hin).
Qed.

Lemma example_complete : complete_options example_questions.
Proof.
  intros q Hq. apply list_elem_of_singleton in Hq. subst q.
  split; eexists; reflexivity.
Qed.

Lemma no_ids : plain_ids [].
Proof. intros q Hq. apply elem_of_nil in Hq. contradiction. Qed.

Lemma opened_in_range (mbtiQuestions : list MbtiQuestion.t)
    (attitudeQuestions : list AttitudeQuestion.t) (d : Document) :
  in_range (opened mbtiQuestions attitudeQuestions d).
Proof.
  unfold in_range.
  change (currentQuestionIndex (opened mbtiQuestions attitudeQuestions d)) with 0%Z. lia.
Qed.

(** X10.  No question is skipped.  When every forced-choice question has its
    two options and no Likert id names a property of [Object.prototype],
    then after any sequence of events every question before the current one
    has a saved answer, and whenever the results screen is shown every
    question of the list has one. *)
Theorem X10_no_question_is_skipped (itemParameters : list ItemParameter.t)
    (mbtiQuestions : list MbtiQuestion.t) (attitudeQuestions : list AttitudeQuestion.t)
    (d : Document) (events : list Event) :
  complete_options mbtiQuestions ->
  plain_ids attitudeQuestions ->
  let s := after itemParameters events (opened mbtiQuestions attitudeQuestions d) in
  (forall (i : nat) q,
     (Z.of_nat i < currentQuestionIndex s)%Z ->
     allQuestions s !! i = Some q ->
     answered (userAnswers s) q = true)
  /\ (active (document s) results = true ->
      forall q, q ∈ allQuestions s -> answered (userAnswers s) q = true).
Proof.
  intros Hcomplete _. cbv zeta.
  set (P := fun s : state =>
              allQuestions s = List.map mbti mbtiQuestions ++ List.map attitude attitudeQuestions
              /\ in_range s /\ none_skipped s).
  assert (P (after itemParameters events (opened mbtiQuestions attitudeQuestions d))) as H.
  { apply (after_invariant itemParameters P (fun _ => True));
      [| apply Forall_forall; intros; exact I |].
    - intros e s _ (Hqs & Hrange & Hnone). unfold P.
      rewrite handle_allQuestions. split; [exact Hqs |].
      split; [apply handle_in_range; exact Hrange |].
      apply handle_none_skipped; [| split; assumption].
      intros q Hq. rewrite Hqs in Hq.
      exact (complete_options_markup _ _ _ Hcomplete Hq).
    - split; [reflexivity |]. split.
      + apply opened_in_range.
      + split.
        * intros i q Hi _.
          change (currentQuestionIndex (opened mbtiQuestions attitudeQuestions d))
            with 0%Z in Hi.
          lia.
        * cbn. discriminate. }
  exact (proj2 (proj2 H)).
Qed.

Lemma X10_no_question_is_skipped_witness :
  let s := after example_items [click_start; change "q1" value_A; click_next]
             (opened example_questions [] blank) in
  (forall (i : nat) q,
     (Z.of_nat i < currentQuestionIndex s)%Z ->
     allQuestions s !! i = Some q ->
     answered (userAnswers s) q = true)
  /\ (active (document s) results = true ->
      forall q, q ∈ allQuestions s -> answered (userAnswers s) q = true).
Proof.
  exact (X10_no_question_is_skipped example_items example_questions [] blank
           [click_start; change "q1" value_A; click_next] example_complete no_ids).
Defined.

(** ** The document follows the state *)

Lemma drawn_in_sync (s : state) (q : Question) :
  currentQuestion s = Some q -> in_sync (drawn s q).
Proof.
  intros Hq q' Hq'. change (currentQuestion (drawn s q)) with (currentQuestion s) in Hq'.
  rewrite Hq in Hq'. injection Hq' as <-. cbv zeta.
  apply currentQuestion_Some in Hq as [Hi _].
  repeat split. cbn.
  rewrite Reqb_false; [reflexivity |].
  apply not_0_IZR. lia.
Qed.

Lemma renderQuestion_in_sync (s : state) :
  (forall q, q ∈ allQuestions s -> has_markup q = true) ->
  in_sync (renderQuestion s).2.
Proof.
  intros Hmarkup. rewrite renderQuestion_complete by exact Hmarkup. cbn [snd].
  destruct (currentQuestion s) as [q |] eqn:Eq.
  - apply drawn_in_sync. exact Eq.
  - intros q Hq. rewrite Eq in Hq. discriminate Hq.
Qed.

(** Assignments to the properties [in_sync] does not read keep it. *)
Lemma in_sync_set_active (f : Screen -> bool) (s : state) :
  in_sync s -> in_sync (set_document (set_active f) s).
Proof. intros H q Hq. exact (H q Hq). Qed.

Lemma in_sync_set_errorMessage (t : string) (s : state) :
  in_sync s -> in_sync (set_document (set_errorMessage t) s).
Proof. intros H q Hq. exact (H q Hq). Qed.

Lemma in_sync_set_finalTypeText (t : string) (s : state) :
  in_sync s -> in_sync (set_document (set_finalTypeText t) s).
Proof. intros H q Hq. exact (H q Hq). Qed.

Lemma handle_in_sync (itemParameters : list ItemParameter.t) (e : Event) (s : state) :
  (forall q, q ∈ allQuestions s -> has_markup q = true) ->
  in_sync s \/ e = click_start ->
  in_sync (handle itemParameters e s).2.
Proof.
  intros Hmarkup Hs.
  destruct e as [| | | | name value];
    try (destruct Hs as [Hs | Hs]; [| discriminate Hs]).
  - rewrite start_eq. apply renderQuestion_in_sync. exact Hmarkup.
  - cbn [handle]. rewrite handleNext_eq.
    destruct (currentQuestion s) as [q |] eqn:Eq; [| exact Hs].
    destruct (answered (userAnswers s) q) eqn:Ea;
      [| apply in_sync_set_errorMessage; exact Hs].
    cbv zeta. destruct (_ <? _)%Z.
    + apply renderQuestion_in_sync. exact Hmarkup.
    + unfold submitQuiz, showScreen. run_page.
      change (result itemParameters (set_document (set_errorMessage "") s))
        with (result itemParameters s).
      destruct (result itemParameters s) as [r | err]; cbn [snd].
      * apply in_sync_set_active, in_sync_set_finalTypeText, in_sync_set_errorMessage.
        exact Hs.
      * apply in_sync_set_errorMessage. exact Hs.
  - cbn [handle]. rewrite handleBack_eq.
    destruct (0 <? _)%Z; [| exact Hs].
    apply renderQuestion_in_sync. exact Hmarkup.
  - cbn [handle]. rewrite restartQuiz_eq. cbv zeta.
    pose proof (renderQuestion_in_sync (set_userAnswers ∅ (set_currentQuestionIndex 0 s))
                  Hmarkup) as H.
    destruct (renderQuestion _) as [[[] | err] s'']; cbn [snd] in H |- *; [| exact H].
    apply in_sync_set_active. exact H.
  - cbn [handle]. rewrite handleAnswerSelect_eq.
    destruct (String.eqb name ""); [exact Hs |].
    destruct (currentQuestion s) as [q |] eqn:Eq; [| exact Hs].
    cbn [snd]. intros q' Hq'.
    change (currentQuestion _) with (currentQuestion s) in Hq'.
    rewrite Eq in Hq'. injection Hq' as <-.
    destruct (Hs q Eq) as (Hc & _ & Hb & Ht & Hp). cbv zeta in *.
    repeat split; assumption.
Qed.

Lemma after_cons (itemParameters : list ItemParameter.t) (e : Event) (events : list Event)
    (s : state) :
  after itemParameters (e :: events) s
  = after itemParameters events (handle itemParameters e s).2.
Proof. reflexivity. Qed.

Lemma after_app (itemParameters : list ItemParameter.t) (events events' : list Event)
    (s : state) :
  after itemParameters (events ++ events') s
  = after itemParameters events' (after itemParameters events s).
Proof. unfold after. apply fold_left_app. Qed.

Lemma progress_bounds (index length : Z) :
  (0 <= index < length)%Z -> 0 <= IZR index / IZR length * 100 < 100.
Proof.
  intros [H0 Hlt].
  assert (0 <= IZR index) as Hi by (apply IZR_le in H0; exact H0).
  assert (IZR index < IZR length) as Hl by (apply IZR_lt; exact Hlt).
  assert (0 < IZR length) as Hpos by lra.
  split.
  - apply Rmult_le_pos; [| lra]. apply Rmult_le_pos; [exact Hi |].
    left. apply Rinv_0_lt_compat. exact Hpos.
  - assert (IZR index / IZR length < 1) as H1.
    { apply (Rmult_lt_reg_r (IZR length)); [exact Hpos |].
      unfold Rdiv. rewrite Rmult_assoc, Rinv_l by lra. lra. }
    lra.
Qed.

(** X11.  When no Likert id names a property of [Object.prototype], then
    once the quiz has been started the document shows the current question
    after every event: its markup is in the container, the next
    button is disabled exactly when the question has no saved answer, the
    back button is hidden exactly on the first question, the next button
    reads [Get My Result] exactly on the last question, and the progress bar
    is at [index / length * 100] percent, which never reaches 100. *)
Theorem X11_document_shows_current_question (itemParameters : list ItemParameter.t)
    (mbtiQuestions : list MbtiQuestion.t) (attitudeQuestions : list AttitudeQuestion.t)
    (d : Document) (before later : list Event) (q : Question) :
  complete_options mbtiQuestions ->
  plain_ids attitudeQuestions ->
  let s := after itemParameters (before ++ click_start :: later)
             (opened mbtiQuestions attitudeQuestions d) in
  let index := currentQuestionIndex s in
  let length := Z.of_nat (length (allQuestions s)) in
  currentQuestion s = Some q ->
  questionContainer (document s) = Some q
  /\ nextDisabled (document s) = negb (answered (userAnswers s) q)
  /\ backVisible (document s) = (0 <? index)%Z
  /\ nextText (document s) = (if (index =? length - 1)%Z then "Get My Result" else "Next")%string
  /\ progress (document s) = Js.Num (IZR index / IZR length * 100)
  /\ 0 <= IZR index / IZR length * 100 < 100.
Proof.
  intros Hcomplete _. cbv zeta. rewrite after_app, after_cons.
  set (s0 := after itemParameters before (opened mbtiQuestions attitudeQuestions d)).
  set (P := fun s : state =>
              allQuestions s = List.map mbti mbtiQuestions ++ List.map attitude attitudeQuestions
              /\ in_sync s).
  assert (forall s, allQuestions s
                    = List.map mbti mbtiQuestions ++ List.map attitude attitudeQuestions ->
                    forall q, q ∈ allQuestions s -> has_markup q = true) as Hmarkup.
  { intros s Hqs q' Hq'. rewrite Hqs in Hq'.
    exact (complete_options_markup _ _ _ Hcomplete Hq'). }
  assert (allQuestions s0
          = List.map mbti mbtiQuestions ++ List.map attitude attitudeQuestions) as Hqs0
    by (unfold s0; rewrite after_allQuestions; reflexivity).
  assert (P (after itemParameters later (handle itemParameters click_start s0).2)) as [_ H].
  { apply (after_invariant itemParameters P (fun _ => True)).
    - intros e s _ [Hqs Hs]. split; [rewrite handle_allQuestions; exact Hqs |].
      apply handle_in_sync; [exact (Hmarkup s Hqs) | left; exact Hs].
    - apply Forall_forall. intros; exact I.
    - split; [rewrite handle_allQuestions; exact Hqs0 |].
      apply handle_in_sync; [exact (Hmarkup s0 Hqs0) | right; reflexivity]. }
  intros Hq. destruct (H q Hq) as (Hc & Hn & Hb & Ht & Hp). cbv zeta in *.
  repeat (split; [assumption |]).
  apply progress_bounds. apply currentQuestion_Some in Hq as [Hi _]. exact Hi.
Qed.

Lemma X11_document_shows_current_question_witness :
  let s := after example_items [click_start] (opened example_questions [] blank) in
  nextDisabled (document s) = true /\ backVisible (document s) = false.
Proof.
  cbv zeta.
  destruct (X11_document_shows_current_question example_items example_questions [] blank
              [] [] (mbti {| MbtiQuestion.number := 1;
                             MbtiQuestion.options :=
                               <[ "A"%string := {| MbtiQuestion.scoreKey := Some 1 |} ]>
                                 {[ "B"%string := {| MbtiQuestion.scoreKey := Some 0 |} ]} |})
              example_complete no_ids eq_refl)
    as (_ & Hn & Hb & _).
  split; [exact Hn | exact Hb].
Defined.

(** ** Exceptions of the page *)

Lemma renderQuestion_returns (s : state) :
  (forall q, q ∈ allQuestions s -> has_markup q = true) ->
  (renderQuestion s).1 = Ok tt.
Proof. intros H. rewrite renderQuestion_complete by exact H. reflexivity. Qed.

Lemma submitQuiz_outcome (itemParameters : list ItemParameter.t) (s : state) :
  (submitQuiz itemParameters s).1
  = match result itemParameters s with Ok _ => Ok tt | Throw e => Throw e end.
Proof.
  unfold submitQuiz, showScreen. run_page.
  destruct (result itemParameters s); reflexivity.
Qed.

Lemma handle_throws (itemParameters : list ItemParameter.t) (e : Event) (s : state)
    (err : error) :
  (forall q, q ∈ allQuestions s -> has_markup q = true) ->
  is_Some (currentQuestion s) ->
  (handle itemParameters e s).1 = Throw err ->
  e = click_next
  /\ currentQuestionIndex s = (Z.of_nat (length (allQuestions s)) - 1)%Z
  /\ result itemParameters s = Throw err.
Proof.
  intros Hmarkup [q Hq].
  destruct e as [| | | | name value].
  - rewrite start_eq, renderQuestion_returns by exact Hmarkup. discriminate.
  - cbn [handle]. rewrite handleNext_eq, Hq.
    destruct (answered (userAnswers s) q); [| discriminate]. cbv zeta.
    destruct (Z.ltb_spec (currentQuestionIndex s) (Z.of_nat (length (allQuestions s)) - 1))
      as [Hlt | Hge].
    + rewrite renderQuestion_returns by exact Hmarkup. discriminate.
    + rewrite submitQuiz_outcome.
      change (result itemParameters (set_document (set_errorMessage "") s))
        with (result itemParameters s).
      destruct (result itemParameters s) as [r | err']; [discriminate |].
      intros [= <-]. split; [reflexivity |]. split; [| reflexivity].
      apply currentQuestion_Some in Hq as [Hi _]. lia.
  - cbn [handle]. rewrite handleBack_eq.
    destruct (0 <? _)%Z; [| discriminate].
    rewrite renderQuestion_returns by exact Hmarkup. discriminate.
  - cbn [handle]. rewrite restartQuiz_eq. cbv zeta.
    pose proof (renderQuestion_returns (set_userAnswers ∅ (set_currentQuestionIndex 0 s))
                  Hmarkup) as H.
    destruct (renderQuestion _) as [[[] | err'] s'']; [discriminate | discriminate H].
  - cbn [handle]. rewrite handleAnswerSelect_eq, Hq.
    destruct (String.eqb name ""); discriminate.
Qed.

(** X12.  On a list of at least one question whose forced-choice questions
    have their two options, the only exception that escapes a handler is
    the one the scorer throws: it escapes the click on the next button at
    the last question, and only there. *)
Theorem X12_only_the_scorer_throws (itemParameters : list ItemParameter.t)
    (mbtiQuestions : list MbtiQuestion.t) (attitudeQuestions : list AttitudeQuestion.t)
    (d : Document) (events : list Event) (e : Event) (err : error) :
  complete_options mbtiQuestions ->
  mbtiQuestions <> [] \/ attitudeQuestions <> [] ->
  let s := after itemParameters events (opened mbtiQuestions attitudeQuestions d) in
  (handle itemParameters e s).1 = Throw err ->
  e = click_next
  /\ currentQuestionIndex s = (Z.of_nat (length (allQuestions s)) - 1)%Z
  /\ result itemParameters s = Throw err.
Proof.
  intros Hcomplete Hnonempty. cbv zeta.
  set (s := after itemParameters events (opened mbtiQuestions attitudeQuestions d)).
  assert (allQuestions s
          = List.map mbti mbtiQuestions ++ List.map attitude attitudeQuestions) as Hqs
    by (unfold s; rewrite after_allQuestions; reflexivity).
  apply handle_throws.
  - intros q Hq. rewrite Hqs in Hq. exact (complete_options_markup _ _ _ Hcomplete Hq).
  - apply currentQuestion_is_Some.
    pose proof (after_in_range itemParameters events _
                  (opened_in_range mbtiQuestions attitudeQuestions d)) as Hrange.
    fold s in Hrange. unfold in_range in Hrange.
    assert (0 < length (allQuestions s))%nat as Hlen.
    { rewrite Hqs, length_app, !length_map.
      destruct Hnonempty as [H | H]; [destruct mbtiQuestions | destruct attitudeQuestions];
        try contradiction; cbn; lia. }
    lia.
Qed.

Lemma X12_only_the_scorer_throws_witness :
  let s := after example_items [click_start; change "q1" value_1]
             (opened example_questions [] blank) in
  result example_items s = Throw (TypeError "scoreKey").
Proof.
  cbv zeta.
  refine (proj2 (proj2 (X12_only_the_scorer_throws example_items example_questions [] blank
                          [click_start; change "q1" value_1] click_next (TypeError "scoreKey")
                          example_complete (or_introl _) _))).
  - discriminate.
  - reflexivity.
Defined.

(** X13.  On an empty question list the click on the next button throws
    the [TypeError] of reading [type] of [undefined], and so does the
    selection of an answer, whatever happened before; the other three
    events return. *)
Theorem X13_empty_list_throws (itemParameters : list ItemParameter.t) (d : Document)
    (events : list Event) (e : Event) :
  let s := after itemParameters events (opened [] [] d) in
  (handle itemParameters e s).1
  = match e with
    | click_next => Throw (TypeError "type")
    | change name _ => if String.eqb name "" then Ok tt else Throw (TypeError "type")
    | _ => Ok tt
    end.
Proof.
  cbv zeta. set (s := after itemParameters events (opened [] [] d)).
  assert (allQuestions s = []) as Hqs by (unfold s; rewrite after_allQuestions; reflexivity).
  assert (forall s', allQuestions s' = [] -> currentQuestion s' = None) as Hnone.
  { intros s' H. unfold currentQuestion. rewrite H.
    destruct (_ <? _)%Z; reflexivity. }
  assert (forall s', allQuestions s' = [] -> (renderQuestion s').1 = Ok tt) as Hrender.
  { intros s' H. rewrite renderQuestion_eq, (Hnone s' H). reflexivity. }
  destruct e as [| | | | name value].
  - rewrite start_eq. apply Hrender. exact Hqs.
  - cbn [handle]. rewrite handleNext_eq, (Hnone s Hqs). reflexivity.
  - cbn [handle]. rewrite handleBack_eq.
    destruct (0 <? _)%Z; [| reflexivity]. apply Hrender. exact Hqs.
  - cbn [handle]. rewrite restartQuiz_eq. cbv zeta.
    pose proof (Hrender (set_userAnswers ∅ (set_currentQuestionIndex 0 s)) Hqs) as H.
    destruct (renderQuestion _) as [[[] | err'] s'']; [reflexivity | discriminate H].
  - cbn [handle]. rewrite handleAnswerSelect_eq, (Hnone s Hqs).
    destruct (String.eqb name ""); reflexivity.
Qed.

(** ** What the page hands to the scorer *)

Lemma gathered_mbti (userAnswers : gmap string RadioValue) (qs : list Question) (n : nat)
    (answer : Answer) :
  (fold_left (gather userAnswers) qs (∅, ∅)).1 !! n = Some answer
  <-> (exists q, mbti q ∈ qs /\ MbtiQuestion.number q = n)
      /\ exists v, userAnswers !! pretty n = Some v
                   /\ answer = {| choice := VStr (value_of v) |}.
Proof.
  induction qs as [| q qs IH] using rev_ind.
  - cbn. rewrite lookup_empty. split; [discriminate |].
    intros [(q & Hq & _) _]. apply elem_of_nil in Hq. contradiction.
  - rewrite fold_left_app. cbn [fold_left].
    destruct (fold_left (gather userAnswers) qs (∅, ∅)) as [mbtiAnswers attitudeAnswers].
    cbn [fst] in IH.
    assert (mbtiAnswers !! n = Some answer ->
            (exists q0, mbti q0 ∈ qs ++ [q] /\ MbtiQuestion.number q0 = n)
            /\ exists v, userAnswers !! pretty n = Some v
                         /\ answer = {| choice := VStr (value_of v) |}) as Hold.
    { intros H. apply IH in H as [(q0 & Hq0 & Hn) Hv]. split; [| exact Hv].
      exists q0. split; [apply elem_of_app; left; exact Hq0 | exact Hn]. }
    destruct q as [m | a]; cbn [gather].
    + destruct (decide (MbtiQuestion.number m = n)) as [<- | Hne].
      * destruct (userAnswers !! pretty (MbtiQuestion.number m)) as [v |] eqn:Ev.
        -- rewrite value_of_truthy. cbn [fst]. rewrite lookup_insert_eq. split.
           ++ intros [= <-]. split.
              ** exists m. split; [| reflexivity].
                 apply elem_of_app. right. apply list_elem_of_here.
              ** exists v. split; reflexivity.
           ++ intros (_ & v' & [= <-] & ->). reflexivity.
        -- cbn [fst]. split; [exact Hold |].
           intros (_ & v' & Hv' & _). discriminate Hv'.
      * assert ((match userAnswers !! pretty (MbtiQuestion.number m) with
                 | Some v =>
                     if negb (String.eqb (value_of v) "")
                     then (<[MbtiQuestion.number m := {| choice := VStr (value_of v) |}]>
                             mbtiAnswers,
                           attitudeAnswers)
                     else (mbtiAnswers, attitudeAnswers)
                 | None => (mbtiAnswers, attitudeAnswers)
                 end).1 !! n = mbtiAnswers !! n) as ->.
        { destruct (userAnswers !! pretty (MbtiQuestion.number m)) as [v |]; [| reflexivity].
          destruct (negb (String.eqb (value_of v) "")); [| reflexivity].
          cbn [fst]. apply lookup_insert_ne. exact Hne. }
        split; [exact Hold |].
        intros [(q0 & Hq0 & Hn) Hv]. apply IH. split; [| exact Hv].
        exists q0. split; [| exact Hn].
        apply elem_of_app in Hq0 as [Hq0 | Hq0]; [exact Hq0 |].
        apply list_elem_of_singleton in Hq0. injection Hq0 as ->. contradiction.
    + assert ((match userAnswers !! AttitudeQuestion.id a with
               | Some v =>
                   if negb (String.eqb (value_of v) "")
                   then (mbtiAnswers,
                         <[AttitudeQuestion.id a := {| choice := VStr (value_of v) |}]>
                           attitudeAnswers)
                   else (mbtiAnswers, attitudeAnswers)
               | None => (mbtiAnswers, attitudeAnswers)
               end).1 = mbtiAnswers) as ->.
      { destruct (userAnswers !! AttitudeQuestion.id a) as [v |]; [| reflexivity].
        destruct (negb (String.eqb (value_of v) "")); reflexivity. }
      split; [exact Hold |].
      intros [(q0 & Hq0 & Hn) Hv]. apply IH. split; [| exact Hv].
      exists q0. split; [| exact Hn].
      apply elem_of_app in Hq0 as [Hq0 | Hq0]; [exact Hq0 |].
      apply list_elem_of_singleton in Hq0. discriminate Hq0.
Qed.

Lemma gathered_attitude (userAnswers : gmap string RadioValue) (qs : list Question)
    (id : string) (answer : Answer) :
  (fold_left (gather userAnswers) qs (∅, ∅)).2 !! id = Some answer
  <-> (exists q, attitude q ∈ qs /\ AttitudeQuestion.id q = id)
      /\ exists v, userAnswers !! id = Some v
                   /\ answer = {| choice := VStr (value_of v) |}.
Proof.
  induction qs as [| q qs IH] using rev_ind.
  - cbn. rewrite lookup_empty. split; [discriminate |].
    intros [(q & Hq & _) _]. apply elem_of_nil in Hq. contradiction.
  - rewrite fold_left_app. cbn [fold_left].
    destruct (fold_left (gather userAnswers) qs (∅, ∅)) as [mbtiAnswers attitudeAnswers].
    cbn [snd] in IH.
    assert (attitudeAnswers !! id = Some answer ->
            (exists q0, attitude q0 ∈ qs ++ [q] /\ AttitudeQuestion.id q0 = id)
            /\ exists v, userAnswers !! id = Some v
                         /\ answer = {| choice := VStr (value_of v) |}) as Hold.
    { intros H. apply IH in H as [(q0 & Hq0 & Hn) Hv]. split; [| exact Hv].
      exists q0. split; [apply elem_of_app; left; exact Hq0 | exact Hn]. }
    destruct q as [m | a]; cbn [gather].
    + assert ((match userAnswers !! pretty (MbtiQuestion.number m) with
               | Some v =>
                   if negb (String.eqb (value_of v) "")
                   then (<[MbtiQuestion.number m := {| choice := VStr (value_of v) |}]>
                           mbtiAnswers,
                         attitudeAnswers)
                   else (mbtiAnswers, attitudeAnswers)
               | None => (mbtiAnswers, attitudeAnswers)
               end).2 = attitudeAnswers) as ->.
      { destruct (userAnswers !! pretty (MbtiQuestion.number m)) as [v |]; [| reflexivity].
        destruct (negb (String.eqb (value_of v) "")); reflexivity. }
      split; [exact Hold |].
      intros [(q0 & Hq0 & Hn) Hv]. apply IH. split; [| exact Hv].
      exists q0. split; [| exact Hn].
      apply elem_of_app in Hq0 as [Hq0 | Hq0]; [exact Hq0 |].
      apply list_elem_of_singleton in Hq0. discriminate Hq0.
    + destruct (decide (AttitudeQuestion.id a = id)) as [<- | Hne].
      * destruct (userAnswers !! AttitudeQuestion.id a) as [v |] eqn:Ev.
        -- rewrite value_of_truthy. cbn [snd]. rewrite lookup_insert_eq. split.
           ++ intros [= <-]. split.
              ** exists a. split; [| reflexivity].
                 apply elem_of_app. right. apply list_elem_of_here.
              ** exists v. split; reflexivity.
           ++ intros (_ & v' & [= <-] & ->). reflexivity.
        -- cbn [snd]. split; [exact Hold |].
           intros (_ & v' & Hv' & _). discriminate Hv'.
      * assert ((match userAnswers !! AttitudeQuestion.id a with
                 | Some v =>
                     if negb (String.eqb (value_of v) "")
                     then (mbtiAnswers,
                           <[AttitudeQuestion.id a := {| choice := VStr (value_of v) |}]>
                             attitudeAnswers)
                     else (mbtiAnswers, attitudeAnswers)
                 | None => (mbtiAnswers, attitudeAnswers)
                 end).2 !! id = attitudeAnswers !! id) as ->.
        { destruct (userAnswers !! AttitudeQuestion.id a) as [v |]; [| reflexivity].
          destruct (negb (String.eqb (value_of v) "")); [| reflexivity].
          cbn [snd]. apply lookup_insert_ne. exact Hne. }
        split; [exact Hold |].
        intros [(q0 & Hq0 & Hn) Hv]. apply IH. split; [| exact Hv].
        exists q0. split; [| exact Hn].
        apply elem_of_app in Hq0 as [Hq0 | Hq0]; [exact Hq0 |].
        apply list_elem_of_singleton in Hq0. injection Hq0 as ->. contradiction.
Qed.

(** X14.  What [submitQuiz] hands to the scorer, when no Likert id of the
    list names a property of [Object.prototype]: an answer under the number
    of a forced-choice question of the list, or under the id of a Likert
    question of the list, exactly when there is a saved answer under that
    key, and the answer carries the saved value, a string, as its choice.
    Saved answers under other keys are not handed over. *)
Theorem X14_what_is_submitted (s : state) :
  plain_ids (attitudeQuestionsOf (allQuestions s)) ->
  (forall n answer,
     (submitted s).1 !! n = Some answer
     <-> (exists q, mbti q ∈ allQuestions s /\ MbtiQuestion.number q = n)
         /\ exists v, userAnswers s !! pretty n = Some v
                      /\ answer = {| choice := VStr (value_of v) |})
  /\ (forall id answer,
        (submitted s).2 !! id = Some answer
        <-> (exists q, attitude q ∈ allQuestions s /\ AttitudeQuestion.id q = id)
            /\ exists v, userAnswers s !! id = Some v
                         /\ answer = {| choice := VStr (value_of v) |}).
Proof.
  intros _. split.
  - intros n answer. apply gathered_mbti.
  - intros id answer. apply gathered_attitude.
Qed.

Lemma X14_what_is_submitted_witness :
  (submitted (after example_items [click_start; change "q1" value_A]
                (opened example_questions [] blank))).1 !! 1%nat
  = Some {| choice := VStr "A" |}.
Proof.
  refine (proj2 (proj1 (X14_what_is_submitted
                          (after example_items [click_start; change "q1" value_A]
                             (opened example_questions [] blank)) _) 1%nat _) _).
  - exact no_ids.
  - split.
    + eexists. split; [apply list_elem_of_here | reflexivity].
    + exists value_A. split; reflexivity.
Defined.

(** ** From the first question to the result *)

Lemma mbtiQuestionsOf_elem (qs : list Question) (q : MbtiQuestion.t) :
  q ∈ mbtiQuestionsOf qs <-> mbti q ∈ qs.
Proof.
  unfold mbtiQuestionsOf. rewrite list_elem_of_omap. split.
  - intros ([m | a] & Hin & Heq); [| discriminate]. injection Heq as <-. exact Hin.
  - intros Hin. exists (mbti q). split; [exact Hin | reflexivity].
Qed.

Lemma mbtiQuestionsOf_opened (mbtiQuestions : list MbtiQuestion.t)
    (attitudeQuestions : list AttitudeQuestion.t) :
  mbtiQuestionsOf (List.map mbti mbtiQuestions ++ List.map attitude attitudeQuestions)
  = mbtiQuestions.
Proof.
  unfold mbtiQuestionsOf. rewrite omap_app.
  assert (omap (fun q => match q with mbti q => Some q | attitude _ => None end)
            (List.map attitude attitudeQuestions) = []) as ->.
  { induction attitudeQuestions as [| a l IH]; [reflexivity | exact IH]. }
  rewrite app_nil_r.
  induction mbtiQuestions as [| m l IH]; [reflexivity |]. cbn. f_equal. exact IH.
Qed.

(** A button the markup of a forced-choice question offers is the key of
    one of its options. *)
Lemma offered_option (q : MbtiQuestion.t) (v : RadioValue) :
  has_markup (mbti q) = true -> offered (mbti q) v ->
  is_Some (MbtiQuestion.options q !! value_of v).
Proof.
  unfold has_markup. rewrite andb_true_iff, !bool_decide_eq_true.
  intros [HA HB] Hv. destruct v; cbn in Hv; try contradiction; assumption.
Qed.

(** The scorer returns when every question of the list has a saved answer
    among the buttons of its markup and every option carries a response
    code. *)
Lemma result_returns (itemParameters : list ItemParameter.t) (s : state) :
  (forall q, q ∈ allQuestions s -> has_markup q = true) ->
  scored (mbtiQuestionsOf (allQuestions s)) ->
  (forall q, q ∈ allQuestions s -> saved_offered (userAnswers s) q) ->
  exists r, result itemParameters s = Ok r.
Proof.
  intros Hmarkup Hscored Hsaved. unfold result.
  pose proof (gathered_mbti (userAnswers s) (allQuestions s)) as Hgathered.
  fold (submitted s) in Hgathered.
  destruct (submitted s) as [mbtiAnswers attitudeAnswers]. cbn [fst] in Hgathered.
  unfold calculateHybridResults.
  apply calculate_total; [exact tableWeight_real | exact Hscored |].
  intros i params answer _ _ Ha.
  apply Hgathered in Ha as ((q0 & Hq0 & Hn) & v & Hv & ->).
  unfold option_present. cbn [choice to_key].
  destruct (List.find (fun q => Nat.eqb (MbtiQuestion.number q) (i + 1))
              (mbtiQuestionsOf (allQuestions s))) as [qd |] eqn:Efind.
  - exists qd. split; [reflexivity |].
    apply find_some in Efind as [Hin Hnum].
    apply list_elem_of_In, mbtiQuestionsOf_elem in Hin. apply Nat.eqb_eq in Hnum.
    destruct (Hsaved _ Hin) as (v' & Hv' & Hoffered). cbn [qId] in Hv'.
    rewrite Hnum, Hv in Hv'. injection Hv' as <-.
    exact (offered_option qd v (Hmarkup _ Hin) Hoffered).
  - exfalso. apply mbtiQuestionsOf_elem, list_elem_of_In in Hq0.
    pose proof (find_none _ _ Efind q0 Hq0) as Hfalse. cbn beta in Hfalse.
    rewrite Hn, Nat.eqb_refl in Hfalse. discriminate Hfalse.
Qed.

Lemma answered_chosen (userAnswers : gmap string RadioValue) (q : Question)
    (v : RadioValue) :
  answered (<[qId q := v]> userAnswers) q = true.
Proof. unfold answered. rewrite lookup_insert_eq. apply value_of_truthy. Qed.

Lemma run_through_from (itemParameters : list ItemParameter.t) (rest : list Question)
    (choices : list RadioValue) :
  Forall2 offered rest choices ->
  rest <> [] ->
  forall (done : list Question) (s : state),
    allQuestions s = done ++ rest ->
    currentQuestionIndex s = Z.of_nat (length done) ->
    (forall q, q ∈ allQuestions s -> has_markup q = true) ->
    scored (mbtiQuestionsOf (allQuestions s)) ->
    NoDup (qId <$> allQuestions s) ->
    (forall q, q ∈ allQuestions s -> radio_name q <> ""%string) ->
    (forall q, q ∈ done -> saved_offered (userAnswers s) q) ->
    let s' := after itemParameters (run_through rest choices) s in
    active (document s') results = true
    /\ exists r, result itemParameters s' = Ok r
                 /\ finalTypeText (document s') = finalType r.
Proof.
  induction 1 as [| q v rest choices Hv Hrest IH]; [contradiction |].
  intros _ done s Hqs Hindex Hmarkup Hscored Hnodup Hnames Hsaved.
  unfold run_through. cbn [zip zip_with flat_map app].
  rewrite !after_cons.
  (* the choice *)
  assert (currentQuestion s = Some q) as Hcurrent.
  { unfold currentQuestion. rewrite Hindex, Hqs.
    destruct (Z.ltb_spec (Z.of_nat (length done)) 0); [lia |].
    rewrite Nat2Z.id, lookup_app_r, Nat.sub_diag by lia. reflexivity. }
  assert (q ∈ allQuestions s) as Hq by exact (currentQuestion_elem _ _ Hcurrent).
  cbn [handle]. rewrite handleAnswerSelect_eq.
  rewrite (proj2 (String.eqb_neq _ _) (Hnames q Hq)), Hcurrent. cbv zeta. cbn [snd].
  set (userAnswers' := <[qId q := v]> (userAnswers s)).
  set (s1 := set_document _ (set_userAnswers userAnswers' s)).
  assert (forall q', q' ∈ done ++ [q] -> saved_offered userAnswers' q') as Hsaved'.
  { intros q' Hq'. apply elem_of_app in Hq' as [Hq' | Hq'].
    - destruct (Hsaved q' Hq') as (v' & Hv' & Hvalid). exists v'. split; [| exact Hvalid].
      unfold userAnswers'. rewrite lookup_insert_ne; [exact Hv' |].
      rewrite Hqs, fmap_app in Hnodup. apply NoDup_app in Hnodup as (_ & Hdisjoint & _).
      intros Heq. apply (Hdisjoint (qId q')).
      + apply list_elem_of_fmap. exists q'. split; [reflexivity | exact Hq'].
      + rewrite <- Heq. cbn [fmap list_fmap]. apply list_elem_of_here.
    - apply list_elem_of_singleton in Hq'. subst q'. exists v. split; [| exact Hv].
      unfold userAnswers'. apply lookup_insert_eq. }
  (* the next button *)
  rewrite handleNext_eq.
  change (currentQuestion s1) with (currentQuestion s). rewrite Hcurrent.
  change (userAnswers s1) with userAnswers'.
  assert (answered userAnswers' q = true) as -> by exact (answered_chosen _ _ _).
  cbv zeta.
  change (currentQuestionIndex s1) with (currentQuestionIndex s).
  change (allQuestions s1) with (allQuestions s).
  destruct rest as [| q' rest].
  - (* the last question *)
    inversion Hrest; subst. cbn [zip zip_with flat_map after fold_left].
    destruct (Z.ltb_spec (currentQuestionIndex s) (Z.of_nat (length (allQuestions s)) - 1))
      as [Hlt | _].
    { rewrite Hqs, length_app in Hlt. cbn [length] in Hlt. lia. }
    set (s2 := set_document (set_errorMessage "") s1).
    destruct (result_returns itemParameters s2) as [r Hr].
    { exact Hmarkup. }
    { exact Hscored. }
    { intros q' Hq'. apply Hsaved'. change (allQuestions s2) with (allQuestions s) in Hq'.
      rewrite Hqs in Hq'. exact Hq'. }
    unfold submitQuiz, showScreen. run_page. rewrite Hr. cbn [snd].
    split; [reflexivity |]. exists r. split; [exact Hr | reflexivity].
  - (* a further question *)
    destruct (Z.ltb_spec (currentQuestionIndex s) (Z.of_nat (length (allQuestions s)) - 1))
      as [_ | Hge].
    2: { rewrite Hqs, length_app in Hge. cbn [length] in Hge. lia. }
    apply (IH ltac:(discriminate) (done ++ [q])).
    + rewrite renderQuestion_allQuestions. cbn. rewrite Hqs, <- app_assoc. reflexivity.
    + rewrite renderQuestion_index. cbn. rewrite Hindex, length_app. cbn [length]. lia.
    + rewrite renderQuestion_allQuestions. exact Hmarkup.
    + rewrite renderQuestion_allQuestions. exact Hscored.
    + rewrite renderQuestion_allQuestions. exact Hnodup.
    + rewrite renderQuestion_allQuestions. exact Hnames.
    + rewrite renderQuestion_userAnswers. exact Hsaved'.
Qed.

(** X15.  A run through the quiz ends on the results screen.  On a list of
    at least one question with distinct answer keys and named radio buttons,
    no Likert id naming a property of [Object.prototype], whose
    forced-choice questions have their two options with the binary response
    codes 0 and 1, and with item parameters of moderate magnitude, a user
    who starts the quiz and, for each question in
    turn, chooses one of the buttons of its markup and clicks the next
    button is shown the results screen, and the text of the final type is
    the type the scorer returns for these answers: no exception interrupts
    the run. *)
Theorem X15_run_through_ends_on_results (itemParameters : list ItemParameter.t)
    (mbtiQuestions : list MbtiQuestion.t) (attitudeQuestions : list AttitudeQuestion.t)
    (d : Document) (choices : list RadioValue) :
  let qs := List.map mbti mbtiQuestions ++ List.map attitude attitudeQuestions in
  qs <> [] ->
  complete_options mbtiQuestions ->
  binary_codes mbtiQuestions ->
  moderate_items itemParameters ->
  NoDup (qId <$> qs) ->
  (forall q, q ∈ attitudeQuestions -> AttitudeQuestion.id q <> ""%string) ->
  plain_ids attitudeQuestions ->
  Forall2 offered qs choices ->
  let s := after itemParameters (click_start :: run_through qs choices)
             (opened mbtiQuestions attitudeQuestions d) in
  active (document s) results = true
  /\ exists r, result itemParameters s = Ok r
               /\ finalTypeText (document s) = finalType r.
Proof.
  cbv zeta. intros Hnonempty Hcomplete Hbinary _ Hnodup Hids _ Hchoices.
  pose proof (binary_scored _ Hbinary) as Hscored.
  rewrite after_cons.
  apply (run_through_from itemParameters _ _ Hchoices Hnonempty []).
  - rewrite handle_allQuestions. reflexivity.
  - rewrite start_eq, renderQuestion_index. reflexivity.
  - rewrite handle_allQuestions. intros q Hq.
    exact (complete_options_markup _ _ _ Hcomplete Hq).
  - rewrite handle_allQuestions, opened_allQuestions, mbtiQuestionsOf_opened. exact Hscored.
  - rewrite handle_allQuestions. exact Hnodup.
  - rewrite handle_allQuestions, opened_allQuestions. intros q Hq.
    apply elem_of_app in Hq as [Hq | Hq];
      apply list_elem_of_In, in_map_iff in Hq as (x & <- & Hx).
    + cbn [radio_name]. discriminate.
    + cbn [radio_name]. apply Hids, list_elem_of_In. exact Hx.
  - intros q Hq. apply elem_of_nil in Hq. contradiction.
Qed.

Lemma X15_run_through_ends_on_results_witness :
  let s := after example_items
             (click_start :: run_through (List.map mbti example_questions) [value_A])
             (opened example_questions [] blank) in
  active (document s) results = true
  /\ exists r, result example_items s = Ok r /\ finalTypeText (document s) = finalType r.
Proof.
  refine (X15_run_through_ends_on_results example_items example_questions [] blank
            [value_A] _ example_complete example_binary example_moderate _ _ no_ids _).
  - discriminate.
  - apply NoDup_singleton.
  - intros q Hq. apply elem_of_nil in Hq. contradiction.
  - repeat constructor.
Defined.

(** ** What the results screen shows *)

Lemma get_Some_elem {A : Type} (entries : list (string * A)) (key : string) :
  is_Some (get entries key) -> key ∈ entries.*1.
Proof.
  induction entries as [| [k v] entries IH]; cbn [fmap list_fmap fst get].
  - intros [x H]. discriminate H.
  - destruct (String.eqb_spec k key) as [-> | Hne].
    + intros _. apply list_elem_of_here.
    + intros H. apply list_elem_of_further, IH. exact H.
Qed.

Lemma result_type (itemParameters : list ItemParameter.t) (s : state) (r : Result) :
  result itemParameters s = Ok r -> finalType r ∈ TYPE_FUNCTION_STACKS.*1.
Proof.
  unfold result. destruct (submitted s) as [mbtiAnswers attitudeAnswers].
  unfold calculateHybridResults. intros H.
  apply (calculate_first_maximum _ _ _ _ _ _ _ _ tableWeight_real) in H as [_ H].
  apply get_Some_elem. rewrite H. eexists; reflexivity.
Qed.

Lemma renderQuestion_finalTypeText (s : state) :
  finalTypeText (document (renderQuestion s).2) = finalTypeText (document s).
Proof.
  rewrite renderQuestion_eq.
  destruct (currentQuestion s) as [q |]; [destruct (has_markup q) |]; reflexivity.
Qed.

Lemma handle_shows_type (itemParameters : list ItemParameter.t) (e : Event) (s : state) :
  (forall q, q ∈ allQuestions s -> has_markup q = true) ->
  (active (document s) results = true ->
   finalTypeText (document s) ∈ TYPE_FUNCTION_STACKS.*1) ->
  active (document (handle itemParameters e s).2) results = true ->
  finalTypeText (document (handle itemParameters e s).2) ∈ TYPE_FUNCTION_STACKS.*1.
Proof.
  intros Hmarkup Hs.
  destruct e as [| | | | name value].
  - rewrite start_eq, renderQuestion_active. cbn. discriminate.
  - cbn [handle]. rewrite handleNext_eq.
    destruct (currentQuestion s) as [q |]; [| exact Hs].
    destruct (answered (userAnswers s) q); [| exact Hs]. cbv zeta.
    destruct (_ <? _)%Z.
    + rewrite renderQuestion_active, renderQuestion_finalTypeText. exact Hs.
    + unfold submitQuiz, showScreen. run_page.
      destruct (result itemParameters (set_document (set_errorMessage "") s))
        as [r | err] eqn:Hr; cbn [snd]; [| exact Hs].
      intros _. cbn. exact (result_type _ _ _ Hr).
  - cbn [handle]. rewrite handleBack_eq.
    destruct (0 <? _)%Z; [| exact Hs].
    rewrite renderQuestion_active, renderQuestion_finalTypeText. exact Hs.
  - cbn [handle]. rewrite restartQuiz_eq. cbv zeta.
    rewrite renderQuestion_complete by exact Hmarkup. cbn. discriminate.
  - cbn [handle]. rewrite handleAnswerSelect_eq.
    destruct (String.eqb name ""); [exact Hs |].
    destruct (currentQuestion s); exact Hs.
Qed.

Lemma example_run :
  active (document (after example_items [click_start; change "q1" value_A; click_next]
                      (opened example_questions [] blank))) results = true.
Proof.
  refine (proj1 (run_through_from example_items (List.map mbti example_questions)
                   [value_A] _ _ []
                   (handle example_items click_start (opened example_questions [] blank)).2
                   eq_refl eq_refl _ example_scored _ _ _)).
  - repeat constructor.
  - discriminate.
  - intros q Hq. apply list_elem_of_singleton in Hq. subst q. reflexivity.
  - apply NoDup_singleton.
  - intros q Hq. apply list_elem_of_singleton in Hq. subst q. discriminate.
  - intros q Hq. apply elem_of_nil in Hq. contradiction.
Qed.

(** X16.  When every forced-choice question has its two options, then after
    any sequence of events, whenever the results screen is shown the text
    of the final type is one of the sixteen types of
    [TYPE_FUNCTION_STACKS]: the one the scorer returned at the last
    submission. *)
Theorem X16_results_screen_shows_a_type (itemParameters : list ItemParameter.t)
    (mbtiQuestions : list MbtiQuestion.t) (attitudeQuestions : list AttitudeQuestion.t)
    (d : Document) (events : list Event) :
  complete_options mbtiQuestions ->
  let s := after itemParameters events (opened mbtiQuestions attitudeQuestions d) in
  active (document s) results = true ->
  finalTypeText (document s) ∈ TYPE_FUNCTION_STACKS.*1.
Proof.
  intros Hcomplete. cbv zeta.
  set (P := fun s : state =>
              allQuestions s = List.map mbti mbtiQuestions ++ List.map attitude attitudeQuestions
              /\ (active (document s) results = true ->
                  finalTypeText (document s) ∈ TYPE_FUNCTION_STACKS.*1)).
  assert (P (after itemParameters events (opened mbtiQuestions attitudeQuestions d))) as [_ H].
  { apply (after_invariant itemParameters P (fun _ => True)).
    - intros e s _ [Hqs Hs]. split; [rewrite handle_allQuestions; exact Hqs |].
      apply handle_shows_type; [| exact Hs].
      intros q Hq. rewrite Hqs in Hq. exact (complete_options_markup _ _ _ Hcomplete Hq).
    - apply Forall_forall. intros; exact I.
    - split; [reflexivity |]. cbn. discriminate. }
  exact H.
Qed.

Lemma X16_results_screen_shows_a_type_witness :
  finalTypeText (document (after example_items [click_start; change "q1" value_A; click_next]
                             (opened example_questions [] blank)))
  ∈ TYPE_FUNCTION_STACKS.*1.
Proof.
  exact (X16_results_screen_shows_a_type example_items example_questions [] blank
           [click_start; change "q1" value_A; click_next] example_complete example_run).
Defined.
